(** * Anomaly scorers of [darts.ad.scorers.scorers]: a shallow embedding

    The Python module defines [AnomalyScorer], [FittableAnomalyScorer],
    [WindowedAnomalyScorer] and [NLLScorer].  Their methods mutate the scorer
    object ([self]), write to a logger and raise exceptions; here they are
    functions in a state-and-error monad [M] over a [World] made of the scorer
    object and the log.  A raised exception keeps the mutations done before it,
    as in Python.

    Floating-point values are idealised as rationals ([Q]); component labels
    of a series are not modelled. *)

From Stdlib Require Import String Ascii.
From Stdlib Require Import List ZArith QArith Qabs Lia Bool Arith Sorted.
Import ListNotations.
Local Open Scope nat_scope.

Set Implicit Arguments.

(** ** Errors

    Every validation in the source goes through [raise_if_not] (a
    [ValueError]); the constructors below keep apart the failure sites. *)

Inductive precondition :=
| SingleSeriesUnsupported   (* decorator [_check_single_series_support] *)
| FitNotCalled.             (* [check_if_fit_called] *)

Inductive error :=
| ConfigurationError
| PreconditionError (p : precondition)
| InputTypeError            (* [_assert_timeseries], [show_anomalies] *)
| ShapeMismatchError
| WindowTooLargeError
| EmptyIntersectionError
| DistributionInputError
| NotImplementedError
| AttributeError            (* attribute read before it was ever set *)
| IndexError
| TypeError                 (* an object used as what it is not *)
| ArrayError.               (* numpy / series-construction failure *)

Definition result (A : Type) : Type := (error + A)%type.

Definition result_map {A B} (f : A -> B) (r : result A) : result B :=
  match r with
  | inl e => inl e
  | inr a => inr (f a)
  end.

Definition result_bind {A B} (r : result A) (f : A -> result B) : result B :=
  match r with
  | inl e => inl e
  | inr a => f a
  end.

(** ** Series container

    An array of shape (time, component, sample) over a time index. *)

Record TimeSeries := mkTimeSeries {
  time_index : list Z;
  width : nat;                         (* number of components *)
  n_samples : nat;
  all_values : list (list (list Q))    (* time x component x sample *)
}.

Definition len (s : TimeSeries) : nat := length (all_values s).

Definition is_deterministic (s : TimeSeries) : bool := n_samples s =? 1.
Definition is_stochastic (s : TimeSeries) : bool := 1 <? n_samples s.

Fixpoint increasing (l : list Z) : bool :=
  match l with
  | [] => true
  | x :: tl =>
      match tl with
      | [] => true
      | y :: _ => (x <? y)%Z && increasing tl
      end
  end.

Definition rectangular (C S : nat) (v : list (list (list Q))) : bool :=
  forallb (fun row => (length row =? C) &&
                      forallb (fun cell => length cell =? S) row) v.

(** Class invariant of the container: one row per timestamp, strictly
    increasing timestamps, a full (time, component, sample) array. *)
Definition wf_series (s : TimeSeries) : bool :=
  (length (time_index s) =? length (all_values s)) &&
  increasing (time_index s) &&
  rectangular (width s) (n_samples s) (all_values s).

Definition value_at (v : list (list (list Q))) (t c k : nat) : Q :=
  nth k (nth c (nth t v []) []) 0%Q.

(** Python slice [l[a:b]] for [0 <= a]. *)
Definition slice {A} (l : list A) (a b : nat) : list A :=
  firstn (b - a) (skipn a l).

Definition Qsum (l : list Q) : Q := fold_right Qplus 0%Q l.

(** [numpy.mean] of a one-dimensional array.  On an empty array numpy
    gives nan; here the division by zero gives 0, and the properties below
    only take means of non-empty slices. *)
Definition Qmean (l : list Q) : Q :=
  (Qsum l / inject_Z (Z.of_nat (length l)))%Q.

(** [arr.mean(axis=0)] for an array of shape (k, C, S): the result has shape
    (C, S). *)
Definition mean_axis0 (C S : nat) (rows : list (list (list Q))) : list (list Q) :=
  map (fun c => map (fun k => Qmean (map (fun row => nth k (nth c row []) 0%Q) rows))
                    (seq 0 S))
      (seq 0 C).

(** Modelled from the spec: [TimeSeries.from_times_and_values] of the series
    container, which is not in the scorer module.  It builds a series over
    the given time index from a 1-, 2- or 3-dimensional array and fails when
    index and values differ in length. *)
Definition from_times_and_values_3d (times : list Z) (C S : nat)
    (values : list (list (list Q))) : result TimeSeries :=
  if length times =? length values
  then inr (mkTimeSeries times C S values)
  else inl ArrayError.

(** The same from a two-dimensional array (time, component): one sample. *)
Definition from_times_and_values_2d (times : list Z) (C : nat)
    (values : list (list Q)) : result TimeSeries :=
  from_times_and_values_3d times C 1 (map (map (fun x => [x])) values).

(** The same from a one-dimensional array: one component, one sample. *)
Definition from_times_and_values_1d (times : list Z) (values : list Q)
    : result TimeSeries :=
  from_times_and_values_2d times 1 (map (fun x => [x]) values).

(** Insertion sort of the samples of a cell, for the quantile below. *)
Fixpoint Qinsert (x : Q) (l : list Q) : list Q :=
  match l with
  | [] => [x]
  | y :: tl => if Qle_bool x y then x :: l else y :: Qinsert x tl
  end.

Definition Qsort (l : list Q) : list Q := fold_right Qinsert [] l.

(** The 0.5-quantile of a sample set, with linear interpolation between the
    two middle order statistics. *)
Definition median (l : list Q) : Q :=
  let s := Qsort l in
  let n := length s in
  if Nat.odd n then nth (n / 2) s 0%Q
  else ((nth (n / 2 - 1) s 0%Q + nth (n / 2) s 0%Q) / 2)%Q.

(** Modelled from the spec: [TimeSeries.quantile_timeseries(quantile=0.5)],
    the median-sample series: same time index and components, one sample per
    cell. *)
Definition quantile_timeseries_05 (s : TimeSeries) : TimeSeries :=
  mkTimeSeries (time_index s) (width s) 1
               (map (map (fun cell => [median cell])) (all_values s)).

Definition mem_time (t : Z) (l : list Z) : bool := existsb (Z.eqb t) l.

(** Modelled from the spec: [TimeSeries.slice_intersect], which keeps the
    part of a series lying on the timestamps it shares with another one. *)
Definition slice_intersect (a b : TimeSeries) : TimeSeries :=
  let keep := map (fun t => mem_time t (time_index b)) (time_index a) in
  let pick {A} (l : list A) :=
    map snd (filter fst (combine keep l)) in
  mkTimeSeries (pick (time_index a)) (width a) (n_samples a)
               (pick (all_values a)).

(** Modelled from the spec: [darts.ad.utils._intersect]: both series cut to
    their common timestamps; fails if the intersection is empty. *)
Definition _intersect (a b : TimeSeries) : result (TimeSeries * TimeSeries) :=
  let a' := slice_intersect a b in
  if len a' =? 0 then inl EmptyIntersectionError
  else inr (a', slice_intersect b a).

Definition same_shape (a b : TimeSeries) : bool :=
  (len a =? len b) && (width a =? width b) && (n_samples a =? n_samples b).

Definition zip_with {A B C} (f : A -> B -> C) (l1 : list A) (l2 : list B) : list C :=
  map (fun p => f (fst p) (snd p)) (combine l1 l2).

(** Modelled from the spec: elementwise subtraction of two series
    ([TimeSeries.__sub__]), defined on series of equal shape; the result
    lives on the time index of the left operand. *)
Definition ts_sub (a b : TimeSeries) : result TimeSeries :=
  if same_shape a b
  then inr (mkTimeSeries (time_index a) (width a) (n_samples a)
              (zip_with (zip_with (zip_with Qminus)) (all_values a) (all_values b)))
  else inl ShapeMismatchError.

(** Modelled from the spec: [TimeSeries.map], a point-wise transform. *)
Definition ts_map (f : Q -> Q) (s : TimeSeries) : TimeSeries :=
  mkTimeSeries (time_index s) (width s) (n_samples s)
               (map (map (map f)) (all_values s)).

(** Unary minus of a series. *)
Definition ts_neg (s : TimeSeries) : TimeSeries := ts_map Qopp s.

(** Modelled from the spec: [TimeSeries.__getitem__] at an integer position,
    the one-timestamp sub-series. *)
Definition ts_getitem (s : TimeSeries) (i : nat) : TimeSeries :=
  mkTimeSeries (slice (time_index s) i (i + 1)) (width s) (n_samples s)
               (slice (all_values s) i (i + 1)).

(** Modelled from the spec: [TimeSeries.window_transform] with
    [{"window": w, "function": "mean", "mode": "rolling", "min_periods": w}]:
    position [i] holds the mean of the [w] points ending at [i], and no value
    when fewer than [w] points are available. *)
Definition rolling_mean (w : nat) (s : TimeSeries) : list (option (list (list Q))) :=
  map (fun i =>
         let win := slice (all_values s) (i + 1 - w) (i + 1) in
         if length win <? w then None
         else Some (mean_axis0 (width s) (n_samples s) win))
      (seq 0 (len s)).

(** [treat_na="dropna"]: the positions without a value are dropped, with
    their timestamps. *)
Definition dropna {A B} (l : list (A * option B)) : list (A * B) :=
  flat_map (fun p => match snd p with
                     | Some v => [(fst p, v)]
                     | None => []
                     end) l.

(** Modelled from the spec: [TimeSeries.window_transform] with the rolling
    mean above and [treat_na="dropna"]: a series on the timestamps that have
    a value. *)
Definition window_transform_rolling_mean_dropna (w : nat) (s : TimeSeries)
    : TimeSeries :=
  let kept := dropna (combine (time_index s) (rolling_mean w s)) in
  mkTimeSeries (map fst kept) (width s) (n_samples s) (map snd kept).

(** ** Python arguments

    The public methods take [Union[TimeSeries, Sequence[TimeSeries]]]; the
    annotation is not enforced, so an element of a sequence can be any
    object (here: again a list or a tuple). *)

#[local] Unset Elimination Schemes.
Inductive pyarg :=
| PySeries (s : TimeSeries)
| PyList (l : list pyarg)
| PyTuple (l : list pyarg).
#[local] Set Elimination Schemes.

(** [isinstance(x, list)] *)
Definition is_list (x : pyarg) : bool :=
  match x with PyList _ => true | _ => false end.

(** [isinstance(x, Sequence)] *)
Definition is_Sequence (x : pyarg) : bool :=
  match x with PySeries _ => false | _ => true end.

(** [isinstance(x, TimeSeries)] *)
Definition is_TimeSeries (x : pyarg) : bool :=
  match x with PySeries _ => true | _ => false end.

(** Modelled from the spec: [darts.utils.utils.series2seq]: a single series
    becomes a one-element list, a sequence is passed on as it is. *)
Definition series2seq (x : pyarg) : list pyarg :=
  match x with
  | PySeries s => [PySeries s]
  | PyList l => l
  | PyTuple l => l
  end.

(** [for x in obj]: a list or tuple yields its elements; a series, which
    has [__len__] and [__getitem__] but no [__iter__], yields its
    one-timestamp sub-series. *)
Definition py_iter (x : pyarg) : list pyarg :=
  match x with
  | PySeries s => map (fun i => PySeries (ts_getitem s i)) (seq 0 (len s))
  | PyList l => l
  | PyTuple l => l
  end.

(** What [score] and [score_from_prediction] return. *)
Inductive scores :=
| OneScore (s : TimeSeries)
| ManyScores (l : list TimeSeries).

Inductive log_entry :=
| WarnNotDeterministic (name_series : string) (found_samples : nat).

(** ** The scorer object and the monad *)

Section Objects.

Variable Model : Type.

(** [self.model] of a windowed scorer: one model, or after a
    component-wise fit one sub-model per component. *)
Inductive model_obj :=
| SingleModel (m : Model)
| SubModels (ms : list Model).

Record Scorer := mkScorer {
  window : nat;
  univariate_scorer : bool;
  fittable : bool;
  _fit_called : option bool;          (* [None] when not fittable *)
  _is_probabilistic : bool;
  diff_fn : string;
  window_agg : bool;
  single_series_support : bool;
  _n_jobs : Z;
  width_trained_on : option nat;      (* unset until [fit] runs *)
  component_wise : bool;              (* set by windowed subclasses *)
  model : option model_obj            (* set by windowed subclasses *)
}.

Definition set_fit_called (b : bool) (sc : Scorer) : Scorer :=
  mkScorer (window sc) (univariate_scorer sc) (fittable sc) (Some b)
           (_is_probabilistic sc) (diff_fn sc) (window_agg sc)
           (single_series_support sc) (_n_jobs sc) (width_trained_on sc)
           (component_wise sc) (model sc).

Definition set_width_trained_on (w : nat) (sc : Scorer) : Scorer :=
  mkScorer (window sc) (univariate_scorer sc) (fittable sc) (_fit_called sc)
           (_is_probabilistic sc) (diff_fn sc) (window_agg sc)
           (single_series_support sc) (_n_jobs sc) (Some w)
           (component_wise sc) (model sc).

Definition set_model (m : model_obj) (sc : Scorer) : Scorer :=
  mkScorer (window sc) (univariate_scorer sc) (fittable sc) (_fit_called sc)
           (_is_probabilistic sc) (diff_fn sc) (window_agg sc)
           (single_series_support sc) (_n_jobs sc) (width_trained_on sc)
           (component_wise sc) (Some m).

Definition set_window_agg (b : bool) (sc : Scorer) : Scorer :=
  mkScorer (window sc) (univariate_scorer sc) (fittable sc) (_fit_called sc)
           (_is_probabilistic sc) (diff_fn sc) b
           (single_series_support sc) (_n_jobs sc) (width_trained_on sc)
           (component_wise sc) (model sc).

Record World := mkWorld {
  self : Scorer;
  log : list log_entry
}.

(** A computation returns a value or raises, and leaves a world either
    way. *)
Definition M (A : Type) : Type := World -> result A * World.

Definition ret {A} (a : A) : M A := fun w => (inr a, w).

Definition bind {A B} (c : M A) (k : A -> M B) : M B :=
  fun w =>
    match c w with
    | (inl e, w') => (inl e, w')
    | (inr a, w') => k a w'
    end.

Definition raise {A} (e : error) : M A := fun w => (inl e, w).

Definition lift {A} (r : result A) : M A := fun w => (r, w).

Definition get_self : M Scorer := fun w => (inr (self w), w).

Definition modify_self (f : Scorer -> Scorer) : M unit :=
  fun w => (inr tt, mkWorld (f (self w)) (log w)).

Definition warning (e : log_entry) : M unit :=
  fun w => (inr tt, mkWorld (self w) (log w ++ [e])).

Definition raise_if_not (cond : bool) (e : error) : M unit :=
  if cond then ret tt else raise e.

(** A [for] loop (or list comprehension) collecting results. *)
Fixpoint for_each {A B} (f : A -> M B) (l : list A) : M (list B) :=
  match l with
  | [] => ret []
  | a :: tl =>
      bind (f a) (fun b => bind (for_each f tl) (fun bs => ret (b :: bs)))
  end.

End Objects.

Arguments ret {Model A} a.
Arguments raise {Model A} e.
Arguments lift {Model A} r.
Arguments get_self {Model}.
Arguments warning {Model} e.
Arguments raise_if_not {Model} cond e.
Arguments SingleModel {Model} m.
Arguments SubModels {Model} ms.

Declare Scope py_scope.
Delimit Scope py_scope with py.
Notation "x <- c ;; k" := (bind c (fun x => k))
  (at level 61, c at next level, right associativity) : py_scope.
Notation "c ;; k" := (bind c (fun _ => k))
  (at level 61, right associativity) : py_scope.
Open Scope py_scope.

(** ** [AnomalyScorer] *)

(** The methods a subclass provides; the base class raises
    [NotImplementedError] in each of them. *)
Record Methods (Model : Type) := mkMethods {
  _fit_core : list TimeSeries -> M Model unit;
  _score_core : TimeSeries -> M Model TimeSeries;
  _score_core_from_prediction : TimeSeries -> TimeSeries -> M Model TimeSeries
}.

Definition base_methods (Model : Type) : Methods Model :=
  mkMethods (fun _ => raise NotImplementedError)
            (fun _ => raise NotImplementedError)
            (fun _ _ => raise NotImplementedError).

Section AnomalyScorer.

Variable Model : Type.
Variable methods : Methods Model.

(** External collaborator [darts.ad.utils.eval_metric_from_scores]. *)
Variable MetricValue : Type.
Variable eval_metric_from_scores :
  list pyarg -> scores -> nat -> string -> result MetricValue.

#[local] Abbreviation M := (M Model).

(** [AnomalyScorer.__init__]; [window] and [window_agg] are validated, the
    other arguments are stored. *)
Definition AnomalyScorer_init
    (univariate_scorer fittable single_series_support probabilistic_support : bool)
    (window_agg : option bool) (window : Z) (diff_fn : string) (n_jobs : Z)
    : result (Scorer Model) :=
  if negb (0 <? window)%Z then inl ConfigurationError
  else if negb (String.eqb diff_fn "abs_diff" || String.eqb diff_fn "diff")
  then inl ConfigurationError
  else match window_agg with
       | None => inl ConfigurationError
       | Some agg =>
           inr (mkScorer (Z.to_nat window) univariate_scorer fittable
                  (if fittable then Some false else None)
                  probabilistic_support diff_fn agg single_series_support
                  n_jobs None false None)
       end.

(** Modelled from the spec: [darts.ad.utils._assert_timeseries]: fails
    unless the object is a series. *)
Definition _assert_timeseries (x : pyarg) : M TimeSeries :=
  match x with
  | PySeries s => ret s
  | _ => raise InputTypeError
  end.

(** Reading a series attribute of an object ([s.width], [s.n_samples]...). *)
Definition as_series (x : pyarg) : M TimeSeries :=
  match x with
  | PySeries s => ret s
  | _ => raise AttributeError
  end.

Definition _check_univariate_scorer (actual_anomalies : list pyarg) : M unit :=
  sc <- get_self ;;
  if univariate_scorer sc then
    raise_if_not (forallb is_TimeSeries actual_anomalies) InputTypeError ;;
    ws <- for_each (fun a => s <- as_series a ;; ret (width s =? 1))
                   actual_anomalies ;;
    raise_if_not (forallb (fun b => b) ws) ShapeMismatchError
  else ret tt.

Definition _check_window_size (series : TimeSeries) : M unit :=
  sc <- get_self ;;
  raise_if_not (window sc <=? len series) WindowTooLargeError.

Definition _assert_stochastic (series : TimeSeries) (name_series : string)
    : M unit :=
  raise_if_not (is_stochastic series) DistributionInputError.

Definition _extract_deterministic (series : TimeSeries) (name_series : string)
    : M TimeSeries :=
  if negb (is_deterministic series) then
    warning (WarnNotDeterministic name_series (n_samples series)) ;;
    ret (quantile_timeseries_05 series)
  else ret series.

(** [_fun_window_agg]: for each score series, the value at [idx_point] is
    the mean over axis 0 of [all_values[idx_point : idx_point + window]]; the
    result is rebuilt on the time index of the score. *)
Definition _fun_window_agg (list_scores : list TimeSeries) (window : nat)
    : M (list TimeSeries) :=
  for_each
    (fun score =>
       let mean_score :=
         map (fun idx_point =>
                mean_axis0 (width score) (n_samples score)
                  (slice (all_values score) idx_point (idx_point + window)))
             (seq 0 (len score)) in
       lift (from_times_and_values_3d (time_index score) (width score)
               (n_samples score) mean_score))
    list_scores.

Definition truthy (b : option bool) : bool :=
  match b with Some true => true | _ => false end.

Definition check_if_fit_called : M unit :=
  sc <- get_self ;;
  raise_if_not (truthy (_fit_called sc)) (PreconditionError FitNotCalled).

(** The decorator [_check_single_series_support], run before the body of
    [eval_metric], [show_anomalies], [score] and [fit]. *)
Definition _check_single_series_support : M unit :=
  sc <- get_self ;;
  raise_if_not (single_series_support sc)
               (PreconditionError SingleSeriesUnsupported).

Definition _check_probabilistic_series (pred_series : list pyarg)
    : M (list TimeSeries) :=
  for_each
    (fun x =>
       sc <- get_self ;;
       series <- as_series x ;;
       if _is_probabilistic sc then
         _assert_stochastic series "pred_series" ;;
         ret series
       else _extract_deterministic series "pred_series")
    pred_series.

(** Modelled from the spec: [darts.ad.utils._assert_same_length]. *)
Definition _assert_same_length {A B} (l1 : list A) (l2 : list B) : M unit :=
  raise_if_not (length l1 =? length l2) ShapeMismatchError.

(** Modelled from the spec: [darts.ad.utils._sanity_check_two_series]: the
    two series have the same number of components and share at least one
    timestamp. *)
Definition _sanity_check_two_series (s1 s2 : TimeSeries) : M unit :=
  raise_if_not (width s1 =? width s2) ShapeMismatchError ;;
  raise_if_not (negb (len (slice_intersect s1 s2) =? 0)) EmptyIntersectionError.

Definition _diff_series (series_1 series_2 : TimeSeries) : M TimeSeries :=
  sc <- get_self ;;
  p <- lift (_intersect series_1 series_2) ;;
  let '(series_1, series_2) := p in
  if String.eqb (diff_fn sc) "abs_diff" then
    d <- lift (ts_sub series_1 series_2) ;;
    ret (ts_map Qabs d)
  else if String.eqb (diff_fn sc) "diff" then
    lift (ts_sub series_1 series_2)
  else raise ConfigurationError.

Definition score (series : pyarg) : M scores :=
  _check_single_series_support ;;
  check_if_fit_called ;;
  let list_series := series2seq series in
  list_series <- for_each (fun x => s <- _assert_timeseries x ;;
                                    _check_window_size s ;;
                                    ret s) list_series ;;
  list_series <- for_each (fun s => _extract_deterministic s "series")
                          list_series ;;
  anomaly_scores <- for_each (_score_core methods) list_series ;;
  match anomaly_scores with
  | [one] => if negb (is_Sequence series) then ret (OneScore one)
             else ret (ManyScores anomaly_scores)
  | _ => ret (ManyScores anomaly_scores)
  end.

(** The closure [_check_ts_or_list_ts] of [score_from_prediction]; it reads
    [actual_series] of the enclosing call, whatever its own argument is. *)
Definition _check_ts_or_list_ts (actual_series : pyarg) (input : pyarg)
    : M unit :=
  let input := if negb (is_list actual_series) then [input]
               else py_iter input in
  for_each _assert_timeseries input ;; ret tt.

Definition score_from_prediction (actual_series pred_series : pyarg)
    : M scores :=
  sc <- get_self ;;
  (if fittable sc then check_if_fit_called else ret tt) ;;
  _check_ts_or_list_ts actual_series actual_series ;;
  _check_ts_or_list_ts actual_series pred_series ;;
  let list_actual_series := series2seq actual_series in
  let list_pred_series := series2seq pred_series in
  list_actual_series <-
    for_each (fun x => s <- as_series x ;;
                       _extract_deterministic s "actual_series")
             list_actual_series ;;
  list_pred_series <- _check_probabilistic_series list_pred_series ;;
  _assert_same_length list_actual_series list_pred_series ;;
  anomaly_scores <-
    for_each
      (fun p =>
         let '(s1, s2) := p in
         _sanity_check_two_series s1 s2 ;;
         p' <- lift (_intersect s1 s2) ;;
         let '(s1, s2) := p' in
         _check_window_size s1 ;;
         _check_window_size s2 ;;
         if single_series_support sc then
           single_series <- _diff_series s1 s2 ;;
           _score_core methods single_series
         else _score_core_from_prediction methods s1 s2)
      (combine list_actual_series list_pred_series) ;;
  match anomaly_scores with
  | [one] => if negb (is_Sequence pred_series) && negb (is_Sequence actual_series)
             then ret (OneScore one)
             else ret (ManyScores anomaly_scores)
  | _ => ret (ManyScores anomaly_scores)
  end.

Definition eval_metric (actual_anomalies series : pyarg) (metric : string)
    : M MetricValue :=
  _check_single_series_support ;;
  let actual_anomalies := series2seq actual_anomalies in
  _check_univariate_scorer actual_anomalies ;;
  anomaly_score <- score series ;;
  sc <- get_self ;;
  let window := if window_agg sc then 1 else window sc in
  lift (eval_metric_from_scores actual_anomalies anomaly_score window metric).

Definition eval_metric_from_prediction
    (actual_anomalies actual_series pred_series : pyarg) (metric : string)
    : M MetricValue :=
  let actual_anomalies := series2seq actual_anomalies in
  _check_univariate_scorer actual_anomalies ;;
  anomaly_score <- score_from_prediction actual_series pred_series ;;
  sc <- get_self ;;
  lift (eval_metric_from_scores actual_anomalies anomaly_score (window sc)
          metric).

(** The loop of [fit].  The deterministic series of line 697 is bound to
    the loop variable only; the elements of [list_series] stay what they
    were, and the loop hands them back for [_fit_core]. *)
Fixpoint fit_loop (idx : nat) (list_series : list pyarg)
    : M (list TimeSeries) :=
  match list_series with
  | [] => ret []
  | x :: tl =>
      s <- _assert_timeseries x ;;
      (if idx =? 0 then modify_self (set_width_trained_on (width s))
       else
         sc <- get_self ;;
         match width_trained_on sc with
         | None => raise AttributeError
         | Some w => raise_if_not (width s =? w) ShapeMismatchError
         end) ;;
      _check_window_size s ;;
      _ <- _extract_deterministic s "series" ;;
      rest <- fit_loop (S idx) tl ;;
      ret (s :: rest)
  end.

Definition fit (series : pyarg) : M unit :=
  _check_single_series_support ;;
  let list_series := series2seq series in
  list_series <- fit_loop 0 list_series ;;
  _fit_core methods list_series ;;
  modify_self (set_fit_called true).

Definition fit_from_prediction (actual_series pred_series : pyarg) : M unit :=
  let list_actual_series := series2seq actual_series in
  let list_pred_series := series2seq pred_series in
  list_actual_series <- _check_probabilistic_series list_actual_series ;;
  list_pred_series <- _check_probabilistic_series list_pred_series ;;
  _assert_same_length list_actual_series list_pred_series ;;
  list_fit_series <-
    for_each
      (fun p =>
         let '(s1, s2) := p in
         _sanity_check_two_series s1 s2 ;;
         s1 <- _extract_deterministic s1 "actual_series" ;;
         s2 <- _extract_deterministic s2 "pred_series" ;;
         _diff_series s1 s2)
      (combine list_actual_series list_pred_series) ;;
  fit (PyList (map PySeries list_fit_series)).

(** External collaborator [darts.ad.utils.show_anomalies_from_scores]: the
    series, the model output if any, the scores and the window it is given;
    names and title are left out. *)
Variable show_anomalies_from_scores :
  TimeSeries -> option TimeSeries -> scores -> nat -> result unit.

(** The unwrapping done by both plotting methods: a sequence must hold one
    element, which must be a series. *)
Definition expect_one_series (x : pyarg) : M TimeSeries :=
  x <- (if is_Sequence x then
          match series2seq x with
          | [one] => ret one
          | _ => raise InputTypeError
          end
        else ret x) ;;
  _assert_timeseries x.

Definition show_anomalies (series : pyarg) : M unit :=
  _check_single_series_support ;;
  series <- expect_one_series series ;;
  anomaly_score <- score (PySeries series) ;;
  sc <- get_self ;;
  let window := if window_agg sc then 1 else window sc in
  lift (show_anomalies_from_scores series None anomaly_score window).

Definition show_anomalies_from_prediction (actual_series pred_series : pyarg)
    : M unit :=
  actual_series <- expect_one_series actual_series ;;
  pred_series <- expect_one_series pred_series ;;
  anomaly_score <-
    score_from_prediction (PySeries actual_series) (PySeries pred_series) ;;
  sc <- get_self ;;
  lift (show_anomalies_from_scores actual_series (Some pred_series)
          anomaly_score (window sc)).

(** *** The scorer as a state machine: its public calls *)

Inductive call :=
| Fit (series : pyarg)
| FitFromPrediction (actual_series pred_series : pyarg)
| Score (series : pyarg)
| ScoreFromPrediction (actual_series pred_series : pyarg)
| EvalMetric (actual_anomalies series : pyarg) (metric : string)
| EvalMetricFromPrediction (actual_anomalies actual_series pred_series : pyarg)
                           (metric : string)
| ShowAnomalies (series : pyarg)
| ShowAnomaliesFromPrediction (actual_series pred_series : pyarg).

(** Whether the call returned ([true]) or raised, and the world it left. *)
Definition outcome {A} (r : result A * World Model) : bool * World Model :=
  (match fst r with inr _ => true | inl _ => false end, snd r).

Definition run_call (c : call) (w : World Model) : bool * World Model :=
  match c with
  | Fit s => outcome (fit s w)
  | FitFromPrediction a p => outcome (fit_from_prediction a p w)
  | Score s => outcome (score s w)
  | ScoreFromPrediction a p => outcome (score_from_prediction a p w)
  | EvalMetric aa s m => outcome (eval_metric aa s m w)
  | EvalMetricFromPrediction aa a p m =>
      outcome (eval_metric_from_prediction aa a p m w)
  | ShowAnomalies s => outcome (show_anomalies s w)
  | ShowAnomaliesFromPrediction a p =>
      outcome (show_anomalies_from_prediction a p w)
  end.

Definition is_fit_call (c : call) : bool :=
  match c with
  | Fit _ | FitFromPrediction _ _ => true
  | _ => false
  end.

(** The world after a sequence of calls. *)
Fixpoint run_calls (cs : list call) (w : World Model) : World Model :=
  match cs with
  | [] => w
  | c :: tl => run_calls tl (snd (run_call c w))
  end.

(** Whether some [fit] (or [fit_from_prediction]) of the sequence returned. *)
Fixpoint some_fit_succeeded (cs : list call) (w : World Model) : bool :=
  match cs with
  | [] => false
  | c :: tl =>
      (is_fit_call c && fst (run_call c w))
      || some_fit_succeeded tl (snd (run_call c w))
  end.

End AnomalyScorer.

Arguments _assert_timeseries {Model} x.
Arguments as_series {Model} x.
Arguments _check_window_size {Model} series.
Arguments _assert_stochastic {Model} series name_series.
Arguments _extract_deterministic {Model} series name_series.
Arguments _fun_window_agg {Model} list_scores window.
Arguments check_if_fit_called {Model}.
Arguments _check_single_series_support {Model}.
Arguments _check_probabilistic_series {Model} pred_series.
Arguments _sanity_check_two_series {Model} s1 s2.
Arguments _diff_series {Model} series_1 series_2.
Arguments _check_ts_or_list_ts {Model} actual_series input.
Arguments _check_univariate_scorer {Model} actual_anomalies.

(** ** numpy helpers of the windowed scorer *)

(** [sliding_window_view(arr, window_shape=W, axis=0)] of an array of shape
    (T, C, S): shape (T - W + 1, C, S, W), entry [t, c, s, w] being
    [arr[t + w, c, s]]; numpy refuses a window larger than the array. *)
Definition sliding_window_view (arr : list (list (list Q))) (C S W : nat)
    : result (list (list (list (list Q)))) :=
  if length arr <? W then inl ArrayError
  else inr (map (fun t =>
             map (fun c =>
               map (fun s =>
                 map (fun w => value_at arr (t + w) c s) (seq 0 W))
                 (seq 0 S))
               (seq 0 C))
             (seq 0 (length arr + 1 - W))).

Definition flatten4 (v : list (list (list (list Q)))) : list Q :=
  concat (map (fun a => concat (map (@concat Q) a)) v).

(** [reshape(-1, n)] of the row-major flattening [flat]. *)
Definition reshape_rows (n : nat) (flat : list Q) : result (list (list Q)) :=
  if (n =? 0) || negb (length flat mod n =? 0) then inl ArrayError
  else inr (map (fun i => slice flat (i * n) (i * n + n))
                (seq 0 (length flat / n))).

(** [reshape(C, -1, W)] of the row-major flattening [flat]. *)
Definition reshape_blocks (C W : nat) (flat : list Q)
    : result (list (list (list Q))) :=
  if (C * W =? 0) || negb (length flat mod (C * W) =? 0) then inl ArrayError
  else
    let k := length flat / (C * W) in
    inr (map (fun c =>
           map (fun r => slice flat ((c * k + r) * W) ((c * k + r) * W + W))
               (seq 0 k))
           (seq 0 C)).

(** [np.stack(v, axis=1)] of an array [v] of shape (T', C, S, W), iterated
    along its first axis: shape (C, T', S, W). *)
Definition stack_axis1 (C : nat) (v : list (list (list (list Q))))
    : list (list (list (list Q))) :=
  map (fun c => map (fun vt => nth c vt []) v) (seq 0 C).

(** [np.concatenate(tables, axis=0)] of two-dimensional arrays whose numbers
    of columns are [cols]. *)
Definition concatenate_axis0 (cols : list nat) (tables : list (list (list Q)))
    : result (list (list Q)) :=
  match cols with
  | [] => inl ArrayError
  | c0 :: _ => if forallb (Nat.eqb c0) cols then inr (concat tables)
               else inl ArrayError
  end.

(** [np.concatenate(tables, axis=1)] of three-dimensional arrays of shape
    (C_i, rows_i, W). *)
Definition concatenate_axis1 (Cs : list nat) (tables : list (list (list (list Q))))
    : result (list (list (list Q))) :=
  match Cs with
  | [] => inl ArrayError
  | c0 :: _ => if forallb (Nat.eqb c0) Cs
               then inr (map (fun c => flat_map (fun tab => nth c tab []) tables)
                             (seq 0 c0))
               else inl ArrayError
  end.

(** [zip] of the unpacked [rows]: tuple [t] collects entry [t] of every row,
    up to the shortest row. *)
Definition zip_star (rows : list (list Q)) : list (list Q) :=
  match rows with
  | [] => []
  | r0 :: _ =>
      let n := fold_right Nat.min (length r0) (map (@length Q) rows) in
      map (fun t => map (fun r => nth t r 0%Q) rows) (seq 0 n)
  end.

(** [np.array(rows)] of a list of one-dimensional arrays: a two-dimensional
    array when all have one length. *)
Definition np_array_2d (rows : list (list Q)) : result (list (list Q)) :=
  match rows with
  | [] => inr []
  | r0 :: _ => if forallb (fun r => length r =? length r0) rows then inr rows
               else inl ArrayError
  end.

Fixpoint result_all {A} (l : list (result A)) : result (list A) :=
  match l with
  | [] => inr []
  | r :: tl => result_bind r (fun a => result_map (cons a) (result_all tl))
  end.

(** Modelled from the spec: [darts.utils.utils._parallel_apply], the parallel
    map that returns its results in the order of its inputs. *)
Definition _parallel_apply {A B} (items : list A) (fn : A -> result B)
    : result (list B) :=
  result_all (map fn items).

(** ** [WindowedAnomalyScorer] *)

Section WindowedAnomalyScorer.

Variable Model : Type.

(** The pluggable window model.  [model.fit(rows)] trains the model object
    in place and returns it: [model_fit m rows] is the state of the object
    after the call, when [m] was its state before.  The abstract
    [_model_score_method(model, data)] gives its scores and leaves the
    object alone. *)
Variable model_fit : Model -> list (list Q) -> result Model.
Variable _model_score_method : Model -> list (list Q) -> result (list Q).

#[local] Abbreviation M := (M Model).

(** [_tabularize_series(list_series, concatenate=False, component_wise=False)]:
    per series, the windows reshaped to rows of [window * width] values. *)
Definition _tabularize_series_joint (window : nat) (list_series : list TimeSeries)
    : result (list (list (list Q))) :=
  result_all
    (map (fun series =>
            let arr := all_values series in
            result_bind
              (sliding_window_view arr (width series) (n_samples series) window)
              (fun v => reshape_rows (window * width series) (flatten4 v)))
         list_series).

(** [_tabularize_series(list_series, concatenate=False, component_wise=True)]:
    per series, an array of shape (width, rows, window). *)
Definition _tabularize_series_component_wise (window : nat)
    (list_series : list TimeSeries) : result (list (list (list (list Q)))) :=
  result_all
    (map (fun series =>
            let arr := all_values series in
            result_bind
              (sliding_window_view arr (width series) (n_samples series) window)
              (fun v => reshape_blocks (width series) window
                          (flatten4 (stack_axis1 (width series) v))))
         list_series).

(** The loop of [_convert_tabular_to_series]; [indice] is the column reached
    so far.  Each series has at least [window] points when this runs. *)
Fixpoint _convert_tabular_to_series_from (window indice : nat)
    (list_series : list TimeSeries) (list_np_anomaly_score : list (list Q))
    : result (list TimeSeries) :=
  match list_series with
  | [] => inr []
  | series :: tl =>
      let stop := indice + len series + 1 - window in
      result_bind
        (from_times_and_values_2d
           (skipn (window - 1) (time_index series))
           (length list_np_anomaly_score)
           (zip_star (map (fun row => slice row indice stop)
                          list_np_anomaly_score)))
        (fun ts =>
           result_map (cons ts)
             (_convert_tabular_to_series_from window stop tl
                list_np_anomaly_score))
  end.

Definition _convert_tabular_to_series (window : nat)
    (list_series : list TimeSeries) (list_np_anomaly_score : list (list Q))
    : result (list TimeSeries) :=
  _convert_tabular_to_series_from window 0 list_series list_np_anomaly_score.

(** The calls [fit(data, None)] that [_parallel_apply] makes with the bound
    method [copy.deepcopy(self.model).fit]: one copy of the model is made,
    and the method bound to it is applied to the items in their order, as
    with one job (the default [n_jobs]), so that each call trains that one
    object from the state the call before left.  A call that raises ends
    the run. *)
Fixpoint fit_in_place (copy : Model) (items : list (list (list Q)))
    : result Model :=
  match items with
  | [] => inr copy
  | data :: tl =>
      result_bind (model_fit copy data) (fun copy => fit_in_place copy tl)
  end.

(** What [_parallel_apply] returns for that bound method: each call returns
    the object it trained, which is the one copy every time; the list holds
    it once per item, and each entry shows the state the last call left. *)
Definition _parallel_apply_bound_fit (model : Model)
    (items : list (list (list Q))) : result (list Model) :=
  result_map (fun copy => map (fun _ => copy) items) (fit_in_place model items).

(** [WindowedAnomalyScorer._fit_core].  The joint branch trains [self.model]
    in place; the component-wise branch hands [_parallel_apply] the [fit]
    method of one deep copy of [self.model] and stores the list it
    returns. *)
Definition windowed_fit_core (list_series : list TimeSeries) : M unit :=
  sc <- get_self ;;
  match list_series with
  | [] => raise IndexError
  | first :: _ =>
      if negb (component_wise sc) || (width first =? 1) then
        match model sc with
        | Some (SingleModel m) =>
            tabular_data <-
              lift (_tabularize_series_joint (window sc) list_series) ;;
            tabular_data <-
              lift (concatenate_axis0
                      (map (fun s => window sc * width s) list_series)
                      tabular_data) ;;
            m' <- lift (model_fit m tabular_data) ;;
            modify_self (set_model (SingleModel m'))
        | _ => raise AttributeError
        end
      else
        tabular_data <-
          lift (_tabularize_series_component_wise (window sc) list_series) ;;
        tabular_data <-
          lift (concatenate_axis1 (map width list_series) tabular_data) ;;
        match model sc with
        | Some (SingleModel m) =>
            ms <- lift (_parallel_apply_bound_fit m tabular_data) ;;
            modify_self (set_model (SubModels ms))
        | _ => raise AttributeError
        end
  end.

(** [WindowedAnomalyScorer._score_core]. *)
Definition windowed_score_core (series : TimeSeries) : M TimeSeries :=
  sc <- get_self ;;
  let list_series := [series] in
  match width_trained_on sc with
  | None => raise AttributeError
  | Some w =>
      raise_if_not (forallb (fun s => w =? width s) list_series)
                   ShapeMismatchError
  end ;;
  list_anomaly_score <-
    (if negb (component_wise sc) || (width series =? 1) then
       tabular <- lift (_tabularize_series_joint (window sc) list_series) ;;
       list_np_anomaly_score <-
         for_each (fun tabular_data =>
                     match model sc with
                     | Some (SingleModel m) =>
                         lift (_model_score_method m tabular_data)
                     | _ => raise AttributeError
                     end)
                  tabular ;;
       for_each (fun p =>
                   lift (from_times_and_values_1d
                           (skipn (window sc - 1) (time_index (fst p)))
                           (snd p)))
                (combine list_series list_np_anomaly_score)
     else
       tabular <-
         lift (_tabularize_series_component_wise (window sc) list_series) ;;
       tabular <- lift (concatenate_axis1 (map width list_series) tabular) ;;
       match model sc with
       | Some (SubModels ms) =>
           list_np_anomaly_score <-
             lift (_parallel_apply (combine ms tabular)
                     (fun p => _model_score_method (fst p) (snd p))) ;;
           list_np_anomaly_score <- lift (np_array_2d list_np_anomaly_score) ;;
           lift (_convert_tabular_to_series (window sc) list_series
                   list_np_anomaly_score)
       | Some (SingleModel _) => raise TypeError
       | None => raise AttributeError
       end) ;;
  if (1 <? window sc) && window_agg sc then
    agg <- _fun_window_agg list_anomaly_score (window sc) ;;
    match agg with
    | first :: _ => ret first
    | [] => raise IndexError
    end
  else
    match list_anomaly_score with
    | first :: _ => ret first
    | [] => raise IndexError
    end.

(** [WindowedAnomalyScorer._score_core_from_prediction]. *)
Definition windowed_score_core_from_prediction
    (actual_series pred_series : TimeSeries) : M TimeSeries :=
  diff_series <- _diff_series actual_series pred_series ;;
  windowed_score_core diff_series.

Definition windowed_methods : Methods Model :=
  mkMethods windowed_fit_core windowed_score_core
            windowed_score_core_from_prediction.

End WindowedAnomalyScorer.

(** ** [NLLScorer] *)

Section NLLScorer.

Variable Model : Type.

(** The abstract [_score_core_nllikelihood(input_1, input_2)]: the observed
    values of one component, shape (time,), and the samples predicted for
    it, shape (time, samples). *)
Variable _score_core_nllikelihood :
  list Q -> list (list Q) -> result (list Q).

#[local] Abbreviation M := (M Model).

Definition NLLScorer_init (window : Z) (diff_fn : string) (n_jobs : Z)
    (window_agg : bool) : result (Scorer Model) :=
  AnomalyScorer_init Model false false false true (Some window_agg) window
                     diff_fn n_jobs.

(** [arr[:, component_idx]] for an array of shape (T, C, S): shape (T, S). *)
Definition column (C : nat) (arr : list (list (list Q))) (component_idx : nat)
    : result (list (list Q)) :=
  if component_idx <? C then inr (map (fun row => nth component_idx row []) arr)
  else inl IndexError.

(** [.squeeze(-1)] of an array of shape (T, 1). *)
Definition squeeze_last (S : nat) (a : list (list Q)) : result (list Q) :=
  if S =? 1 then inr (map (fun cell => nth 0 cell 0%Q) a) else inl ArrayError.

(** The inner function [_window_adjustment_series]. *)
Definition _window_adjustment_series (window : nat) (series : TimeSeries)
    : TimeSeries :=
  if window =? 1 then series
  else window_transform_rolling_mean_dropna window series.

(** The body of [NLLScorer._score_core_from_prediction] up to the series
    [anomaly_scores] of per-timestamp negative log-likelihoods. *)
Definition nll_anomaly_scores (actual_series pred_series : TimeSeries)
    : M TimeSeries :=
  actual_series <- _extract_deterministic actual_series "actual_series" ;;
  _assert_stochastic pred_series "pred_series" ;;
  let np_actual_series := all_values actual_series in
  let np_pred_series := all_values pred_series in
  np_anomaly_scores <-
    for_each
      (fun component_idx =>
         a <- lift (column (width actual_series) np_actual_series component_idx) ;;
         a <- lift (squeeze_last (n_samples actual_series) a) ;;
         p <- lift (column (width pred_series) np_pred_series component_idx) ;;
         lift (_score_core_nllikelihood a p))
      (seq 0 (width pred_series)) ;;
  lift (from_times_and_values_2d (time_index pred_series)
          (length np_anomaly_scores) (zip_star np_anomaly_scores)).

Definition nll_score_core_from_prediction (actual_series pred_series : TimeSeries)
    : M TimeSeries :=
  anomaly_scores <- nll_anomaly_scores actual_series pred_series ;;
  sc <- get_self ;;
  ret (_window_adjustment_series (window sc) anomaly_scores).

Definition nll_methods : Methods Model :=
  mkMethods (fun _ => raise NotImplementedError)
            (fun _ => raise NotImplementedError)
            nll_score_core_from_prediction.

End NLLScorer.

Arguments windowed_methods {Model} model_fit _model_score_method.
Arguments windowed_score_core {Model} _model_score_method series.
Arguments windowed_fit_core {Model} model_fit list_series.
Arguments fit_in_place {Model} model_fit copy items.
Arguments _parallel_apply_bound_fit {Model} model_fit model items.
Arguments nll_methods {Model} _score_core_nllikelihood.
Arguments nll_score_core_from_prediction {Model} _score_core_nllikelihood
  actual_series pred_series.
Arguments nll_anomaly_scores {Model} _score_core_nllikelihood
  actual_series pred_series.

(** ** Concrete objects used in the examples *)

Module Examples.

(** A window model that remembers the rows it was trained on and scores a
    row by the sum of its values. *)
Definition Model := list (list Q).
Definition model_fit (m : Model) (rows : list (list Q)) : result Model :=
  inr rows.
Definition model_score (m : Model) (rows : list (list Q)) : result (list Q) :=
  inr (map Qsum rows).

Definition methods : Methods Model := windowed_methods model_fit model_score.

(** A deterministic univariate series on timestamps [start, start+1, ...]. *)
Definition univariate (start : Z) (vals : list Q) : TimeSeries :=
  mkTimeSeries (map (fun i => (start + Z.of_nat i)%Z) (seq 0 (length vals)))
               1 1 (map (fun v => [[v]]) vals).

(** A windowed scorer as its constructor leaves it. *)
Definition new_scorer (window : nat) (window_agg component_wise : bool)
    : Scorer Model :=
  mkScorer window true true (Some false) false "abs_diff" window_agg true 1%Z
           None component_wise (Some (SingleModel [])).

Definition world0 (sc : Scorer Model) : World Model := mkWorld sc [].

Definition series5 : TimeSeries := univariate 0 [1; 2; 3; 4; 5]%Q.
Definition train10 : TimeSeries :=
  univariate 0 [1; 1; 1; 1; 1; 1; 1; 1; 1; 1]%Q.

(** A stochastic univariate series: three samples per timestamp. *)
Definition stochastic3 : TimeSeries :=
  mkTimeSeries [0; 1; 2]%Z 1 3
               [[[1; 5; 3]]; [[2; 2; 8]]; [[0; 4; 9]]]%Q.

(** A scorer subclass whose [_fit_core] only records the series it is
    given, and whose [_score_core] returns its input. *)
Definition recording_methods : Methods (list TimeSeries) :=
  mkMethods (fun l => modify_self (set_model (SingleModel l)))
            (fun s => ret s)
            (fun a p => _diff_series a p).

Definition recording_scorer (window : nat) : Scorer (list TimeSeries) :=
  mkScorer window false true (Some false) false "abs_diff" false true 1%Z
           None false None.

(** A metric function that answers the window it is given. *)
Definition window_received (actual_anomalies : list pyarg) (s : scores)
    (window : nat) (metric : string) : result nat :=
  inr window.

Definition no_plot (s : TimeSeries) (p : option TimeSeries) (sc : scores)
    (window : nat) : result unit :=
  inr tt.

(** The windowed scorer with window 3 and window aggregation, fitted on two
    series of length 10. *)
Definition fitted3 : World Model :=
  snd (fit methods (PyList [PySeries train10; PySeries train10])
         (world0 (new_scorer 3 true false))).

Definition short2 : TimeSeries := univariate 0 [1; 2]%Q.

(** A likelihood stand-in: the squared distance of the observed value to
    the mean of the samples. *)
Definition nll (actual : list Q) (pred : list (list Q)) : result (list Q) :=
  inr (zip_with (fun x samples => ((x - Qmean samples) * (x - Qmean samples))%Q)
                actual pred).

Definition nll_scorer (window : nat) (window_agg : bool) : Scorer unit :=
  mkScorer window false false None true "abs_diff" window_agg false 1%Z
           None false None.

(** A stochastic univariate prediction over the timestamps of [series5]. *)
Definition pred5 : TimeSeries :=
  mkTimeSeries [0; 1; 2; 3; 4]%Z 1 2
               [[[0; 2]]; [[2; 4]]; [[3; 3]]; [[1; 3]]; [[5; 9]]]%Q.

(** The per-timestamp scores of [series5] against [pred5]. *)
Definition nll_raw5 : TimeSeries :=
  Eval vm_compute in
    match fst (nll_anomaly_scores nll series5 pred5
                 (mkWorld (nll_scorer 3 false) [])) with
    | inr r => r
    | inl _ => series5
    end.

(** The same windowed scorer with [diff_fn="diff"]. *)
Definition diff_scorer : Scorer Model :=
  mkScorer 1 true true (Some false) false "diff" false true 1%Z
           None false (Some (SingleModel [])).

(** A series on the timestamps 2..5, overlapping [series5] on 2..4. *)
Definition later4 : TimeSeries := univariate 2 [10; 20; 30; 40]%Q.

(** A deterministic series with two components. *)
Definition bivariate4 : TimeSeries :=
  mkTimeSeries [0; 1; 2; 3]%Z 2 1
               [[[1]; [10]]; [[2]; [20]]; [[3]; [30]]; [[4]; [40]]]%Q.

(** A component-wise windowed scorer with window 2 and window aggregation,
    fitted on [bivariate4]. *)
Definition fitted_component_wise : World Model :=
  snd (fit methods (PySeries bivariate4) (world0 (new_scorer 2 true true))).

End Examples.

(** ** Vocabulary of the properties *)

(** A computation is stable for a relation on scorer objects when the object
    it leaves is related to the one it found, whether it returns or raises. *)
Definition stable {Model A} (R : Scorer Model -> Scorer Model -> Prop)
    (c : M Model A) : Prop :=
  forall w, R (self w) (self (snd (c w))).

Definition methods_stable {Model} (R : Scorer Model -> Scorer Model -> Prop)
    (methods : Methods Model) : Prop :=
  (forall l, stable R (_fit_core methods l)) /\
  (forall s, stable R (_score_core methods s)) /\
  (forall a p, stable R (_score_core_from_prediction methods a p)).

(** The window configuration is the same in both objects. *)
Definition same_window_config {Model} (sc sc' : Scorer Model) : Prop :=
  window sc' = window sc /\ window_agg sc' = window_agg sc.

(** The fit-called flag is the same in both objects. *)
Definition same_fit_flag {Model} (sc sc' : Scorer Model) : Prop :=
  _fit_called sc' = _fit_called sc.

(** The validation phase of [fit]: the decorator and the loop over the
    input, before [_fit_core] is reached. *)
Definition fit_validation {Model} (series : pyarg) : M Model (list TimeSeries) :=
  bind _check_single_series_support
       (fun _ => fit_loop 0 (series2seq series)).

(** The part of [eval_metric] that comes before the metric function. *)
Definition eval_metric_scores {Model} (methods : Methods Model)
    (actual_anomalies series : pyarg) : M Model scores :=
  bind _check_single_series_support (fun _ =>
  bind (_check_univariate_scorer (series2seq actual_anomalies)) (fun _ =>
  score methods series)).

(** The part of [eval_metric_from_prediction] that comes before the metric
    function. *)
Definition eval_metric_from_prediction_scores {Model} (methods : Methods Model)
    (actual_anomalies actual_series pred_series : pyarg) : M Model scores :=
  bind (_check_univariate_scorer (series2seq actual_anomalies)) (fun _ =>
  score_from_prediction methods actual_series pred_series).

(** A computation never raises the error [e]. *)
Definition avoids {Model A} (e : error) (c : M Model A) : Prop :=
  forall w, fst (c w) <> inl e.

(** An operation that sets the fit-called flag when it returns and leaves
    it alone when it raises. *)
Definition sets_flag_on_return {Model} (op : M Model unit) : Prop :=
  forall w,
    _fit_called (self (snd (op w))) =
      match fst (op w) with
      | inr _ => Some true
      | inl _ => _fit_called (self w)
      end.

(** The mean of the values of one cell over the timestamps [i, i + W), cut
    at the end of the series. *)
Definition forward_window_mean (vals : list (list (list Q))) (W i c k : nat)
    : Q :=
  Qmean (map (fun j => value_at vals j c k)
             (seq i (Nat.min (i + W) (length vals) - i))).

(** [r] is the point-wise series of the window-wise [score]: same time
    index, same shape, each value the forward mean over the window. *)
Definition is_window_agg_of (W : nat) (score r : TimeSeries) : Prop :=
  time_index r = time_index score /\
  len r = len score /\
  width r = width score /\
  n_samples r = n_samples score /\
  forall i c k,
    i < len score -> c < width score -> k < n_samples score ->
    value_at (all_values r) i c k
    = forward_window_mean (all_values score) W i c k.

(** [r] is the trailing rolling mean of length [W] of [raw], full windows
    only: the first [W - 1] timestamps are gone, and the value at the
    timestamp of position [i + W - 1] of [raw] is the mean of the [W] values
    of [raw] at positions [i .. i + W - 1]. *)
Definition is_trailing_mean_of (W : nat) (raw r : TimeSeries) : Prop :=
  time_index r = skipn (W - 1) (time_index raw) /\
  len r = len raw + 1 - W /\
  width r = width raw /\
  n_samples r = n_samples raw /\
  forall i c k,
    i < len r -> c < width raw -> k < n_samples raw ->
    value_at (all_values r) i c k
    = Qmean (map (fun j => value_at (all_values raw) j c k) (seq i W)).

(** A computation that neither reads nor writes the scorer object. *)
Definition ignores_self {Model A} (c : M Model A) : Prop :=
  forall sc sc' lg,
    fst (c (mkWorld sc lg)) = fst (c (mkWorld sc' lg)) /\
    log (snd (c (mkWorld sc lg))) = log (snd (c (mkWorld sc' lg))) /\
    self (snd (c (mkWorld sc lg))) = sc.

(** What [_diff_series] returns, as a function of [diff_fn]. *)
Definition diff_series_value (diff_fn : string) (series_1 series_2 : TimeSeries)
    : result TimeSeries :=
  result_bind (_intersect series_1 series_2) (fun p =>
    if String.eqb diff_fn "abs_diff" then
      result_map (ts_map Qabs) (ts_sub (fst p) (snd p))
    else if String.eqb diff_fn "diff" then ts_sub (fst p) (snd p)
    else inl ConfigurationError).

(** The [model] attribute is what a [fit] on series of [C] components
    leaves: one model, or one sub-model per component when the scorer is
    component-wise and the series multivariate. *)
Definition model_ready {Model} (sc : Scorer Model) (C : nat) : Prop :=
  if negb (component_wise sc) || (C =? 1)
  then exists m, model sc = Some (SingleModel m)
  else exists ms, model sc = Some (SubModels ms) /\ length ms = C.

(** The deterministic representative [_extract_deterministic] returns. *)
Definition deterministic_of (s : TimeSeries) : TimeSeries :=
  if is_deterministic s then s else quantile_timeseries_05 s.

(** The warnings [_extract_deterministic] logs over a list of series. *)
Definition extract_warnings (name_series : string) (l : list TimeSeries)
    : list log_entry :=
  flat_map (fun s => if is_deterministic s then []
                     else [WarnNotDeterministic name_series (n_samples s)]) l.

(** The world after some more log entries. *)
Definition logged {Model} (w : World Model) (entries : list log_entry)
    : World Model :=
  mkWorld (self w) (log w ++ entries).

(** The [W] values of component [c] from timestamp [t] on, first sample. *)
Definition window_of (vals : list (list (list Q))) (W t c : nat) : list Q :=
  map (fun w => value_at vals (t + w) c 0) (seq 0 W).

(** The tabular row of window [t] on the joint path: the windows of the
    components, one after the other. *)
Definition window_row (vals : list (list (list Q))) (C W t : nat) : list Q :=
  flat_map (window_of vals W t) (seq 0 C).

(** Component [c] of a deterministic series as a one-dimensional array,
    [values[:, c].squeeze(-1)], and of a stochastic one with its samples,
    [values[:, c]]. *)
Definition observed_component (s : TimeSeries) (c : nat) : list Q :=
  map (fun row => nth 0 (nth c row []) 0%Q) (all_values s).

Definition sampled_component (s : TimeSeries) (c : nat) : list (list Q) :=
  map (fun row => nth c row []) (all_values s).

(** The training rows of component [c] on the component-wise path: the
    windows of that component, series after series. *)
Definition component_rows (W : nat) (l : list TimeSeries) (c : nat)
    : list (list Q) :=
  flat_map (fun s => map (fun t => window_of (all_values s) W t c)
                         (seq 0 (len s + 1 - W))) l.

(** ** More concrete objects *)

Module MoreExamples.

Import Examples.

(** The score of [series5] by the fitted scorer [fitted3]. *)
Definition score5 : TimeSeries :=
  Eval vm_compute in
    match fst (score methods (PySeries series5) fitted3) with
    | inr (OneScore r) => r
    | _ => series5
    end.

(** Windowed scorers without window aggregation, fitted: jointly with
    window 3 on [train10], and component-wise with window 2 on
    [bivariate4]. *)
Definition fitted3_plain : World Model :=
  snd (fit methods (PySeries train10) (world0 (new_scorer 3 false false))).

Definition fitted_component_wise_plain : World Model :=
  snd (fit methods (PySeries bivariate4) (world0 (new_scorer 2 false true))).

End MoreExamples.

(** * Properties *)

(** ** The monad *)

Section MonadFacts.

Variable Model : Type.

Lemma bind_assoc {A B C} (c : M Model A) (f : A -> M Model B)
    (g : B -> M Model C) (w : World Model) :
  bind (bind c f) g w = bind c (fun a => bind (f a) g) w.
Proof.
  unfold bind. destruct (c w) as [[e|a] w']; reflexivity.
Qed.

Lemma bind_inr {A B} (c : M Model A) (k : A -> M Model B) w a w' :
  c w = (inr a, w') -> bind c k w = k a w'.
Proof. intros H. unfold bind. rewrite H. reflexivity. Qed.

Lemma bind_inl {A B} (c : M Model A) (k : A -> M Model B) w e w' :
  c w = (inl e, w') -> bind c k w = (inl e, w').
Proof. intros H. unfold bind. rewrite H. reflexivity. Qed.

Variable R : Scorer Model -> Scorer Model -> Prop.
Hypothesis R_refl : forall sc, R sc sc.
Hypothesis R_trans : forall a b c, R a b -> R b c -> R a c.

Lemma stable_ret {A} (a : A) : stable R (ret a).
Proof. intros w. apply R_refl. Qed.

Lemma stable_raise {A} e : stable R (@raise Model A e).
Proof. intros w. apply R_refl. Qed.

Lemma stable_lift {A} (r : result A) : stable R (@lift Model A r).
Proof. intros w. apply R_refl. Qed.

Lemma stable_get_self : stable R (@get_self Model).
Proof. intros w. apply R_refl. Qed.

Lemma stable_warning e : stable R (@warning Model e).
Proof. intros w. apply R_refl. Qed.

Lemma stable_raise_if_not b e : stable R (@raise_if_not Model b e).
Proof. destruct b; intros w; apply R_refl. Qed.

Lemma stable_modify_self f :
  (forall sc, R sc (f sc)) -> stable R (@modify_self Model f).
Proof. intros H w. apply H. Qed.

Lemma stable_bind {A B} (c : M Model A) (k : A -> M Model B) :
  stable R c -> (forall a, stable R (k a)) -> stable R (bind c k).
Proof.
  intros Hc Hk w. unfold bind.
  specialize (Hc w). destruct (c w) as [[e|a] w']; cbn in *.
  - exact Hc.
  - eapply R_trans; [exact Hc | apply Hk].
Qed.

Lemma stable_for_each {A B} (f : A -> M Model B) l :
  (forall a, stable R (f a)) -> stable R (for_each f l).
Proof.
  intros Hf. induction l as [|a tl IH]; cbn [for_each].
  - apply stable_ret.
  - apply stable_bind; [apply Hf|]. intros b.
    apply stable_bind; [exact IH|]. intros bs. apply stable_ret.
Qed.

End MonadFacts.

Arguments bind_inr [Model A B c] k [w a w'] _.
Arguments bind_inl [Model A B c] k [w e w'] _.

(** Goals [stable R c] for a [c] built from the combinators, by following its
    structure. *)
Ltac stable_step :=
  match goal with
  | |- forall _, _ => intros ?
  | |- stable _ (bind _ _) => apply stable_bind; try assumption
  | |- stable _ (for_each _ _) => apply stable_for_each; try assumption
  | |- stable _ (ret _) => apply stable_ret; assumption
  | |- stable _ (raise _) => apply stable_raise; assumption
  | |- stable _ (lift _) => apply stable_lift; assumption
  | |- stable _ get_self => apply stable_get_self; assumption
  | |- stable _ (warning _) => apply stable_warning; assumption
  | |- stable _ (raise_if_not _ _) => apply stable_raise_if_not; assumption
  | |- stable _ (if ?b then _ else _) => destruct b
  | |- stable _ (match ?x with _ => _ end) => destruct x
  | |- stable _ (let '(_, _) := ?p in _) => destruct p
  end.

Ltac stable_tac := repeat stable_step.

Section BaseStable.

Variable Model : Type.
Variable R : Scorer Model -> Scorer Model -> Prop.
Hypothesis R_refl : forall sc, R sc sc.
Hypothesis R_trans : forall a b c, R a b -> R b c -> R a c.

Lemma stable_assert_timeseries x : stable R (@_assert_timeseries Model x).
Proof. unfold _assert_timeseries. stable_tac. Qed.

Lemma stable_as_series x : stable R (@as_series Model x).
Proof. unfold as_series. stable_tac. Qed.

Lemma stable_check_window_size s : stable R (@_check_window_size Model s).
Proof. unfold _check_window_size. stable_tac. Qed.

Lemma stable_assert_stochastic s n : stable R (@_assert_stochastic Model s n).
Proof. unfold _assert_stochastic. stable_tac. Qed.

Lemma stable_extract_deterministic s n :
  stable R (@_extract_deterministic Model s n).
Proof. unfold _extract_deterministic. stable_tac. Qed.

Lemma stable_fun_window_agg l n : stable R (@_fun_window_agg Model l n).
Proof. unfold _fun_window_agg. stable_tac. Qed.

Lemma stable_check_if_fit_called : stable R (@check_if_fit_called Model).
Proof. unfold check_if_fit_called. stable_tac. Qed.

Lemma stable_check_single_series_support :
  stable R (@_check_single_series_support Model).
Proof. unfold _check_single_series_support. stable_tac. Qed.

Lemma stable_check_univariate_scorer l :
  stable R (@_check_univariate_scorer Model l).
Proof.
  unfold _check_univariate_scorer. stable_tac. apply stable_as_series.
Qed.

Lemma stable_check_probabilistic_series l :
  stable R (@_check_probabilistic_series Model l).
Proof.
  unfold _check_probabilistic_series. stable_tac;
    auto using stable_as_series, stable_assert_stochastic,
      stable_extract_deterministic.
Qed.

Lemma stable_sanity_check_two_series a b :
  stable R (@_sanity_check_two_series Model a b).
Proof. unfold _sanity_check_two_series. stable_tac. Qed.

Lemma stable_diff_series a b : stable R (@_diff_series Model a b).
Proof. unfold _diff_series. stable_tac. Qed.

Lemma stable_check_ts_or_list_ts a x :
  stable R (@_check_ts_or_list_ts Model a x).
Proof.
  unfold _check_ts_or_list_ts. stable_tac; apply stable_assert_timeseries.
Qed.

Lemma stable_assert_same_length {A B} (l1 : list A) (l2 : list B) :
  stable R (@_assert_same_length Model A B l1 l2).
Proof. unfold _assert_same_length. stable_tac. Qed.

Variable methods : Methods Model.
Hypothesis methods_R : methods_stable R methods.

Lemma stable_score x : stable R (score methods x).
Proof.
  destruct methods_R as (_ & Hs & _).
  unfold score. stable_tac;
    auto using stable_check_single_series_support, stable_check_if_fit_called,
      stable_assert_timeseries, stable_check_window_size,
      stable_extract_deterministic.
Qed.

Lemma stable_score_from_prediction a p :
  stable R (score_from_prediction methods a p).
Proof.
  destruct methods_R as (_ & Hs & Hp).
  unfold score_from_prediction. stable_tac;
    auto using stable_check_if_fit_called, stable_check_ts_or_list_ts,
      stable_as_series, stable_extract_deterministic,
      stable_check_probabilistic_series, stable_assert_same_length,
      stable_sanity_check_two_series, stable_check_window_size,
      stable_diff_series.
Qed.

End BaseStable.

(** ** Determinism extraction *)

Lemma world_eta (Model : Type) (w : World Model) :
  mkWorld (self w) (log w) = w.
Proof. destruct w; reflexivity. Qed.

Lemma quantile_is_deterministic (s : TimeSeries) :
  is_deterministic (quantile_timeseries_05 s) = true /\
  time_index (quantile_timeseries_05 s) = time_index s /\
  width (quantile_timeseries_05 s) = width s /\
  len (quantile_timeseries_05 s) = len s.
Proof.
  unfold quantile_timeseries_05, is_deterministic, len; cbn.
  rewrite length_map. auto.
Qed.

Example median_of_three : median [1; 5; 3]%Q = 3%Q.
Proof. reflexivity. Qed.

Example median_of_four : median [4; 1; 3; 2]%Q = (5 # 2)%Q.
Proof. reflexivity. Qed.

(** C9: for a deterministic series ([n_samples = 1]) [_extract_deterministic]
    returns the series itself and logs nothing; for a stochastic one
    ([n_samples > 1]) it returns the 0.5-quantile series and logs one
    warning.  The scorer object is untouched in both cases. *)
Theorem extract_deterministic_spec (Model : Type) (series : TimeSeries)
    (name_series : string) (w : World Model) :
  (n_samples series = 1 ->
   _extract_deterministic series name_series w = (inr series, w)) /\
  (1 < n_samples series ->
   _extract_deterministic series name_series w =
     (inr (quantile_timeseries_05 series),
      mkWorld (self w)
        (log w ++ [WarnNotDeterministic name_series (n_samples series)]))).
Proof.
  unfold _extract_deterministic, is_deterministic. split; intros H.
  - rewrite H. reflexivity.
  - destruct (Nat.eqb_spec (n_samples series) 1) as [E|E]; [lia|].
    reflexivity.
Qed.

Lemma extract_deterministic_spec_witness :
  _extract_deterministic Examples.series5 "series"
      (Examples.world0 (Examples.new_scorer 3 true false))
    = (inr Examples.series5, Examples.world0 (Examples.new_scorer 3 true false))
  /\
  _extract_deterministic Examples.stochastic3 "series"
      (Examples.world0 (Examples.new_scorer 3 true false))
    = (inr (quantile_timeseries_05 Examples.stochastic3),
       mkWorld (Examples.new_scorer 3 true false)
               [WarnNotDeterministic "series" 3]).
Proof.
  split.
  - apply (proj1 (extract_deterministic_spec Examples.series5 "series"
                    (Examples.world0 (Examples.new_scorer 3 true false)))).
    reflexivity.
  - apply (proj2 (extract_deterministic_spec Examples.stochastic3 "series"
                    (Examples.world0 (Examples.new_scorer 3 true false)))).
    cbn. lia.
Defined.

(** ** Input validation of [score_from_prediction] *)

Lemma for_each_assert_timeseries_all (Model : Type) (ss : list TimeSeries)
    (w : World Model) :
  for_each _assert_timeseries (map PySeries ss) w = (inr ss, w).
Proof.
  induction ss as [|s tl IH]; cbn [map for_each]; [reflexivity|].
  unfold bind at 1. cbn. unfold bind at 1. rewrite IH. reflexivity.
Qed.

(** C10: in [score_from_prediction] the closure that validates an argument
    wraps it into a one-element list exactly when [actual_series] is not a
    list, whatever the argument itself is.  So with a single series as
    [actual_series] and a list as [pred_series] the validation of
    [pred_series] always fails, and the call never reaches the scoring: it
    raises, with the validation error whenever the fit gate lets it through.
    The same [pred_series] passes when [actual_series] is a list. *)
Theorem score_from_prediction_checks_pred_by_actual_container
    (Model : Type) (methods : Methods Model) (a : TimeSeries)
    (l : list pyarg) (w : World Model) :
  (forall actual input,
     _check_ts_or_list_ts actual input w =
       bind (for_each _assert_timeseries
               (if is_list actual then py_iter input else [input]))
            (fun _ => ret tt) w) /\
  _check_ts_or_list_ts (PySeries a) (PyList l) w = (inl InputTypeError, w) /\
  (forall actuals preds,
     _check_ts_or_list_ts (PyList actuals) (PyList (map PySeries preds)) w
       = (inr tt, w)) /\
  (exists e, fst (score_from_prediction methods (PySeries a) (PyList l) w)
             = inl e) /\
  ((fittable (self w) = true -> truthy (_fit_called (self w)) = true) ->
   score_from_prediction methods (PySeries a) (PyList l) w
     = (inl InputTypeError, w)).
Proof.
  assert (Hpred : _check_ts_or_list_ts (PySeries a) (PyList l) w
                  = (inl InputTypeError, w)) by reflexivity.
  assert (Hact : _check_ts_or_list_ts (PySeries a) (PySeries a) w
                 = (inr tt, w)) by reflexivity.
  assert (Hgate : (fittable (self w) = true ->
                   truthy (_fit_called (self w)) = true) ->
                  score_from_prediction methods (PySeries a) (PyList l) w
                  = (inl InputTypeError, w)).
  { intros Hfit. unfold score_from_prediction.
    unfold bind at 1. cbn [get_self].
    assert (Hg : (if fittable (self w) then check_if_fit_called else ret tt) w
                 = (inr tt, w)).
    { destruct (fittable (self w)); [|reflexivity].
      unfold check_if_fit_called, bind, get_self, raise_if_not.
      rewrite (Hfit eq_refl). reflexivity. }
    rewrite (bind_inr _ Hg).
    rewrite (bind_inr _ Hact).
    rewrite (bind_inl _ Hpred). reflexivity. }
  split; [|split; [|split; [|split]]].
  - intros actual input. unfold _check_ts_or_list_ts.
    destruct (is_list actual); reflexivity.
  - exact Hpred.
  - intros actuals preds. unfold _check_ts_or_list_ts. cbn [is_list negb py_iter].
    unfold bind. rewrite for_each_assert_timeseries_all. reflexivity.
  - destruct (fittable (self w)) eqn:Ef.
    + destruct (truthy (_fit_called (self w))) eqn:Et.
      * exists InputTypeError. rewrite Hgate; [reflexivity|]. intros _; reflexivity.
      * exists (PreconditionError FitNotCalled).
        unfold score_from_prediction. unfold bind at 1. cbn [get_self].
        rewrite Ef. unfold check_if_fit_called.
        unfold bind at 1. unfold bind at 1. cbn [get_self].
        rewrite Et. reflexivity.
    + exists InputTypeError. rewrite Hgate; [reflexivity|]. intros E; discriminate E.
  - exact Hgate.
Qed.

Lemma score_from_prediction_checks_pred_by_actual_container_witness :
  score_from_prediction Examples.methods (PySeries Examples.series5)
      (PyList [PySeries Examples.series5])
      (Examples.world0 (Examples.new_scorer 1 false false))
    = (inl (PreconditionError FitNotCalled),
       Examples.world0 (Examples.new_scorer 1 false false))
  /\
  score_from_prediction Examples.methods (PySeries Examples.series5)
      (PyList [PySeries Examples.series5])
      (mkWorld (set_fit_called true (Examples.new_scorer 1 false false)) [])
    = (inl InputTypeError,
       mkWorld (set_fit_called true (Examples.new_scorer 1 false false)) []).
Proof.
  split; [reflexivity|].
  apply (proj2 (proj2 (proj2 (proj2
    (score_from_prediction_checks_pred_by_actual_container
       Examples.methods Examples.series5 [PySeries Examples.series5]
       (mkWorld (set_fit_called true (Examples.new_scorer 1 false false))
                [])))))).
  intros _. reflexivity.
Defined.

(** ** Relations kept by the subclass methods *)

Lemma same_window_config_refl (Model : Type) (sc : Scorer Model) :
  same_window_config sc sc.
Proof. split; reflexivity. Qed.

Lemma same_window_config_trans (Model : Type) (a b c : Scorer Model) :
  same_window_config a b -> same_window_config b c -> same_window_config a c.
Proof. unfold same_window_config. intros [? ?] [? ?]. split; congruence. Qed.

Lemma same_fit_flag_refl (Model : Type) (sc : Scorer Model) :
  same_fit_flag sc sc.
Proof. reflexivity. Qed.

Lemma same_fit_flag_trans (Model : Type) (a b c : Scorer Model) :
  same_fit_flag a b -> same_fit_flag b c -> same_fit_flag a c.
Proof. unfold same_fit_flag. congruence. Qed.

Section SubclassStable.

Variable Model : Type.
Variable R : Scorer Model -> Scorer Model -> Prop.
Hypothesis R_refl : forall sc, R sc sc.
Hypothesis R_trans : forall a b c, R a b -> R b c -> R a c.
Hypothesis R_set_model : forall m sc, R sc (set_model m sc).

Variable model_fit : Model -> list (list Q) -> result Model.
Variable model_score : Model -> list (list Q) -> result (list Q).
Variable nll : list Q -> list (list Q) -> result (list Q).

Lemma stable_windowed_fit_core l : stable R (windowed_fit_core model_fit l).
Proof.
  unfold windowed_fit_core. stable_tac;
    apply stable_modify_self; intros; apply R_set_model.
Qed.

Lemma stable_windowed_score_core s :
  stable R (windowed_score_core model_score s).
Proof.
  unfold windowed_score_core. stable_tac; auto using stable_fun_window_agg.
Qed.

Lemma windowed_methods_stable :
  methods_stable R (windowed_methods model_fit model_score).
Proof.
  split; [|split]; cbn.
  - apply stable_windowed_fit_core.
  - apply stable_windowed_score_core.
  - intros a p. unfold windowed_score_core_from_prediction.
    apply stable_bind; [assumption | apply stable_diff_series; assumption |].
    intros d. apply stable_windowed_score_core.
Qed.

Lemma nll_methods_stable : methods_stable R (@nll_methods Model nll).
Proof.
  split; [|split]; cbn.
  - intros l. apply stable_raise; assumption.
  - intros s. apply stable_raise; assumption.
  - intros a p. unfold nll_score_core_from_prediction, nll_anomaly_scores.
    stable_tac; auto using stable_extract_deterministic,
      stable_assert_stochastic.
Qed.

End SubclassStable.

(** ** The window handed to the metric function *)

(** C4: [eval_metric] hands [eval_metric_from_scores] the window 1 when
    [window_agg] is set and [self.window] otherwise, and
    [eval_metric_from_prediction] hands it [self.window] whatever
    [window_agg] is.  Both read the scorer after the scores are computed;
    when the subclass methods leave the window configuration alone, that is
    the configuration the call started with. *)
Theorem eval_metric_effective_window
    (Model : Type) (methods : Methods Model) (MetricValue : Type)
    (eval_metric_from_scores :
       list pyarg -> scores -> nat -> string -> result MetricValue)
    (actual_anomalies series actual_series pred_series : pyarg)
    (metric : string) (w : World Model) :
  (eval_metric methods eval_metric_from_scores actual_anomalies series metric w
   = let r := eval_metric_scores methods actual_anomalies series w in
     match fst r with
     | inl e => (inl e, snd r)
     | inr anomaly_score =>
         (eval_metric_from_scores (series2seq actual_anomalies) anomaly_score
            (if window_agg (self (snd r)) then 1 else window (self (snd r)))
            metric, snd r)
     end) /\
  (eval_metric_from_prediction methods eval_metric_from_scores
     actual_anomalies actual_series pred_series metric w
   = let r := eval_metric_from_prediction_scores methods actual_anomalies
                actual_series pred_series w in
     match fst r with
     | inl e => (inl e, snd r)
     | inr anomaly_score =>
         (eval_metric_from_scores (series2seq actual_anomalies) anomaly_score
            (window (self (snd r))) metric, snd r)
     end) /\
  (methods_stable same_window_config methods ->
   same_window_config (self w)
     (self (snd (eval_metric_scores methods actual_anomalies series w))) /\
   same_window_config (self w)
     (self (snd (eval_metric_from_prediction_scores methods actual_anomalies
                   actual_series pred_series w)))).
Proof.
  unfold eval_metric_scores, eval_metric_from_prediction_scores.
  split; [|split].
  - unfold eval_metric. cbv zeta.
    unfold bind.
    destruct (_check_single_series_support w) as [[e|[]] w1]; [reflexivity|].
    destruct (_check_univariate_scorer (series2seq actual_anomalies) w1)
      as [[e|[]] w2]; [reflexivity|].
    destruct (score methods series w2) as [[e|sc] w3]; reflexivity.
  - unfold eval_metric_from_prediction. cbv zeta.
    unfold bind.
    destruct (_check_univariate_scorer (series2seq actual_anomalies) w)
      as [[e|[]] w2]; [reflexivity|].
    destruct (score_from_prediction methods actual_series pred_series w2)
      as [[e|sc] w3]; reflexivity.
  - intros Hm.
    pose proof (@same_window_config_refl Model) as Hr.
    pose proof (@same_window_config_trans Model) as Ht.
    split.
    + apply stable_bind; [exact Ht | |].
      * apply stable_check_single_series_support; assumption.
      * intros _. apply stable_bind; [exact Ht | |].
        -- apply stable_check_univariate_scorer; assumption.
        -- intros _. apply stable_score; assumption.
    + apply stable_bind; [exact Ht | |].
      * apply stable_check_univariate_scorer; assumption.
      * intros _. apply stable_score_from_prediction; assumption.
Qed.

Lemma eval_metric_effective_window_witness :
  same_window_config (self Examples.fitted3)
    (self (snd (eval_metric_scores Examples.methods
                  (PySeries Examples.series5) (PySeries Examples.series5)
                  Examples.fitted3))) /\
  same_window_config (self Examples.fitted3)
    (self (snd (eval_metric_from_prediction_scores Examples.methods
                  (PySeries Examples.series5) (PySeries Examples.series5)
                  (PySeries Examples.series5) Examples.fitted3))).
Proof.
  apply (proj2 (proj2 (eval_metric_effective_window Examples.methods
           Examples.window_received (PySeries Examples.series5)
           (PySeries Examples.series5) (PySeries Examples.series5)
           (PySeries Examples.series5) "AUC_ROC" Examples.fitted3))).
  apply windowed_methods_stable.
  - apply same_window_config_refl.
  - apply same_window_config_trans.
  - intros m sc. split; reflexivity.
Defined.

(** With window 3 and window aggregation set, the metric function receives
    1 from [eval_metric] and 3 from [eval_metric_from_prediction]. *)
Example eval_metric_windows_received :
  window (self Examples.fitted3) = 3 /\
  window_agg (self Examples.fitted3) = true /\
  fst (eval_metric Examples.methods Examples.window_received
         (PySeries Examples.series5) (PySeries Examples.series5) "AUC_ROC"
         Examples.fitted3) = inr 1 /\
  fst (eval_metric_from_prediction Examples.methods Examples.window_received
         (PySeries Examples.series5) (PySeries Examples.series5)
         (PySeries Examples.train10) "AUC_ROC" Examples.fitted3) = inr 3.
Proof. vm_compute. repeat split. Qed.

(** ** [fit] *)

Section FitFacts.

Variable Model : Type.
Variable methods : Methods Model.

Lemma set_width_keeps_flag w (sc : Scorer Model) :
  same_fit_flag sc (set_width_trained_on w sc).
Proof. reflexivity. Qed.

(** Past its first step, the loop of [fit] does not write to the scorer. *)
Lemma fit_loop_later_keeps_self l :
  forall idx, stable eq (@fit_loop Model (S idx) l).
Proof.
  induction l as [|x tl IH]; intros idx; cbn [fit_loop].
  - apply stable_ret; reflexivity.
  - cbn [Nat.eqb].
    assert (Hr : forall a : Scorer Model, a = a) by reflexivity.
    assert (Ht : forall a b c : Scorer Model, a = b -> b = c -> a = c)
      by (intros; congruence).
    stable_tac; auto using stable_assert_timeseries, stable_check_window_size,
      stable_extract_deterministic.
Qed.

Lemma fit_loop_keeps_flag l :
  forall idx, stable same_fit_flag (@fit_loop Model idx l).
Proof.
  pose proof (@same_fit_flag_refl Model) as Hr.
  pose proof (@same_fit_flag_trans Model) as Ht.
  induction l as [|x tl IH]; intros idx; cbn [fit_loop].
  - apply stable_ret; assumption.
  - stable_tac; auto using stable_assert_timeseries, stable_check_window_size,
      stable_extract_deterministic.
    apply stable_modify_self. intros sc. apply set_width_keeps_flag.
Qed.

(** The list the loop returns is the list it was given: no element is
    replaced by its deterministic representative. *)
Lemma fit_loop_returns_input l :
  forall idx w ss w',
    @fit_loop Model idx l w = (inr ss, w') -> map PySeries ss = l.
Proof.
  induction l as [|x tl IH]; intros idx w ss w'; cbn [fit_loop].
  - unfold ret. intros H. inversion H. reflexivity.
  - unfold bind at 1.
    destruct x as [s| |]; cbn [_assert_timeseries]; unfold raise, ret;
      try discriminate.
    unfold bind at 1.
    match goal with
    | |- context [(if ?b then ?c1 else ?c2) w] =>
        destruct ((if b then c1 else c2) w) as [[e|[]] w1]
    end; [discriminate|].
    unfold bind at 1.
    destruct (_check_window_size s w1) as [[e|[]] w2]; [discriminate|].
    unfold bind at 1.
    destruct (_extract_deterministic s "series" w2) as [[e|d] w3];
      [discriminate|].
    unfold bind at 1.
    destruct (fit_loop (S idx) tl w3) as [[e|rest] w4] eqn:E; [discriminate|].
    intros H. inversion H. subst. cbn [map]. f_equal. eapply IH. exact E.
Qed.

(** [fit] is its validation phase followed, when that returns, by
    [_fit_core] on the series of the input and the setting of the flag. *)
Lemma fit_unfold (series : pyarg) (w : World Model) :
  fit methods series w =
    match fit_validation series w with
    | (inl e, w') => (inl e, w')
    | (inr list_series, w') =>
        bind (_fit_core methods list_series)
             (fun _ => modify_self (set_fit_called true)) w'
    end.
Proof.
  unfold fit, fit_validation. cbv zeta. unfold bind.
  destruct (_check_single_series_support w) as [[e|[]] w1]; [reflexivity|].
  destruct (fit_loop 0 (series2seq series) w1) as [[e|l] w2]; reflexivity.
Qed.

Lemma check_single_series_support_self (w : World Model) :
  snd (_check_single_series_support w) = w.
Proof.
  unfold _check_single_series_support, bind, get_self, raise_if_not.
  destruct (single_series_support (self w)); reflexivity.
Qed.

(** What a failing validation leaves behind. *)
Lemma fit_validation_raises_state (series : pyarg) (w : World Model) e w' :
  fit_validation series w = (inl e, w') ->
  self w' = self w \/
  exists s rest, series2seq series = PySeries s :: rest /\
                 self w' = set_width_trained_on (width s) (self w).
Proof.
  unfold fit_validation. unfold bind at 1.
  pose proof (check_single_series_support_self w) as Hs.
  destruct (_check_single_series_support w) as [[e0|[]] w1]; cbn in Hs; subst w1.
  - intros H. inversion H. left. reflexivity.
  - destruct (series2seq series) as [|x tl]; cbn [fit_loop].
    + discriminate.
    + unfold bind at 1.
      destruct x as [s| |]; cbn [_assert_timeseries]; unfold raise, ret;
        try (intros H; inversion H; left; reflexivity).
      cbn [Nat.eqb]. unfold bind at 1. unfold modify_self at 1.
      set (w1 := mkWorld (set_width_trained_on (width s) (self w)) (log w)).
      intros H. right. exists s, tl. split; [reflexivity|].
      assert (Hst : stable eq
                (bind (_check_window_size s) (fun _ =>
                 bind (_extract_deterministic s "series") (fun _ =>
                 bind (@fit_loop Model 1 tl) (fun rest => ret (s :: rest)))))).
      { assert (Hr : forall a : Scorer Model, a = a) by reflexivity.
        assert (Ht : forall a b c : Scorer Model, a = b -> b = c -> a = c)
          by (intros; congruence).
        stable_tac; auto using stable_check_window_size,
          stable_extract_deterministic.
        apply fit_loop_later_keeps_self. }
      specialize (Hst w1). unfold ret in Hst. rewrite H in Hst.
      cbn in Hst. symmetry. exact Hst.
Qed.

(** The same, with the case that holds: the width is recorded exactly when
    the decorator's check has passed and the first element of the input is a
    series. *)
Lemma fit_validation_raises_state_exact (series : pyarg) (w : World Model)
    e w' :
  fit_validation series w = (inl e, w') ->
  self w' = if single_series_support (self w)
            then match series2seq series with
                 | PySeries s :: _ => set_width_trained_on (width s) (self w)
                 | _ => self w
                 end
            else self w.
Proof.
  unfold fit_validation. unfold bind at 1.
  unfold _check_single_series_support, bind at 1, get_self, raise_if_not.
  destruct (single_series_support (self w)).
  2: { unfold raise. intros H. inversion H. reflexivity. }
  cbn [ret].
  destruct (series2seq series) as [|x tl]; cbn [fit_loop]; [discriminate|].
  unfold bind at 1.
  destruct x as [s| |]; cbn [_assert_timeseries]; unfold raise, ret;
    try (intros H; inversion H; reflexivity).
  cbn [Nat.eqb]. unfold bind at 1. unfold modify_self at 1.
  set (w1 := mkWorld (set_width_trained_on (width s) (self w)) (log w)).
  intros H.
  assert (Hst : stable eq
            (bind (_check_window_size s) (fun _ =>
             bind (_extract_deterministic s "series") (fun _ =>
             bind (@fit_loop Model 1 tl) (fun rest => ret (s :: rest)))))).
  { assert (Hr : forall a : Scorer Model, a = a) by reflexivity.
    assert (Ht : forall a b c : Scorer Model, a = b -> b = c -> a = c)
      by (intros; congruence).
    stable_tac; auto using stable_check_window_size,
      stable_extract_deterministic.
    apply fit_loop_later_keeps_self. }
  specialize (Hst w1). unfold ret in Hst. rewrite H in Hst.
  cbn in Hst. symmetry. exact Hst.
Qed.

End FitFacts.

(** C3, as the code has it: when the validation phase of [fit] raises, [fit]
    raises that error, and the fit-called flag, the model and every
    configuration field are what they were; the recorded width is the one
    field written before the checks are over.  It is written as soon as the
    first element of the input has passed the type check: on a scorer that
    supports single series, whenever the input starts with a series the
    failed call has left [width_trained_on] holding the width of that
    series, whatever check raised afterwards, and the scorer differs from
    the one before the call in that field only.  In the other cases (the
    scorer does not support single series, or the first element is not a
    series) the scorer is untouched. *)
Theorem fit_validation_failure_keeps_flag_and_model
    (Model : Type) (methods : Methods Model) (series : pyarg)
    (w w' : World Model) (e : error) :
  fit_validation series w = (inl e, w') ->
  fit methods series w = (inl e, w') /\
  _fit_called (self w') = _fit_called (self w) /\
  model (self w') = model (self w) /\
  (self w' = self w \/
   exists s rest, series2seq series = PySeries s :: rest /\
                  self w' = set_width_trained_on (width s) (self w)) /\
  (single_series_support (self w) = true ->
   forall s rest,
     series2seq series = PySeries s :: rest ->
     width_trained_on (self w') = Some (width s) /\
     self w' = set_width_trained_on (width s) (self w)) /\
  (single_series_support (self w) = false \/
   (forall s rest, series2seq series <> PySeries s :: rest) ->
   self w' = self w).
Proof.
  intros H.
  pose proof (fit_validation_raises_state _ _ H) as Hw.
  pose proof (fit_validation_raises_state_exact _ _ H) as Hx.
  split; [rewrite fit_unfold, H; reflexivity|].
  split; [destruct Hw as [Hw | (s & rest & Hs & Hw)]; rewrite Hw; reflexivity|].
  split; [destruct Hw as [Hw | (s & rest & Hs & Hw)]; rewrite Hw; reflexivity|].
  split; [exact Hw|].
  split.
  - intros Hsup s rest Hs. rewrite Hsup, Hs in Hx. rewrite Hx.
    split; reflexivity.
  - intros [Hsup | Hno].
    + rewrite Hsup in Hx. exact Hx.
    + destruct (single_series_support (self w)); [|exact Hx].
      destruct (series2seq series) as [|[s| |] tl]; try exact Hx.
      exfalso. apply (Hno s tl). reflexivity.
Qed.

Lemma fit_validation_failure_keeps_flag_and_model_witness :
  let w := Examples.world0 (Examples.new_scorer 3 true false) in
  let w' := mkWorld (set_width_trained_on 1 (Examples.new_scorer 3 true false))
                    [] in
  fit Examples.methods (PySeries Examples.short2) w
    = (inl WindowTooLargeError, w') /\
  _fit_called (self w') = _fit_called (self w) /\
  model (self w') = model (self w) /\
  width_trained_on (self w') = Some (width Examples.short2) /\
  self w' = set_width_trained_on (width Examples.short2) (self w).
Proof.
  cbv zeta.
  destruct (@fit_validation_failure_keeps_flag_and_model _ Examples.methods
              (PySeries Examples.short2)
              (Examples.world0 (Examples.new_scorer 3 true false))
              (mkWorld (set_width_trained_on 1
                          (Examples.new_scorer 3 true false)) [])
              WindowTooLargeError eq_refl)
    as (Hfit & Hflag & Hmodel & _ & Hrec & _).
  destruct (Hrec eq_refl Examples.short2 [] eq_refl) as (Hwidth & Hself).
  repeat split; assumption.
Defined.

(** C3, as stated, fails: a [fit] that raises on a series shorter than the
    window has already recorded the width of that series. *)
Lemma fit_failure_leaves_width_trained_on :
  let w := Examples.world0 (Examples.new_scorer 3 true false) in
  let r := fit Examples.methods (PySeries Examples.short2) w in
  fst r = inl WindowTooLargeError /\
  width_trained_on (self w) = None /\
  width_trained_on (self (snd r)) = Some 1 /\
  self (snd r) <> self w.
Proof.
  cbv zeta. repeat split. intros H.
  apply (f_equal (@width_trained_on _)) in H. discriminate H.
Qed.

(** The deterministic representatives are computed and dropped: whenever the
    validation of [fit] returns, [_fit_core] runs on the very series of the
    input. *)
Lemma fit_delegates_input_series
    (Model : Type) (methods : Methods Model) (series : pyarg)
    (w w' : World Model) (list_series : list TimeSeries) :
  fit_validation series w = (inr list_series, w') ->
  map PySeries list_series = series2seq series /\
  fit methods series w =
    bind (_fit_core methods list_series)
         (fun _ => modify_self (set_fit_called true)) w'.
Proof.
  intros H. split.
  - unfold fit_validation in H. unfold bind in H.
    destruct (_check_single_series_support w) as [[e|[]] w1]; [discriminate|].
    eapply fit_loop_returns_input. exact H.
  - rewrite fit_unfold, H. reflexivity.
Qed.

(** C2 at a stochastic input: [fit] warns that the series will be converted
    to its median, and hands [_fit_core] the three-sample series itself. *)
Lemma fit_hands_stochastic_series_to_fit_core :
  let w := mkWorld (Examples.recording_scorer 1) [] in
  let r := fit Examples.recording_methods (PySeries Examples.stochastic3) w in
  fst r = inr tt /\
  log (snd r) = [WarnNotDeterministic "series" 3] /\
  _fit_called (self (snd r)) = Some true /\
  model (self (snd r)) = Some (SingleModel [Examples.stochastic3]) /\
  model (self (snd r))
    <> Some (SingleModel [quantile_timeseries_05 Examples.stochastic3]).
Proof.
  cbv zeta. repeat split. intros H. discriminate H.
Qed.

(** ** Errors a computation cannot raise *)

Section AvoidFacts.

Variable Model : Type.
Variable e : error.

Lemma avoids_ret {A} (a : A) : avoids e (@ret Model A a).
Proof. intros w. discriminate. Qed.

Lemma avoids_raise {A} e' : e' <> e -> avoids e (@raise Model A e').
Proof. intros H w. cbn. congruence. Qed.

Lemma avoids_lift {A} (r : result A) : r <> inl e -> avoids e (@lift Model A r).
Proof. intros H w. exact H. Qed.

Lemma avoids_get_self : avoids e (@get_self Model).
Proof. intros w. discriminate. Qed.

Lemma avoids_warning x : avoids e (@warning Model x).
Proof. intros w. discriminate. Qed.

Lemma avoids_modify_self f : avoids e (@modify_self Model f).
Proof. intros w. discriminate. Qed.

Lemma avoids_raise_if_not b e' :
  e' <> e -> avoids e (@raise_if_not Model b e').
Proof. intros H. destruct b; [apply avoids_ret | apply avoids_raise, H]. Qed.

Lemma avoids_bind {A B} (c : M Model A) (k : A -> M Model B) :
  avoids e c -> (forall a, avoids e (k a)) -> avoids e (bind c k).
Proof.
  intros Hc Hk w. unfold bind. specialize (Hc w).
  destruct (c w) as [[e'|a] w']; cbn in *; [congruence | apply Hk].
Qed.

Lemma avoids_for_each {A B} (f : A -> M Model B) l :
  (forall a, avoids e (f a)) -> avoids e (for_each f l).
Proof.
  intros Hf. induction l as [|a tl IH]; cbn [for_each].
  - apply avoids_ret.
  - apply avoids_bind; [apply Hf|]. intros b.
    apply avoids_bind; [exact IH|]. intros bs. apply avoids_ret.
Qed.

End AvoidFacts.

Ltac avoids_step :=
  match goal with
  | |- forall _, _ => intros ?
  | |- avoids _ (bind _ _) => apply avoids_bind
  | |- avoids _ (for_each _ _) => apply avoids_for_each
  | |- avoids _ (ret _) => apply avoids_ret
  | |- avoids _ (raise _) => apply avoids_raise; discriminate
  | |- avoids _ get_self => apply avoids_get_self
  | |- avoids _ (warning _) => apply avoids_warning
  | |- avoids _ (modify_self _) => apply avoids_modify_self
  | |- avoids _ (raise_if_not _ _) => apply avoids_raise_if_not; discriminate
  | |- avoids _ (lift _) => apply avoids_lift
  | |- avoids _ (if ?b then _ else _) => destruct b
  | |- avoids _ (match ?x with _ => _ end) => destruct x
  | |- avoids _ (let '(_, _) := ?p in _) => destruct p
  end.

Ltac avoids_tac := repeat avoids_step.

Section PureErrors.

Variable e : error.
Hypothesis e_not_array : e <> ArrayError.

Lemma result_bind_avoids {A B} (r : result A) (f : A -> result B) :
  r <> inl e -> (forall a, f a <> inl e) -> result_bind r f <> inl e.
Proof. destruct r as [e'|a]; cbn; intros H Hf; [congruence | apply Hf]. Qed.

Lemma result_map_avoids {A B} (r : result A) (f : A -> B) :
  r <> inl e -> result_map f r <> inl e.
Proof. destruct r as [e'|a]; cbn; [congruence | discriminate]. Qed.

Lemma result_all_avoids {A} (l : list (result A)) :
  (forall r, In r l -> r <> inl e) -> result_all l <> inl e.
Proof.
  induction l as [|r tl IH]; cbn [result_all]; intros H; [discriminate|].
  apply result_bind_avoids; [apply H; left; reflexivity|].
  intros a. apply result_map_avoids, IH. intros r' Hr. apply H. right. exact Hr.
Qed.

Lemma parallel_apply_avoids {A B} (items : list A) (fn : A -> result B) :
  (forall a, fn a <> inl e) -> _parallel_apply items fn <> inl e.
Proof.
  intros H. unfold _parallel_apply. apply result_all_avoids.
  intros r Hr. apply in_map_iff in Hr. destruct Hr as (a & <- & _). apply H.
Qed.

Lemma sliding_window_view_avoids arr C S W :
  sliding_window_view arr C S W <> inl e.
Proof.
  unfold sliding_window_view. destruct (_ <? _); [congruence | discriminate].
Qed.

Lemma reshape_rows_avoids n flat : reshape_rows n flat <> inl e.
Proof.
  unfold reshape_rows. destruct (_ || _); [congruence | discriminate].
Qed.

Lemma reshape_blocks_avoids C W flat : reshape_blocks C W flat <> inl e.
Proof.
  unfold reshape_blocks. destruct (_ || _); [congruence | discriminate].
Qed.

Lemma concatenate_axis1_avoids Cs tables : concatenate_axis1 Cs tables <> inl e.
Proof.
  unfold concatenate_axis1. destruct Cs; [congruence|].
  destruct (forallb _ _); [discriminate | congruence].
Qed.

Lemma np_array_2d_avoids rows : np_array_2d rows <> inl e.
Proof.
  unfold np_array_2d. destruct rows; [discriminate|].
  destruct (forallb _ _); [discriminate | congruence].
Qed.

Lemma from_times_and_values_3d_avoids times C S values :
  from_times_and_values_3d times C S values <> inl e.
Proof.
  unfold from_times_and_values_3d. destruct (_ =? _); [discriminate | congruence].
Qed.

Lemma tabularize_series_joint_avoids W l :
  _tabularize_series_joint W l <> inl e.
Proof.
  unfold _tabularize_series_joint. apply result_all_avoids.
  intros r Hr. apply in_map_iff in Hr. destruct Hr as (s & <- & _).
  apply result_bind_avoids; [apply sliding_window_view_avoids|].
  intros v. apply reshape_rows_avoids.
Qed.

Lemma tabularize_series_component_wise_avoids W l :
  _tabularize_series_component_wise W l <> inl e.
Proof.
  unfold _tabularize_series_component_wise. apply result_all_avoids.
  intros r Hr. apply in_map_iff in Hr. destruct Hr as (s & <- & _).
  apply result_bind_avoids; [apply sliding_window_view_avoids|].
  intros v. apply reshape_blocks_avoids.
Qed.

Lemma convert_tabular_to_series_avoids W l scores :
  _convert_tabular_to_series W l scores <> inl e.
Proof.
  unfold _convert_tabular_to_series. generalize 0.
  induction l as [|s tl IH]; intros indice;
    cbn [_convert_tabular_to_series_from]; [discriminate|].
  apply result_bind_avoids;
    [apply from_times_and_values_3d_avoids|].
  intros ts. apply result_map_avoids, IH.
Qed.

End PureErrors.

Lemma fun_window_agg_avoids (Model : Type) e l W :
  e <> ArrayError -> avoids e (@_fun_window_agg Model l W).
Proof.
  intros He. unfold _fun_window_agg. avoids_tac.
  apply from_times_and_values_3d_avoids, He.
Qed.

(** The windowed [_score_core] raises no error but its own, the array
    errors, and those of the window model. *)
Lemma windowed_score_core_avoids (Model : Type)
    (model_score : Model -> list (list Q) -> result (list Q)) e s :
  e <> ArrayError -> e <> AttributeError -> e <> ShapeMismatchError ->
  e <> TypeError -> e <> IndexError ->
  (forall m rows, model_score m rows <> inl e) ->
  avoids e (windowed_score_core model_score s).
Proof.
  intros H1 H2 H3 H4 H5 Hm. unfold windowed_score_core.
  apply avoids_bind; [apply avoids_get_self|]. intros sc.
  cbv zeta.
  apply avoids_bind.
  { destruct (width_trained_on sc);
      [apply avoids_raise_if_not | apply avoids_raise]; congruence. }
  intros _.
  apply avoids_bind.
  - destruct (negb (component_wise sc) || (width s =? 1)).
    + apply avoids_bind;
        [apply avoids_lift, tabularize_series_joint_avoids, H1|].
      intros tab. apply avoids_bind.
      * apply avoids_for_each. intros t.
        destruct (model sc) as [[m|ms]|];
          [apply avoids_lift, Hm | apply avoids_raise | apply avoids_raise];
          congruence.
      * intros l. apply avoids_for_each. intros p.
        apply avoids_lift, from_times_and_values_3d_avoids, H1.
    + apply avoids_bind;
        [apply avoids_lift, tabularize_series_component_wise_avoids, H1|].
      intros tab. apply avoids_bind;
        [apply avoids_lift, concatenate_axis1_avoids, H1|].
      intros tab'.
      destruct (model sc) as [[m|ms]|];
        [apply avoids_raise; congruence | | apply avoids_raise; congruence].
      apply avoids_bind.
      * apply avoids_lift, parallel_apply_avoids. intros p. apply Hm.
      * intros l. apply avoids_bind;
          [apply avoids_lift, np_array_2d_avoids, H1|].
        intros l'. apply avoids_lift, convert_tabular_to_series_avoids, H1.
  - intros l.
    destruct ((1 <? window sc) && window_agg sc).
    + apply avoids_bind; [apply fun_window_agg_avoids, H1|].
      intros agg. destruct agg; [apply avoids_raise | apply avoids_ret].
      congruence.
    + destruct l; [apply avoids_raise | apply avoids_ret]. congruence.
Qed.

(** ** The fit gate *)

Section FitGate.

Variable Model : Type.
Variable methods : Methods Model.
Variable MetricValue : Type.
Variable eval_metric_from_scores :
  list pyarg -> scores -> nat -> string -> result MetricValue.
Variable show_anomalies_from_scores :
  TimeSeries -> option TimeSeries -> scores -> nat -> result unit.

Hypothesis methods_keep_flag : methods_stable same_fit_flag methods.

Let Hrefl := @same_fit_flag_refl Model.
Let Htrans := @same_fit_flag_trans Model.

Lemma fit_validation_keeps_flag x :
  stable same_fit_flag (@fit_validation Model x).
Proof.
  unfold fit_validation.
  apply stable_bind; [exact Htrans | |].
  - apply stable_check_single_series_support; assumption.
  - intros _. apply fit_loop_keeps_flag.
Qed.

(** A [fit] that returns has set the flag; one that raises has left it. *)
Lemma fit_flag x w :
  _fit_called (self (snd (fit methods x w))) =
    match fst (fit methods x w) with
    | inr _ => Some true
    | inl _ => _fit_called (self w)
    end.
Proof.
  rewrite fit_unfold.
  pose proof (fit_validation_keeps_flag x w) as Hv.
  destruct (fit_validation x w) as [[e|l] w1]; cbn in Hv; [exact Hv|].
  destruct methods_keep_flag as (Hf & _ & _).
  specialize (Hf l w1). unfold bind.
  destruct (_fit_core methods l w1) as [[e|[]] w2]; cbn in *.
  - unfold same_fit_flag in *. congruence.
  - reflexivity.
Qed.

Lemma sets_flag_bind {A} (c : M Model A) (k : A -> M Model unit) :
  stable same_fit_flag c ->
  (forall a, sets_flag_on_return (k a)) ->
  sets_flag_on_return (bind c k).
Proof.
  intros Hc Hk w. unfold bind. specialize (Hc w).
  destruct (c w) as [[e|a] w1]; cbn in Hc |- *; [exact Hc|].
  rewrite Hk. destruct (fst (k a w1)); [exact Hc | reflexivity].
Qed.

Lemma fit_from_prediction_flag a p :
  sets_flag_on_return (fit_from_prediction methods a p).
Proof.
  unfold fit_from_prediction. cbv zeta.
  apply sets_flag_bind; [apply stable_check_probabilistic_series; assumption|].
  intros la.
  apply sets_flag_bind; [apply stable_check_probabilistic_series; assumption|].
  intros lp.
  apply sets_flag_bind; [apply stable_assert_same_length; assumption|].
  intros _.
  apply sets_flag_bind.
  - stable_tac;
      auto using stable_sanity_check_two_series, stable_extract_deterministic,
        stable_diff_series.
  - intros l w. apply fit_flag.
Qed.

Lemma stable_expect_one_series x :
  stable same_fit_flag (@expect_one_series Model x).
Proof.
  unfold expect_one_series. stable_tac; apply stable_assert_timeseries; assumption.
Qed.

Lemma run_call_flag c w :
  truthy (_fit_called (self (snd
     (run_call methods eval_metric_from_scores show_anomalies_from_scores c w))))
  = truthy (_fit_called (self w))
    || (is_fit_call c &&
        fst (run_call methods eval_metric_from_scores
               show_anomalies_from_scores c w)).
Proof.
  assert (Hst : forall A (op : M Model A),
             stable same_fit_flag op ->
             truthy (_fit_called (self (snd (outcome (op w)))))
             = truthy (_fit_called (self w)) || false).
  { intros A op H. rewrite orb_false_r. cbn. rewrite (H w). reflexivity. }
  assert (Hfit : forall (op : M Model unit),
             _fit_called (self (snd (op w))) =
               match fst (op w) with
               | inr _ => Some true
               | inl _ => _fit_called (self w)
               end ->
             truthy (_fit_called (self (snd (outcome (op w)))))
             = truthy (_fit_called (self w)) || (true && fst (outcome (op w)))).
  { intros op H. cbn. rewrite H.
    destruct (fst (op w)); cbn.
    - rewrite orb_false_r. reflexivity.
    - rewrite orb_true_r. reflexivity. }
  destruct c; cbn [run_call is_fit_call andb].
  - apply Hfit, fit_flag.
  - apply Hfit, fit_from_prediction_flag.
  - apply Hst, stable_score; assumption.
  - apply Hst, stable_score_from_prediction; assumption.
  - apply Hst. unfold eval_metric. stable_tac;
      auto using stable_check_single_series_support,
        stable_check_univariate_scorer, stable_score.
  - apply Hst. unfold eval_metric_from_prediction. stable_tac;
      auto using stable_check_univariate_scorer, stable_score_from_prediction.
  - apply Hst. unfold show_anomalies. stable_tac;
      auto using stable_check_single_series_support, stable_expect_one_series,
        stable_score.
  - apply Hst. unfold show_anomalies_from_prediction. stable_tac;
      auto using stable_expect_one_series, stable_score_from_prediction.
Qed.

Lemma run_calls_flag cs :
  forall w,
    truthy (_fit_called (self
       (run_calls methods eval_metric_from_scores show_anomalies_from_scores
          cs w)))
    = truthy (_fit_called (self w))
      || some_fit_succeeded methods eval_metric_from_scores
           show_anomalies_from_scores cs w.
Proof.
  induction cs as [|c tl IH]; intros w; cbn [run_calls some_fit_succeeded].
  - rewrite orb_false_r. reflexivity.
  - rewrite IH, run_call_flag, orb_assoc. reflexivity.
Qed.

(** Without the flag, [score] stops at one of its two preconditions. *)
Lemma score_unfit_fails x w :
  truthy (_fit_called (self w)) = false ->
  exists p, score methods x w = (inl (PreconditionError p), w).
Proof.
  intros H. unfold score. unfold bind at 1.
  unfold _check_single_series_support, bind at 1, get_self, raise_if_not.
  destruct (single_series_support (self w)).
  - exists FitNotCalled. cbn. unfold bind at 1.
    unfold check_if_fit_called, bind at 1, get_self, raise_if_not.
    rewrite H. reflexivity.
  - exists SingleSeriesUnsupported. reflexivity.
Qed.

Lemma check_if_fit_called_passes w :
  truthy (_fit_called (self w)) = true ->
  @check_if_fit_called Model w = (inr tt, w).
Proof.
  intros H. unfold check_if_fit_called, bind, get_self, raise_if_not.
  rewrite H. reflexivity.
Qed.

(** With the flag, [score] does not raise the not-fitted error, provided the
    subclass [_score_core] does not raise it itself. *)
Lemma score_fit_passes_gate x w :
  (forall s, avoids (PreconditionError FitNotCalled) (_score_core methods s)) ->
  truthy (_fit_called (self w)) = true ->
  fst (score methods x w) <> inl (PreconditionError FitNotCalled).
Proof.
  intros Hs H. unfold score. unfold bind at 1.
  unfold _check_single_series_support, bind at 1, get_self, raise_if_not.
  destruct (single_series_support (self w)); [|cbn; discriminate].
  cbn [ret]. rewrite (bind_inr _ (check_if_fit_called_passes _ H)).
  cbv zeta.
  match goal with
  | |- fst (?c w) <> _ =>
      cut (avoids (PreconditionError FitNotCalled) c); [intros Ha; apply Ha|]
  end.
  avoids_tac; try apply Hs.
  - unfold _assert_timeseries. avoids_tac.
  - unfold _check_window_size. avoids_tac.
  - unfold _extract_deterministic. avoids_tac.
Qed.

End FitGate.

(** C8: take a fittable scorer as its constructor leaves it (flag [False])
    and any sequence of public calls on it.  If no [fit] of the sequence has
    returned, [score] raises a precondition error.  If one has, the flag is
    set whatever calls came after it, the fit check passes, and [score] does
    not raise the not-fitted error.  The subclass methods are assumed not to
    write the flag, and [_score_core] not to raise the not-fitted error
    itself. *)
Theorem fit_gate_is_one_way
    (Model : Type) (methods : Methods Model) (MetricValue : Type)
    (eval_metric_from_scores :
       list pyarg -> scores -> nat -> string -> result MetricValue)
    (show_anomalies_from_scores :
       TimeSeries -> option TimeSeries -> scores -> nat -> result unit)
    (calls : list call) (series : pyarg) (w : World Model) :
  methods_stable same_fit_flag methods ->
  (forall s, avoids (PreconditionError FitNotCalled) (_score_core methods s)) ->
  fittable (self w) = true ->
  _fit_called (self w) = Some false ->
  let w' := run_calls methods eval_metric_from_scores
              show_anomalies_from_scores calls w in
  (some_fit_succeeded methods eval_metric_from_scores
     show_anomalies_from_scores calls w = false ->
   exists p, score methods series w' = (inl (PreconditionError p), w')) /\
  (some_fit_succeeded methods eval_metric_from_scores
     show_anomalies_from_scores calls w = true ->
   _fit_called (self w') = Some true /\
   check_if_fit_called w' = (inr tt, w') /\
   fst (score methods series w') <> inl (PreconditionError FitNotCalled)).
Proof.
  intros Hm Hs Hfittable Hflag w'.
  pose proof (run_calls_flag eval_metric_from_scores
                show_anomalies_from_scores Hm calls w) as Hrun.
  fold w' in Hrun. rewrite Hflag in Hrun. cbn [truthy orb] in Hrun.
  split; intros Hfit; rewrite Hfit in Hrun.
  - apply score_unfit_fails. exact Hrun.
  - split; [|split].
    + destruct (_fit_called (self w')) as [[|]|]; try discriminate Hrun.
      reflexivity.
    + apply check_if_fit_called_passes. exact Hrun.
    + apply score_fit_passes_gate; assumption.
Qed.

Lemma examples_methods_keep_flag :
  methods_stable same_fit_flag Examples.methods.
Proof.
  apply windowed_methods_stable.
  - apply same_fit_flag_refl.
  - apply same_fit_flag_trans.
  - intros m sc. reflexivity.
Qed.

Lemma examples_score_core_gate_free :
  forall s, avoids (PreconditionError FitNotCalled)
              (_score_core Examples.methods s).
Proof.
  intros s. cbn. apply windowed_score_core_avoids; discriminate.
Qed.

Lemma fit_gate_is_one_way_witness :
  (exists p,
     score Examples.methods (PySeries Examples.series5)
       (run_calls Examples.methods Examples.window_received Examples.no_plot
          [Score (PySeries Examples.series5); Fit (PySeries Examples.short2)]
          (Examples.world0 (Examples.new_scorer 3 true false)))
     = (inl (PreconditionError p),
        run_calls Examples.methods Examples.window_received Examples.no_plot
          [Score (PySeries Examples.series5); Fit (PySeries Examples.short2)]
          (Examples.world0 (Examples.new_scorer 3 true false)))) /\
  fst (score Examples.methods (PySeries Examples.series5)
         (run_calls Examples.methods Examples.window_received Examples.no_plot
            [Fit (PyList [PySeries Examples.train10; PySeries Examples.train10]);
             Fit (PySeries Examples.short2);
             Score (PySeries Examples.series5)]
            (Examples.world0 (Examples.new_scorer 3 true false))))
    <> inl (PreconditionError FitNotCalled).
Proof.
  split.
  - apply (proj1 (fit_gate_is_one_way Examples.window_received Examples.no_plot
             [Score (PySeries Examples.series5); Fit (PySeries Examples.short2)]
             (PySeries Examples.series5)
             (Examples.world0 (Examples.new_scorer 3 true false))
             examples_methods_keep_flag examples_score_core_gate_free
             eq_refl eq_refl)).
    reflexivity.
  - apply (proj2 (fit_gate_is_one_way Examples.window_received Examples.no_plot
             [Fit (PyList [PySeries Examples.train10;
                           PySeries Examples.train10]);
              Fit (PySeries Examples.short2);
              Score (PySeries Examples.series5)]
             (PySeries Examples.series5)
             (Examples.world0 (Examples.new_scorer 3 true false))
             examples_methods_keep_flag examples_score_core_gate_free
             eq_refl eq_refl)).
    vm_compute. reflexivity.
Defined.

(** ** Lists, slices and means *)

Lemma nth_map_seq {A} (f : nat -> A) (d : A) n a i :
  i < n -> nth i (map f (seq a n)) d = f (a + i).
Proof.
  intros H. rewrite nth_indep with (d' := f 0) by (rewrite length_map, length_seq; exact H).
  rewrite map_nth with (d := 0). rewrite seq_nth by exact H. reflexivity.
Qed.

Lemma firstn_as_map {A} (d : A) (l : list A) :
  forall n, firstn n l = map (fun j => nth j l d) (seq 0 (Nat.min n (length l))).
Proof.
  induction l as [|x tl IH]; intros n.
  - rewrite firstn_nil. cbn [length]. rewrite Nat.min_0_r. reflexivity.
  - destruct n as [|n]; [reflexivity|].
    cbn [firstn length]. rewrite <- Nat.succ_min_distr. cbn [seq map nth].
    f_equal. rewrite IH, <- seq_shift, map_map. reflexivity.
Qed.

Lemma skipn_firstn_as_map {A} (d : A) :
  forall i (l : list A) n,
    firstn n (skipn i l)
    = map (fun j => nth j l d) (seq i (Nat.min n (length l - i))).
Proof.
  induction i as [|i IH]; intros l n.
  - cbn [skipn]. rewrite Nat.sub_0_r. apply firstn_as_map.
  - destruct l as [|x tl].
    + cbn [skipn length]. rewrite firstn_nil. cbn. rewrite Nat.min_0_r.
      reflexivity.
    + cbn [skipn length]. rewrite IH. cbn [Nat.sub].
      rewrite <- seq_shift, map_map. reflexivity.
Qed.

(** A slice, as the elements at its positions. *)
Lemma slice_as_map {A} (d : A) (l : list A) a b :
  slice l a b = map (fun j => nth j l d) (seq a (Nat.min b (length l) - a)).
Proof.
  unfold slice. rewrite (skipn_firstn_as_map d). f_equal. f_equal. lia.
Qed.

Lemma length_slice {A} (l : list A) a b :
  length (slice l a b) = Nat.min b (length l) - a.
Proof.
  unfold slice. rewrite length_firstn, length_skipn. lia.
Qed.

Lemma mean_axis0_at C S rows c k :
  c < C -> k < S ->
  nth k (nth c (mean_axis0 C S rows) []) 0%Q
  = Qmean (map (fun row => nth k (nth c row []) 0%Q) rows).
Proof.
  intros Hc Hk. unfold mean_axis0.
  rewrite nth_map_seq by exact Hc. rewrite nth_map_seq by exact Hk.
  reflexivity.
Qed.

(** The mean over axis 0 of a slice is the forward mean of the claim. *)
Lemma mean_axis0_slice C S vals i W c k :
  c < C -> k < S ->
  nth k (nth c (mean_axis0 C S (slice vals i (i + W))) []) 0%Q
  = forward_window_mean vals W i c k.
Proof.
  intros Hc Hk. rewrite mean_axis0_at by assumption.
  unfold forward_window_mean. rewrite (slice_as_map []), map_map.
  reflexivity.
Qed.

(** ** Window aggregation *)

Lemma fun_window_agg_one (score : TimeSeries) (W : nat) :
  length (time_index score) = len score ->
  exists r,
    from_times_and_values_3d (time_index score) (width score)
      (n_samples score)
      (map (fun idx_point =>
              mean_axis0 (width score) (n_samples score)
                (slice (all_values score) idx_point (idx_point + W)))
           (seq 0 (len score))) = inr r /\
    is_window_agg_of W score r.
Proof.
  intros Hlen. unfold from_times_and_values_3d.
  rewrite length_map, length_seq, Hlen, Nat.eqb_refl.
  eexists. split; [reflexivity|].
  unfold is_window_agg_of, len; cbn.
  rewrite length_map, length_seq.
  repeat split.
  intros i c k Hi Hc Hk. unfold value_at.
  rewrite nth_map_seq by exact Hi. cbn [Nat.add].
  apply mean_axis0_slice; assumption.
Qed.

(** C5: [_fun_window_agg] returns, for each window-wise score series, a
    series on the same time index and of the same shape, hence of the same
    length, whose value at index [i] is the mean of the score values at the
    indices [i, i + W) that exist.  It neither touches the scorer nor logs. *)
Theorem fun_window_agg_forward_mean (Model : Type)
    (list_scores : list TimeSeries) (W : nat) (w : World Model) :
  1 <= W ->
  Forall (fun score => length (time_index score) = len score) list_scores ->
  exists rs,
    _fun_window_agg list_scores W w = (inr rs, w) /\
    Forall2 (is_window_agg_of W) list_scores rs.
Proof.
  intros _ Hwf. unfold _fun_window_agg.
  induction Hwf as [|score tl Hs Htl IH]; cbn [for_each].
  - exists []. split; [reflexivity | constructor].
  - destruct (@fun_window_agg_one score W Hs) as (r & Er & Hr).
    destruct IH as (rs & Ers & Hrs).
    exists (r :: rs). split; [|constructor; assumption].
    unfold bind at 1. unfold lift at 1. rewrite Er.
    unfold bind at 1. rewrite Ers. reflexivity.
Qed.

Lemma fun_window_agg_forward_mean_witness :
  exists rs,
    _fun_window_agg [Examples.series5] 3
      (Examples.world0 (Examples.new_scorer 3 true false))
    = (inr rs, Examples.world0 (Examples.new_scorer 3 true false)) /\
    Forall2 (is_window_agg_of 3) [Examples.series5] rs.
Proof.
  apply (@fun_window_agg_forward_mean Examples.Model [Examples.series5] 3
           (Examples.world0 (Examples.new_scorer 3 true false))).
  - lia.
  - constructor; [reflexivity | constructor].
Defined.

(** On the values 1..5 with window 3: the means of [1,2,3], [2,3,4],
    [3,4,5], [4,5] and [5]. *)
Example fun_window_agg_on_series5 :
  fst (_fun_window_agg [Examples.series5] 3
         (Examples.world0 (Examples.new_scorer 3 true false)))
  = inr [mkTimeSeries [0; 1; 2; 3; 4]%Z 1 1
           [[[6 # 3]]; [[9 # 3]]; [[12 # 3]]; [[9 # 2]]; [[5 # 1]]]%Q].
Proof. vm_compute. reflexivity. Qed.

(** ** Computations that do not look at the scorer *)

Section IgnoreFacts.

Variable Model : Type.

Lemma ignores_ret {A} (a : A) : ignores_self (@ret Model A a).
Proof. intros sc sc' lg. cbn. auto. Qed.

Lemma ignores_raise {A} e : ignores_self (@raise Model A e).
Proof. intros sc sc' lg. cbn. auto. Qed.

Lemma ignores_lift {A} (r : result A) : ignores_self (@lift Model A r).
Proof. intros sc sc' lg. cbn. auto. Qed.

Lemma ignores_warning x : ignores_self (@warning Model x).
Proof. intros sc sc' lg. cbn. auto. Qed.

Lemma ignores_raise_if_not b e : ignores_self (@raise_if_not Model b e).
Proof. destruct b; [apply ignores_ret | apply ignores_raise]. Qed.

Lemma ignores_bind {A B} (c : M Model A) (k : A -> M Model B) :
  ignores_self c -> (forall a, ignores_self (k a)) -> ignores_self (bind c k).
Proof.
  intros Hc Hk sc sc' lg. unfold bind.
  destruct (Hc sc sc' lg) as (H1 & H2 & H3).
  destruct (Hc sc' sc lg) as (_ & _ & H3').
  destruct (c (mkWorld sc lg)) as [[e|a] [s1 l1]];
    destruct (c (mkWorld sc' lg)) as [[e'|a'] [s2 l2]]; cbn in *;
    try discriminate.
  - repeat split; congruence.
  - inversion H1; subst. apply Hk.
Qed.

Lemma ignores_for_each {A B} (f : A -> M Model B) l :
  (forall a, ignores_self (f a)) -> ignores_self (for_each f l).
Proof.
  intros Hf. induction l as [|a tl IH]; cbn [for_each].
  - apply ignores_ret.
  - apply ignores_bind; [apply Hf|]. intros b.
    apply ignores_bind; [exact IH|]. intros bs. apply ignores_ret.
Qed.

Lemma nll_anomaly_scores_ignores_self nll a p :
  ignores_self (@nll_anomaly_scores Model nll a p).
Proof.
  unfold nll_anomaly_scores.
  apply ignores_bind.
  { unfold _extract_deterministic.
    destruct (negb (is_deterministic a)); [|apply ignores_ret].
    apply ignores_bind; [apply ignores_warning|]. intros _. apply ignores_ret. }
  intros a'. apply ignores_bind; [apply ignores_raise_if_not|]. intros _.
  cbv zeta. apply ignores_bind; [|intros l; apply ignores_lift].
  apply ignores_for_each. intros c.
  repeat (apply ignores_bind; [apply ignores_lift | intros ?]).
  apply ignores_lift.
Qed.

Lemma bind_inr_inv {A B} (c : M Model A) (k : A -> M Model B) w b w' :
  bind c k w = (inr b, w') ->
  exists a w1, c w = (inr a, w1) /\ k a w1 = (inr b, w').
Proof.
  unfold bind. destruct (c w) as [[e|a] w1]; [discriminate|].
  intros H. exists a, w1. auto.
Qed.

(** The raw score series has one row per timestamp. *)
Lemma nll_anomaly_scores_length nll a p w raw w' :
  @nll_anomaly_scores Model nll a p w = (inr raw, w') ->
  length (time_index raw) = len raw.
Proof.
  unfold nll_anomaly_scores. intros H.
  apply bind_inr_inv in H. destruct H as (a' & w1 & _ & H).
  apply bind_inr_inv in H. destruct H as (u & w2 & _ & H).
  cbv zeta in H.
  apply bind_inr_inv in H. destruct H as (l & w3 & _ & H).
  unfold lift, from_times_and_values_2d, from_times_and_values_3d in H.
  destruct (Nat.eqb_spec (length (time_index p))
              (length (map (map (fun x : Q => [x])) (zip_star l))))
    as [E|E]; [|discriminate].
  inversion H; subst. unfold len. cbn. exact E.
Qed.

End IgnoreFacts.

(** ** Rolling mean with full windows *)

Lemma map_fst_combine_eq {A B} (l1 : list A) :
  forall (l2 : list B), length l1 = length l2 -> map fst (combine l1 l2) = l1.
Proof.
  induction l1 as [|a tl IH]; intros [|b l2] H; cbn in *;
    try discriminate; [reflexivity|].
  f_equal. apply IH. lia.
Qed.

Lemma map_snd_combine_eq {A B} (l1 : list A) :
  forall (l2 : list B), length l1 = length l2 -> map snd (combine l1 l2) = l2.
Proof.
  induction l1 as [|a tl IH]; intros [|b l2] H; cbn in *;
    try discriminate; [reflexivity|].
  f_equal. apply IH. lia.
Qed.

(** Dropping the missing values of a column that is missing exactly below
    position [b]. *)
Lemma dropna_threshold {A B} (f : nat -> option B) (g : nat -> B) (b : nat) :
  (forall i, i < b -> f i = None) ->
  (forall i, b <= i -> f i = Some (g i)) ->
  forall n a (ts : list A),
    length ts = n ->
    dropna (combine ts (map f (seq a n)))
    = combine (skipn (b - a) ts) (map g (seq (Nat.max a b) (n - (b - a)))).
Proof.
  intros Hnone Hsome. induction n as [|n IH]; intros a ts Hlen.
  - destruct ts; [|discriminate]. rewrite skipn_nil. reflexivity.
  - destruct ts as [|t ts]; [discriminate|].
    cbn [seq map combine]. unfold dropna. cbn [flat_map snd fst].
    fold (dropna (combine ts (map f (seq (S a) n)))).
    rewrite (IH (S a) ts) by (cbn in Hlen; lia).
    destruct (Nat.lt_ge_cases a b) as [Hab|Hab].
    + rewrite (Hnone a Hab). cbn [app].
      replace (b - a) with (S (b - S a)) by lia. cbn [skipn].
      replace (Nat.max (S a) b) with b by lia.
      replace (Nat.max a b) with b by lia.
      replace (S n - S (b - S a)) with (n - (b - S a)) by lia.
      reflexivity.
    + rewrite (Hsome a Hab). cbn [app].
      replace (b - S a) with 0 by lia. replace (b - a) with 0 by lia.
      cbn [skipn]. rewrite !Nat.sub_0_r.
      replace (Nat.max (S a) b) with (S a) by lia.
      replace (Nat.max a b) with a by lia.
      reflexivity.
Qed.

Lemma rolling_mean_pointwise W (s : TimeSeries) :
  1 <= W ->
  rolling_mean W s
  = map (fun i => if i + 1 <? W then None
                  else Some (mean_axis0 (width s) (n_samples s)
                               (slice (all_values s) (i + 1 - W) (i + 1))))
        (seq 0 (len s)).
Proof.
  intros HW. unfold rolling_mean. apply map_ext_in. intros i Hi.
  apply in_seq in Hi. cbv zeta. rewrite length_slice. fold (len s).
  destruct (Nat.ltb_spec (i + 1) W);
    destruct (Nat.ltb_spec (Nat.min (i + 1) (len s) - (i + 1 - W)) W);
    try reflexivity; lia.
Qed.

Lemma window_transform_is_trailing_mean W (raw : TimeSeries) :
  1 <= W ->
  length (time_index raw) = len raw ->
  is_trailing_mean_of W raw (window_transform_rolling_mean_dropna W raw).
Proof.
  intros HW Hlen. unfold window_transform_rolling_mean_dropna.
  rewrite (rolling_mean_pointwise raw HW).
  rewrite (@dropna_threshold Z _
             (fun i => if i + 1 <? W then None
                       else Some (mean_axis0 (width raw) (n_samples raw)
                                    (slice (all_values raw) (i + 1 - W) (i + 1))))
             (fun i => mean_axis0 (width raw) (n_samples raw)
                         (slice (all_values raw) (i + 1 - W) (i + 1)))
             (W - 1)).
  2: { intros i Hi. destruct (Nat.ltb_spec (i + 1) W); [reflexivity | lia]. }
  2: { intros i Hi. destruct (Nat.ltb_spec (i + 1) W); [lia | reflexivity]. }
  2: { exact Hlen. }
  rewrite Nat.sub_0_r. cbn [Nat.max].
  unfold is_trailing_mean_of, len in *.
  cbn [time_index all_values width n_samples].
  set (vals := map (fun i => mean_axis0 (width raw) (n_samples raw)
                               (slice (all_values raw) (i + 1 - W) (i + 1)))
                   (seq (W - 1) (length (all_values raw) - (W - 1)))).
  assert (Hl : length (skipn (W - 1) (time_index raw)) = length vals).
  { unfold vals. rewrite length_skipn, length_map, length_seq. lia. }
  rewrite (map_fst_combine_eq _ _ Hl), (map_snd_combine_eq _ _ Hl).
  assert (Hv : length vals = length (all_values raw) - (W - 1)).
  { unfold vals. rewrite length_map, length_seq. reflexivity. }
  split; [reflexivity|]. split; [lia|].
  split; [reflexivity|]. split; [reflexivity|].
  intros i c k Hi Hc Hk. unfold value_at at 1. unfold vals.
  rewrite nth_map_seq by lia.
  replace (W - 1 + i + 1 - W) with i by lia.
  replace (W - 1 + i + 1) with (i + W) by lia.
  rewrite mean_axis0_slice by assumption.
  unfold forward_window_mean. f_equal. f_equal. f_equal. lia.
Qed.

(** ** Window smoothing of the likelihood scorer *)

Example NLLScorer_init_gives_nll_scorer :
  NLLScorer_init unit 3 "abs_diff" 1 true = inr (Examples.nll_scorer 3 true).
Proof. reflexivity. Qed.

(** C6: [NLLScorer._score_core_from_prediction] returns the per-timestamp
    scores as they are when [window = 1]; for a larger window it returns
    their trailing rolling mean over full windows, which drops the first
    [window - 1] timestamps, so that [N] raw scores give [N + 1 - window]
    smoothed ones; and the result is the same whatever [window_agg] is. *)
Theorem nll_window_smoothing (Model : Type)
    (nll : list Q -> list (list Q) -> result (list Q))
    (actual_series pred_series raw : TimeSeries) (w w1 : World Model) :
  nll_anomaly_scores nll actual_series pred_series w = (inr raw, w1) ->
  exists r,
    nll_score_core_from_prediction nll actual_series pred_series w
      = (inr r, w1) /\
    (window (self w) = 1 -> r = raw) /\
    (1 < window (self w) -> is_trailing_mean_of (window (self w)) raw r) /\
    (forall b,
       fst (nll_score_core_from_prediction nll actual_series pred_series
              (mkWorld (set_window_agg b (self w)) (log w)))
       = inr r).
Proof.
  intros H.
  pose proof (nll_anomaly_scores_length _ _ _ _ H) as Hlen.
  pose proof (@nll_anomaly_scores_ignores_self Model nll actual_series
                pred_series) as Hig.
  assert (Hself : self w1 = self w).
  { destruct (Hig (self w) (self w) (log w)) as (_ & _ & Hs).
    rewrite world_eta, H in Hs. exact Hs. }
  exists (_window_adjustment_series (window (self w)) raw).
  split; [|split; [|split]].
  - unfold nll_score_core_from_prediction. rewrite (bind_inr _ H).
    unfold bind, get_self, ret. rewrite Hself. reflexivity.
  - intros E. unfold _window_adjustment_series. rewrite E. reflexivity.
  - intros E. unfold _window_adjustment_series.
    destruct (Nat.eqb_spec (window (self w)) 1) as [E1|E1]; [lia|].
    apply window_transform_is_trailing_mean; [lia | exact Hlen].
  - intros b.
    destruct (Hig (set_window_agg b (self w)) (self w) (log w))
      as (Hf & _ & Hs).
    rewrite world_eta, H in Hf. cbn [fst] in Hf.
    unfold nll_score_core_from_prediction, bind.
    destruct (nll_anomaly_scores nll actual_series pred_series
                (mkWorld (set_window_agg b (self w)) (log w)))
      as [[e|raw'] w2]; cbn [fst snd] in *; [discriminate|].
    inversion Hf; subst raw'. cbn. rewrite Hs. reflexivity.
Qed.

Lemma nll_window_smoothing_witness :
  exists r,
    nll_score_core_from_prediction Examples.nll Examples.series5
        Examples.pred5 (mkWorld (Examples.nll_scorer 3 false) [])
      = (inr r, mkWorld (Examples.nll_scorer 3 false) []) /\
    is_trailing_mean_of 3 Examples.nll_raw5 r /\
    fst (nll_score_core_from_prediction Examples.nll Examples.series5
           Examples.pred5 (mkWorld (Examples.nll_scorer 3 true) []))
      = inr r.
Proof.
  destruct (@nll_window_smoothing unit Examples.nll Examples.series5
              Examples.pred5 Examples.nll_raw5
              (mkWorld (Examples.nll_scorer 3 false) [])
              (mkWorld (Examples.nll_scorer 3 false) []) eq_refl)
    as (r & Hr & _ & Hmean & Hagg).
  exists r. split; [exact Hr|]. split.
  - apply Hmean. cbn. lia.
  - exact (Hagg true).
Defined.

(** Through the public method: window 3 turns five raw scores into three, on
    the last three timestamps, with [window_agg] set or not; window 1 returns
    the five raw scores. *)
Example nll_score_from_prediction_lengths :
  (forall b,
     exists r,
       fst (score_from_prediction (nll_methods Examples.nll)
              (PySeries Examples.series5) (PySeries Examples.pred5)
              (mkWorld (Examples.nll_scorer 3 b) [])) = inr (OneScore r) /\
       len r = 3 /\ time_index r = [2; 3; 4]%Z) /\
  fst (score_from_prediction (nll_methods Examples.nll)
         (PySeries Examples.series5) (PySeries Examples.pred5)
         (mkWorld (Examples.nll_scorer 1 false) []))
  = inr (OneScore Examples.nll_raw5).
Proof.
  split; [|vm_compute; reflexivity].
  intros [|]; eexists; (split; [vm_compute; reflexivity | split; reflexivity]).
Qed.

(** ** The difference of two series *)

Lemma Qminus_antisym (x y : Q) : (x - y)%Q = (- (y - x))%Q.
Proof.
  destruct x as [xn xd], y as [yn yd]. unfold Qminus, Qplus, Qopp. cbn.
  f_equal; [ring | apply Pos.mul_comm].
Qed.

Lemma Qabs_minus_sym (x y : Q) : Qabs (x - y) = Qabs (y - x).
Proof.
  destruct x as [xn xd], y as [yn yd]. unfold Qminus, Qplus, Qopp, Qabs. cbn.
  f_equal; [lia | apply Pos.mul_comm].
Qed.

Lemma zip_with_swap {A B C} (f : A -> B -> C) (l1 : list A) :
  forall l2, zip_with f l1 l2 = zip_with (fun y x => f x y) l2 l1.
Proof.
  unfold zip_with. induction l1 as [|a tl IH]; intros [|b l2]; cbn;
    try reflexivity.
  f_equal. apply IH.
Qed.

Lemma map_zip_with {A B C D} (g : C -> D) (f : A -> B -> C) (l1 : list A) :
  forall l2, map g (zip_with f l1 l2) = zip_with (fun x y => g (f x y)) l1 l2.
Proof.
  unfold zip_with. induction l1 as [|a tl IH]; intros [|b l2]; cbn;
    try reflexivity.
  f_equal. apply IH.
Qed.

Lemma zip_with_ext {A B C} (f g : A -> B -> C) (l1 : list A) :
  (forall x y, f x y = g x y) ->
  forall l2, zip_with f l1 l2 = zip_with g l1 l2.
Proof.
  intros H. unfold zip_with. induction l1 as [|a tl IH]; intros [|b l2]; cbn;
    try reflexivity.
  rewrite H. f_equal. apply IH.
Qed.

(** Elementwise [a - b] is the negation of elementwise [b - a]. *)
Lemma sub_values_antisym (va vb : list (list (list Q))) :
  zip_with (zip_with (zip_with Qminus)) va vb
  = map (map (map Qopp)) (zip_with (zip_with (zip_with Qminus)) vb va).
Proof.
  rewrite map_zip_with, (zip_with_swap _ va vb).
  apply zip_with_ext. intros r1 r2.
  rewrite map_zip_with, (zip_with_swap _ r2 r1).
  apply zip_with_ext. intros c1 c2.
  rewrite map_zip_with, (zip_with_swap _ c2 c1).
  apply zip_with_ext. intros x y. apply Qminus_antisym.
Qed.

Lemma abs_sub_values_sym (va vb : list (list (list Q))) :
  map (map (map Qabs)) (zip_with (zip_with (zip_with Qminus)) va vb)
  = map (map (map Qabs)) (zip_with (zip_with (zip_with Qminus)) vb va).
Proof.
  rewrite !map_zip_with, (zip_with_swap _ va vb).
  apply zip_with_ext. intros r1 r2.
  rewrite !map_zip_with, (zip_with_swap _ r2 r1).
  apply zip_with_ext. intros c1 c2.
  rewrite !map_zip_with, (zip_with_swap _ c2 c1).
  apply zip_with_ext. intros x y. apply Qabs_minus_sym.
Qed.

Lemma increasing_sorted (l : list Z) :
  increasing l = true -> StronglySorted Z.lt l.
Proof.
  induction l as [|x tl IH]; intros H; [constructor|].
  destruct tl as [|y tl']; [repeat constructor|].
  cbn [increasing] in H. apply andb_true_iff in H. destruct H as [Hxy Htl].
  apply Z.ltb_lt in Hxy. specialize (IH Htl).
  constructor; [exact IH|].
  apply StronglySorted_inv in IH. destruct IH as [_ Hy].
  constructor; [exact Hxy|].
  eapply Forall_impl; [|exact Hy]. intros z Hz. lia.
Qed.

Lemma sorted_filter (f : Z -> bool) (l : list Z) :
  StronglySorted Z.lt l -> StronglySorted Z.lt (filter f l).
Proof.
  induction 1 as [|x tl Htl IH Hx]; cbn [filter]; [constructor|].
  destruct (f x); [|exact IH].
  constructor; [exact IH|].
  apply Forall_forall. intros z Hz. apply filter_In in Hz.
  rewrite Forall_forall in Hx. apply Hx, Hz.
Qed.

(** Two strictly increasing lists with the same elements are one list. *)
Lemma sorted_same_elements (l1 : list Z) :
  forall l2,
    StronglySorted Z.lt l1 -> StronglySorted Z.lt l2 ->
    (forall x, In x l1 <-> In x l2) -> l1 = l2.
Proof.
  induction l1 as [|x tl IH]; intros l2 H1 H2 Hin.
  - destruct l2 as [|y l2]; [reflexivity|].
    exfalso. apply (proj2 (Hin y)). left. reflexivity.
  - destruct l2 as [|y l2].
    + exfalso. apply (proj1 (Hin x)). left. reflexivity.
    + apply StronglySorted_inv in H1. destruct H1 as [H1 Hx].
      apply StronglySorted_inv in H2. destruct H2 as [H2 Hy].
      rewrite Forall_forall in Hx, Hy.
      assert (Exy : x = y).
      { destruct (proj1 (Hin x) (or_introl eq_refl)) as [E|Hx2]; [auto|].
        destruct (proj2 (Hin y) (or_introl eq_refl)) as [E|Hy1]; [auto|].
        specialize (Hx _ Hy1). specialize (Hy _ Hx2). lia. }
      subst y. f_equal. apply IH; [assumption | assumption |].
      intros z. split; intros Hz.
      * destruct (proj1 (Hin z) (or_intror Hz)) as [E|Hz2]; [|exact Hz2].
        subst z. specialize (Hx _ Hz). lia.
      * destruct (proj2 (Hin z) (or_intror Hz)) as [E|Hz1]; [|exact Hz1].
        subst z. specialize (Hy _ Hz). lia.
Qed.

Lemma mem_time_In t l : mem_time t l = true <-> In t l.
Proof.
  unfold mem_time. rewrite existsb_exists. split.
  - intros (x & Hx & E). apply Z.eqb_eq in E. subst. exact Hx.
  - intros H. exists t. split; [exact H | apply Z.eqb_refl].
Qed.

Lemma pick_self {A} (f : A -> bool) (l : list A) :
  map snd (filter fst (combine (map f l) l)) = filter f l.
Proof.
  induction l as [|a tl IH]; [reflexivity|].
  cbn [map combine filter fst]. destruct (f a); cbn; rewrite IH; reflexivity.
Qed.

Lemma pick_length {A B} (keep : list bool) :
  forall (l1 : list A) (l2 : list B),
    length l1 = length keep -> length l2 = length keep ->
    length (map snd (filter fst (combine keep l1)))
    = length (map snd (filter fst (combine keep l2))).
Proof.
  induction keep as [|k tl IH]; intros [|a l1] [|b l2] H1 H2; cbn in *;
    try discriminate; [reflexivity|].
  destruct k; cbn; rewrite (IH l1 l2) by lia; reflexivity.
Qed.

Lemma slice_intersect_time_index a b :
  time_index (slice_intersect a b)
  = filter (fun t => mem_time t (time_index b)) (time_index a).
Proof. unfold slice_intersect. cbn. apply pick_self. Qed.

Lemma wf_series_inv s :
  wf_series s = true ->
  length (time_index s) = len s /\ StronglySorted Z.lt (time_index s).
Proof.
  unfold wf_series. intros H.
  apply andb_true_iff in H. destruct H as [H _].
  apply andb_true_iff in H. destruct H as [Hl Hi].
  apply Nat.eqb_eq in Hl. split; [exact Hl | apply increasing_sorted, Hi].
Qed.

(** Cutting [a] to [b] and [b] to [a] gives the same timestamps. *)
Lemma slice_intersect_time_index_sym a b :
  wf_series a = true -> wf_series b = true ->
  time_index (slice_intersect a b) = time_index (slice_intersect b a).
Proof.
  intros Ha Hb.
  apply wf_series_inv in Ha, Hb. destruct Ha as [_ Ha], Hb as [_ Hb].
  rewrite !slice_intersect_time_index.
  apply sorted_same_elements; try (apply sorted_filter; assumption).
  intros x. rewrite !filter_In, !mem_time_In. tauto.
Qed.

Lemma slice_intersect_len a b :
  wf_series a = true ->
  len (slice_intersect a b) = length (time_index (slice_intersect a b)).
Proof.
  intros Ha. apply wf_series_inv in Ha. destruct Ha as [Ha _].
  unfold slice_intersect, len. cbn.
  apply pick_length; rewrite length_map; [symmetry; exact Ha | reflexivity].
Qed.

Lemma slice_intersect_len_sym a b :
  wf_series a = true -> wf_series b = true ->
  len (slice_intersect a b) = len (slice_intersect b a).
Proof.
  intros Ha Hb. rewrite !slice_intersect_len by assumption.
  rewrite (@slice_intersect_time_index_sym a b Ha Hb). reflexivity.
Qed.

Lemma diff_series_is_value (Model : Type) a b (w : World Model) :
  _diff_series a b w = (diff_series_value (diff_fn (self w)) a b, w).
Proof.
  unfold _diff_series, diff_series_value, bind, get_self, lift.
  destruct (_intersect a b) as [e|[a' b']]; cbn [result_bind fst snd];
    [reflexivity|].
  destruct (String.eqb (diff_fn (self w)) "abs_diff").
  - destruct (ts_sub a' b'); reflexivity.
  - destruct (String.eqb (diff_fn (self w)) "diff"); reflexivity.
Qed.

Lemma ts_sub_antisym a b :
  time_index a = time_index b ->
  ts_sub a b = result_map ts_neg (ts_sub b a).
Proof.
  intros Ht. unfold ts_sub, same_shape.
  rewrite (Nat.eqb_sym (len a)), (Nat.eqb_sym (width a)),
    (Nat.eqb_sym (n_samples a)).
  destruct (len b =? len a) eqn:El; [|reflexivity].
  destruct (Nat.eqb_spec (width b) (width a)) as [Ew|]; [|reflexivity].
  destruct (Nat.eqb_spec (n_samples b) (n_samples a)) as [En|]; [|reflexivity].
  cbn. unfold ts_neg, ts_map. cbn.
  rewrite Ht, Ew, En, <- sub_values_antisym. reflexivity.
Qed.

Lemma ts_abs_sub_sym a b :
  time_index a = time_index b ->
  result_map (ts_map Qabs) (ts_sub a b) = result_map (ts_map Qabs) (ts_sub b a).
Proof.
  intros Ht. unfold ts_sub, same_shape.
  rewrite (Nat.eqb_sym (len a)), (Nat.eqb_sym (width a)),
    (Nat.eqb_sym (n_samples a)).
  destruct (len b =? len a) eqn:El; [|reflexivity].
  destruct (Nat.eqb_spec (width b) (width a)) as [Ew|]; [|reflexivity].
  destruct (Nat.eqb_spec (n_samples b) (n_samples a)) as [En|]; [|reflexivity].
  cbn. unfold ts_map. cbn.
  rewrite Ht, Ew, En, abs_sub_values_sym. reflexivity.
Qed.

(** C7: for well-formed series [a] and [b], [_diff_series] under
    [diff_fn = "diff"] gives on [(a, b)] the negation of what it gives on
    [(b, a)], and under [diff_fn = "abs_diff"] it gives the same on both;
    this covers the error cases, where both orders raise the same error.
    With equal widths, equal numbers of samples and a non-empty time
    intersection both orders return a series. *)
Theorem diff_series_antisymmetric_symmetric (Model : Type)
    (a b : TimeSeries) (w : World Model) :
  wf_series a = true -> wf_series b = true ->
  (diff_fn (self w) = "diff"%string ->
   _diff_series a b w = (result_map ts_neg (fst (_diff_series b a w)), w)) /\
  (diff_fn (self w) = "abs_diff"%string ->
   _diff_series a b w = _diff_series b a w) /\
  (width a = width b -> n_samples a = n_samples b ->
   len (slice_intersect a b) <> 0 ->
   diff_fn (self w) = "diff"%string \/ diff_fn (self w) = "abs_diff"%string ->
   exists d1 d2,
     _diff_series a b w = (inr d1, w) /\ _diff_series b a w = (inr d2, w)).
Proof.
  intros Ha Hb.
  pose proof (@slice_intersect_time_index_sym a b Ha Hb) as Ht.
  pose proof (@slice_intersect_len_sym a b Ha Hb) as Hl.
  rewrite !diff_series_is_value. cbn [fst].
  unfold diff_series_value, _intersect. rewrite <- Hl.
  split; [|split].
  - intros E. rewrite E. f_equal.
    destruct (len (slice_intersect a b) =? 0); [reflexivity|].
    cbn. apply ts_sub_antisym, Ht.
  - intros E. rewrite E. f_equal.
    destruct (len (slice_intersect a b) =? 0); [reflexivity|].
    cbn. apply ts_abs_sub_sym, Ht.
  - intros Ew En Hne Hfn.
    destruct (Nat.eqb_spec (len (slice_intersect a b)) 0) as [E0|_];
      [contradiction|].
    cbn [result_bind fst snd].
    assert (Hs1 : same_shape (slice_intersect a b) (slice_intersect b a) = true).
    { unfold same_shape. rewrite Hl. cbn [slice_intersect width n_samples].
      rewrite Ew, En, !Nat.eqb_refl. reflexivity. }
    assert (Hs2 : same_shape (slice_intersect b a) (slice_intersect a b) = true).
    { unfold same_shape. rewrite Hl. cbn [slice_intersect width n_samples].
      rewrite Ew, En, !Nat.eqb_refl. reflexivity. }
    unfold ts_sub. rewrite Hs1, Hs2.
    destruct Hfn as [E|E]; rewrite E; cbn; eauto.
Qed.

Lemma diff_series_antisymmetric_symmetric_witness :
  _diff_series Examples.series5 Examples.later4
      (Examples.world0 Examples.diff_scorer)
    = (result_map ts_neg
         (fst (_diff_series Examples.later4 Examples.series5
                 (Examples.world0 Examples.diff_scorer))),
       Examples.world0 Examples.diff_scorer) /\
  _diff_series Examples.series5 Examples.later4
      (Examples.world0 (Examples.new_scorer 1 false false))
    = _diff_series Examples.later4 Examples.series5
        (Examples.world0 (Examples.new_scorer 1 false false)) /\
  exists d1 d2,
    _diff_series Examples.series5 Examples.later4
        (Examples.world0 Examples.diff_scorer)
      = (inr d1, Examples.world0 Examples.diff_scorer) /\
    _diff_series Examples.later4 Examples.series5
        (Examples.world0 Examples.diff_scorer)
      = (inr d2, Examples.world0 Examples.diff_scorer).
Proof.
  destruct (@diff_series_antisymmetric_symmetric Examples.Model
              Examples.series5 Examples.later4
              (Examples.world0 Examples.diff_scorer) eq_refl eq_refl)
    as (Hdiff & _ & Hok).
  destruct (@diff_series_antisymmetric_symmetric Examples.Model
              Examples.series5 Examples.later4
              (Examples.world0 (Examples.new_scorer 1 false false))
              eq_refl eq_refl)
    as (_ & Habs & _).
  split; [apply Hdiff; reflexivity|].
  split; [apply Habs; reflexivity|].
  apply Hok; [reflexivity | reflexivity | cbn; discriminate | left; reflexivity].
Defined.

(** On the common timestamps 2, 3, 4: [3 - 10], [4 - 20], [5 - 30]. *)
Example diff_series_on_overlap :
  fst (_diff_series Examples.series5 Examples.later4
         (Examples.world0 Examples.diff_scorer))
  = inr (mkTimeSeries [2; 3; 4]%Z 1 1
           [[[-7 # 1]]; [[-16 # 1]]; [[-25 # 1]]]%Q).
Proof. vm_compute. reflexivity. Qed.

(** ** Shapes of the tabular data *)

Lemma length_concat_map_const {A B} (f : A -> list B) (n : nat) (l : list A) :
  (forall x, In x l -> length (f x) = n) ->
  length (concat (map f l)) = length l * n.
Proof.
  induction l as [|a tl IH]; intros H; [reflexivity|].
  cbn [map concat length]. rewrite length_app, IH, H.
  - reflexivity.
  - left. reflexivity.
  - intros x Hx. apply H. right. exact Hx.
Qed.

Lemma length_flatten4 (v : list (list (list (list Q)))) (C S W : nat) :
  Forall (fun a => length a = C /\
            Forall (fun b => length b = S /\
                      Forall (fun c => length c = W) b) a) v ->
  length (flatten4 v) = length v * (C * (S * W)).
Proof.
  intros H. unfold flatten4. apply length_concat_map_const.
  intros a Ha. rewrite Forall_forall in H. destruct (H a Ha) as [HC Hb].
  rewrite <- HC. apply length_concat_map_const.
  intros b Hb'. rewrite Forall_forall in Hb. destruct (Hb b Hb') as [HS Hc].
  rewrite <- HS. rewrite <- (map_id b) at 1.
  apply length_concat_map_const.
  intros c Hc'. rewrite Forall_forall in Hc. apply Hc, Hc'.
Qed.

Lemma Forall_map_seq {A} (P : A -> Prop) (f : nat -> A) a n :
  (forall i, P (f i)) -> Forall P (map f (seq a n)).
Proof.
  intros H. apply Forall_forall. intros x Hx.
  apply in_map_iff in Hx. destruct Hx as (i & <- & _). apply H.
Qed.

(** The windows of an array with at least [W] rows: [T + 1 - W] of them,
    each of shape (C, S, W). *)
Lemma sliding_window_view_shape arr C S W :
  W <= length arr ->
  exists v,
    sliding_window_view arr C S W = inr v /\
    length v = length arr + 1 - W /\
    length (flatten4 v) = (length arr + 1 - W) * (C * (S * W)).
Proof.
  intros H. unfold sliding_window_view.
  destruct (Nat.ltb_spec (length arr) W) as [Hlt|_]; [lia|].
  eexists. split; [reflexivity|].
  assert (Hl : forall f : nat -> list (list (list Q)),
             length (map f (seq 0 (length arr + 1 - W)))
             = length arr + 1 - W)
    by (intros f; rewrite length_map, length_seq; reflexivity).
  split; [apply Hl|].
  rewrite <- (Hl (fun t => map (fun c => map (fun s =>
                    map (fun w => value_at arr (t + w) c s) (seq 0 W))
                    (seq 0 S)) (seq 0 C))) at 2.
  apply length_flatten4.
  apply Forall_map_seq. intros t.
  split; [rewrite length_map, length_seq; reflexivity|].
  apply Forall_map_seq. intros c.
  split; [rewrite length_map, length_seq; reflexivity|].
  apply Forall_map_seq. intros s.
  rewrite length_map, length_seq. reflexivity.
Qed.

Lemma reshape_rows_count n flat k :
  n <> 0 -> length flat = k * n ->
  exists rows, reshape_rows n flat = inr rows /\ length rows = k.
Proof.
  intros Hn Hl. unfold reshape_rows.
  destruct (Nat.eqb_spec n 0) as [E|_]; [contradiction|].
  rewrite Hl, Nat.Div0.mod_mul, Nat.eqb_refl. cbn [orb negb].
  eexists. split; [reflexivity|].
  rewrite length_map, length_seq. apply Nat.div_mul, Hn.
Qed.

(** Joint tabularization of one series: one row per window. *)
Lemma tabularize_series_joint_rows W (series : TimeSeries) :
  1 <= W -> W <= len series -> 1 <= width series ->
  exists rows,
    _tabularize_series_joint W [series] = inr [rows] /\
    length rows = (len series + 1 - W) * n_samples series.
Proof.
  intros HW Hlen HC. unfold _tabularize_series_joint. cbn [map result_all].
  destruct (@sliding_window_view_shape (all_values series) (width series)
              (n_samples series) W Hlen) as (v & Ev & _ & Hflat).
  rewrite Ev. cbn [result_bind].
  destruct (@reshape_rows_count (W * width series) (flatten4 v)
              ((len series + 1 - W) * n_samples series))
    as (rows & Er & Hr).
  - nia.
  - rewrite Hflat. unfold len. nia.
  - rewrite Er. cbn. exists rows. split; [reflexivity | exact Hr].
Qed.

Lemma reshape_blocks_shape C W flat k :
  C * W <> 0 -> length flat = k * (C * W) ->
  exists blocks,
    reshape_blocks C W flat = inr blocks /\
    length blocks = C /\
    Forall (fun rows => length rows = k) blocks.
Proof.
  intros Hn Hl. unfold reshape_blocks.
  destruct (Nat.eqb_spec (C * W) 0) as [E|_]; [contradiction|].
  rewrite Hl, Nat.Div0.mod_mul, Nat.eqb_refl. cbn [orb negb].
  rewrite Nat.div_mul by exact Hn.
  eexists. split; [reflexivity|]. split.
  - rewrite length_map, length_seq. reflexivity.
  - apply Forall_map_seq. intros c. rewrite length_map, length_seq.
    reflexivity.
Qed.

Lemma Forall_map_seq_in {A} (P : A -> Prop) (f : nat -> A) a n :
  (forall i, a <= i < a + n -> P (f i)) -> Forall P (map f (seq a n)).
Proof.
  intros H. apply Forall_forall. intros x Hx.
  apply in_map_iff in Hx. destruct Hx as (i & <- & Hi).
  apply in_seq in Hi. apply H. exact Hi.
Qed.

(** Component-wise tabularization of one series: per component, one row per
    window. *)
Lemma tabularize_series_component_wise_rows W (series : TimeSeries) :
  1 <= W -> W <= len series -> 1 <= width series ->
  exists blocks,
    _tabularize_series_component_wise W [series] = inr [blocks] /\
    length blocks = width series /\
    Forall (fun rows => length rows = (len series + 1 - W) * n_samples series)
           blocks.
Proof.
  intros HW Hlen HC. unfold _tabularize_series_component_wise.
  cbn [map result_all]. unfold sliding_window_view.
  destruct (Nat.ltb_spec (length (all_values series)) W) as [Hlt|_];
    [unfold len in Hlen; lia|].
  cbn [result_bind].
  set (C := width series). set (S := n_samples series).
  set (T' := length (all_values series) + 1 - W).
  set (v := map _ (seq 0 T')).
  assert (Hflat : length (flatten4 (stack_axis1 C v)) = C * (T' * (S * W))).
  { rewrite (@length_flatten4 _ T' S W).
    - unfold stack_axis1. rewrite length_map, length_seq. reflexivity.
    - unfold stack_axis1. apply Forall_map_seq_in. intros c Hc.
      split; [unfold v; rewrite !length_map, length_seq; reflexivity|].
      unfold v. rewrite map_map. apply Forall_map_seq. intros t.
      rewrite nth_map_seq by lia.
      split; [rewrite length_map, length_seq; reflexivity|].
      apply Forall_map_seq. intros s.
      rewrite length_map, length_seq. reflexivity. }
  destruct (@reshape_blocks_shape C W (flatten4 (stack_axis1 C v)) (T' * S))
    as (blocks & Eb & Hb1 & Hb2).
  - unfold C. nia.
  - rewrite Hflat. nia.
  - rewrite Eb. cbn. exists blocks. split; [reflexivity|].
    split; [exact Hb1 | exact Hb2].
Qed.

(** ** Length of the windowed score *)

Section WindowedScoreLength.

Variable Model : Type.
Variable model_score : Model -> list (list Q) -> result (list Q).

(** The window model answers with one score per row. *)
Hypothesis one_score_per_row :
  forall m rows, exists sc, model_score m rows = inr sc /\ length sc = length rows.

Lemma from_times_and_values_1d_ok times values :
  length times = length values ->
  exists ts,
    from_times_and_values_1d times values = inr ts /\
    time_index ts = times /\ len ts = length values /\
    length (time_index ts) = len ts.
Proof.
  intros H. unfold from_times_and_values_1d, from_times_and_values_2d,
    from_times_and_values_3d.
  rewrite !length_map, H, Nat.eqb_refl.
  eexists. split; [reflexivity|]. unfold len. cbn.
  rewrite !length_map. auto.
Qed.

(** The end of [_score_core]: with or without window aggregation, the
    series returned has the length and time index of the window-wise one. *)
Lemma windowed_score_core_tail (ts : TimeSeries) (w : World Model) :
  length (time_index ts) = len ts ->
  exists r,
    (if (1 <? window (self w)) && window_agg (self w)
     then bind (_fun_window_agg [ts] (window (self w)))
               (fun agg => match agg with
                           | first :: _ => ret first
                           | [] => raise IndexError
                           end)
     else ret ts) w = (inr r, w) /\
    len r = len ts /\ time_index r = time_index ts.
Proof.
  intros Hts.
  destruct ((1 <? window (self w)) && window_agg (self w)).
  - destruct (@fun_window_agg_one ts (window (self w)) Hts)
      as (r & Er & Ht & Hl & _).
    exists r. split; [|auto].
    unfold _fun_window_agg. cbn [for_each].
    unfold bind, lift, ret. rewrite Er. reflexivity.
  - exists ts. auto.
Qed.

Lemma windowed_score_core_joint_length (d : TimeSeries) (w : World Model) m :
  n_samples d = 1 ->
  length (time_index d) = len d ->
  1 <= width d ->
  1 <= window (self w) <= len d ->
  width_trained_on (self w) = Some (width d) ->
  negb (component_wise (self w)) || (width d =? 1) = true ->
  model (self w) = Some (SingleModel m) ->
  exists r,
    windowed_score_core model_score d w = (inr r, w) /\
    len r = len d + 1 - window (self w) /\
    time_index r = skipn (window (self w) - 1) (time_index d).
Proof.
  intros Hn Ht HC [HW Hlen] Hwt Hbranch Hmodel.
  unfold windowed_score_core.
  unfold bind at 1. cbn [get_self]. cbv zeta.
  rewrite Hwt. cbn [forallb]. rewrite Nat.eqb_refl. cbn [andb raise_if_not].
  unfold bind at 1. cbn [ret].
  rewrite Hbranch.
  destruct (@tabularize_series_joint_rows (window (self w)) d HW Hlen HC)
    as (rows & Erows & Hrows).
  rewrite Hn, Nat.mul_1_r in Hrows.
  destruct (one_score_per_row m rows) as (sc & Esc & Hsc).
  destruct (@from_times_and_values_1d_ok
              (skipn (window (self w) - 1) (time_index d)) sc)
    as (ts & Ets & Hts1 & Hts2 & Hts3).
  { rewrite length_skipn, Hsc, Hrows, Ht. lia. }
  destruct (windowed_score_core_tail ts w Hts3) as (r & Er & Hr1 & Hr2).
  exists r. split; [|split; [lia | congruence]].
  rewrite <- Er. unfold bind at 1.
  match goal with
  | |- context [bind (lift (_tabularize_series_joint _ _)) ?k w] =>
      assert (E1 : bind (lift (_tabularize_series_joint (window (self w)) [d]))
                     k w = (inr [ts], w))
  end.
  { unfold bind at 1. unfold lift at 1. rewrite Erows.
    cbn [for_each]. rewrite Hmodel.
    unfold bind at 1. unfold bind at 1. unfold lift at 1. rewrite Esc.
    unfold bind at 1. cbn [ret combine for_each fst snd].
    unfold bind at 1. unfold lift at 1. rewrite Ets. reflexivity. }
  rewrite E1.
  destruct ((1 <? window (self w)) && window_agg (self w)); reflexivity.
Qed.

Lemma from_times_and_values_2d_ok times C values :
  length times = length values ->
  exists ts,
    from_times_and_values_2d times C values = inr ts /\
    time_index ts = times /\ len ts = length values /\
    length (time_index ts) = len ts.
Proof.
  intros H. unfold from_times_and_values_2d, from_times_and_values_3d.
  rewrite !length_map, H, Nat.eqb_refl.
  eexists. split; [reflexivity|]. unfold len. cbn.
  rewrite !length_map. auto.
Qed.

Lemma parallel_apply_scores (k : nat) (items : list (Model * list (list Q))) :
  Forall (fun p => length (snd p) = k) items ->
  exists l,
    _parallel_apply items (fun p => model_score (fst p) (snd p)) = inr l /\
    length l = length items /\
    Forall (fun sc => length sc = k) l.
Proof.
  unfold _parallel_apply.
  induction 1 as [|p tl Hp Htl IH]; cbn [map result_all].
  - exists []. repeat split. constructor.
  - destruct (one_score_per_row (fst p) (snd p)) as (sc & Esc & Hsc).
    destruct IH as (l & El & Hl1 & Hl2).
    exists (sc :: l). rewrite Esc, El. cbn. repeat split.
    + f_equal. exact Hl1.
    + constructor; [congruence | exact Hl2].
Qed.

Lemma Forall_snd_combine {A B} (P : B -> Prop) (l1 : list A) :
  forall l2, Forall P l2 -> Forall (fun p => P (snd p)) (combine l1 l2).
Proof.
  induction l1 as [|a tl IH]; intros l2 H; [constructor|].
  destruct H as [|b l2 Hb Hl2]; [constructor|].
  cbn [combine]. constructor; [exact Hb | apply IH, Hl2].
Qed.

Lemma np_array_2d_uniform (k : nat) (rows : list (list Q)) :
  Forall (fun r => length r = k) rows -> np_array_2d rows = inr rows.
Proof.
  intros H. unfold np_array_2d. destruct rows as [|r0 tl]; [reflexivity|].
  replace (forallb (fun r => length r =? length r0) (r0 :: tl)) with true;
    [reflexivity|].
  symmetry. apply forallb_forall. intros r Hr. rewrite Forall_forall in H.
  rewrite (H r Hr), (H r0 (or_introl eq_refl)). apply Nat.eqb_refl.
Qed.

Lemma fold_min_uniform (k : nat) (ns : list nat) :
  Forall (fun n => n = k) ns -> fold_right Nat.min k ns = k.
Proof.
  induction 1 as [|n tl Hn Htl IH]; cbn [fold_right]; [reflexivity|].
  rewrite IH, Hn. apply Nat.min_id.
Qed.

(** Unpacking rows of one length [k]: [k] tuples. *)
Lemma length_zip_star (k : nat) (rows : list (list Q)) :
  rows <> [] -> Forall (fun r => length r = k) rows ->
  length (zip_star rows) = k.
Proof.
  intros Hne H. unfold zip_star. destruct rows as [|r0 tl]; [contradiction|].
  rewrite length_map, length_seq.
  pose proof H as H0. apply Forall_inv in H0. rewrite H0.
  apply fold_min_uniform. apply Forall_forall. intros n Hn.
  apply in_map_iff in Hn. destruct Hn as (r & <- & Hr).
  rewrite Forall_forall in H. apply H, Hr.
Qed.

Lemma windowed_score_core_component_wise_length (d : TimeSeries)
    (w : World Model) ms :
  n_samples d = 1 ->
  length (time_index d) = len d ->
  1 <= width d ->
  1 <= window (self w) <= len d ->
  width_trained_on (self w) = Some (width d) ->
  negb (component_wise (self w)) || (width d =? 1) = false ->
  model (self w) = Some (SubModels ms) ->
  length ms = width d ->
  exists r,
    windowed_score_core model_score d w = (inr r, w) /\
    len r = len d + 1 - window (self w) /\
    time_index r = skipn (window (self w) - 1) (time_index d).
Proof.
  intros Hn Ht HC [HW Hlen] Hwt Hbranch Hmodel Hms.
  unfold windowed_score_core.
  unfold bind at 1. cbn [get_self]. cbv zeta.
  rewrite Hwt. cbn [forallb]. rewrite Nat.eqb_refl. cbn [andb raise_if_not].
  unfold bind at 1. cbn [ret].
  rewrite Hbranch.
  destruct (@tabularize_series_component_wise_rows (window (self w)) d
              HW Hlen HC) as (blocks & Eb & Hb1 & Hb2).
  rewrite Hn, Nat.mul_1_r in Hb2.
  set (T' := len d + 1 - window (self w)) in *.
  set (tabular := map (fun c => flat_map (fun tab => nth c tab []) [blocks])
                      (seq 0 (width d))).
  assert (Ec : concatenate_axis1 (map width [d]) [blocks] = inr tabular).
  { unfold concatenate_axis1. cbn [map forallb]. rewrite Nat.eqb_refl.
    reflexivity. }
  assert (Htab : Forall (fun rows => length rows = T') tabular).
  { unfold tabular. apply Forall_map_seq_in. intros c Hc.
    cbn [flat_map]. rewrite app_nil_r.
    rewrite Forall_forall in Hb2. apply Hb2. apply nth_In. lia. }
  assert (Htabl : length tabular = width d).
  { unfold tabular. rewrite length_map, length_seq. reflexivity. }
  destruct (@parallel_apply_scores T' (combine ms tabular))
    as (l & El & Hl1 & Hl2).
  { apply Forall_snd_combine with (P := fun rows => length rows = T').
    exact Htab. }
  rewrite length_combine, Hms, Htabl, Nat.min_id in Hl1.
  assert (Hslices : Forall (fun r => length r = T')
                      (map (fun row : list Q =>
                              slice row 0 (0 + len d + 1 - window (self w))) l)).
  { apply Forall_forall. intros r Hr. apply in_map_iff in Hr.
    destruct Hr as (row & <- & Hrow). rewrite length_slice.
    rewrite Forall_forall in Hl2. rewrite (Hl2 row Hrow). unfold T'. lia. }
  destruct (@from_times_and_values_2d_ok
              (skipn (window (self w) - 1) (time_index d)) (length l)
              (zip_star (map (fun row : list Q =>
                                slice row 0 (0 + len d + 1 - window (self w)))
                             l)))
    as (ts & Ets & Hts1 & Hts2 & Hts3).
  { rewrite length_skipn, Ht.
    rewrite (@length_zip_star T'); [unfold T'; lia | | exact Hslices].
    destruct l; [cbn in Hl1; lia | discriminate]. }
  rewrite (@length_zip_star T') in Hts2;
    [| destruct l; [cbn in Hl1; lia | discriminate] | exact Hslices].
  destruct (windowed_score_core_tail ts w Hts3) as (r & Er & Hr1 & Hr2).
  exists r. split; [|split; [lia | congruence]].
  rewrite <- Er. unfold bind at 1.
  match goal with
  | |- context [bind (lift (_tabularize_series_component_wise _ _)) ?k w] =>
      assert (E1 : bind (lift (_tabularize_series_component_wise
                                 (window (self w)) [d])) k w = (inr [ts], w))
  end.
  { unfold bind at 1. unfold lift at 1. rewrite Eb.
    unfold bind at 1. unfold lift at 1. rewrite Ec.
    rewrite Hmodel.
    unfold bind at 1. unfold lift at 1. rewrite El.
    unfold bind at 1. unfold lift at 1. rewrite (np_array_2d_uniform Hl2).
    unfold lift, _convert_tabular_to_series.
    cbn [_convert_tabular_to_series_from]. rewrite Ets. reflexivity. }
  rewrite E1.
  destruct ((1 <? window (self w)) && window_agg (self w)); reflexivity.
Qed.

End WindowedScoreLength.

Lemma extract_deterministic_result (Model : Type) s name (w : World Model) :
  exists d wd,
    _extract_deterministic s name w = (inr d, wd) /\
    self wd = self w /\
    n_samples d = 1 /\ len d = len s /\ width d = width s /\
    time_index d = time_index s.
Proof.
  unfold _extract_deterministic, is_deterministic.
  destruct (Nat.eqb_spec (n_samples s) 1) as [E|E]; cbn [negb].
  - exists s, w. repeat split; auto.
  - destruct (quantile_is_deterministic s) as (_ & Ht & Hw & Hl).
    eexists. eexists. split; [reflexivity|]. cbn [self].
    repeat split; auto.
Qed.

(** C1, as the code has it: on a fitted windowed scorer whose window model
    gives one score per row, [score] of a single series with
    [1 <= window <= len(series)] returns one score series of length
    [len(series) - window + 1], on the time index of the input without its
    first [window - 1] timestamps, whether [window_agg] is set or not. *)
Theorem windowed_score_length (Model : Type)
    (model_fit : Model -> list (list Q) -> result Model)
    (model_score : Model -> list (list Q) -> result (list Q))
    (series : TimeSeries) (w : World Model) :
  (forall m rows,
     exists sc, model_score m rows = inr sc /\ length sc = length rows) ->
  wf_series series = true ->
  1 <= width series ->
  single_series_support (self w) = true ->
  truthy (_fit_called (self w)) = true ->
  width_trained_on (self w) = Some (width series) ->
  model_ready (self w) (width series) ->
  1 <= window (self w) <= len series ->
  exists r w',
    score (windowed_methods model_fit model_score) (PySeries series) w
      = (inr (OneScore r), w') /\
    self w' = self w /\
    len r = len series - window (self w) + 1 /\
    time_index r = skipn (window (self w) - 1) (time_index series).
Proof.
  intros Hmodel Hwf HC Hsss Hfit Hwt Hready HW.
  apply wf_series_inv in Hwf. destruct Hwf as [Htl _].
  destruct (extract_deterministic_result series "series" w)
    as (d & wd & Ed & Hself & Hn & Hl & Hwd & Htd).
  assert (Hcore : exists r,
             windowed_score_core model_score d wd = (inr r, wd) /\
             len r = len d + 1 - window (self wd) /\
             time_index r = skipn (window (self wd) - 1) (time_index d)).
  { unfold model_ready in Hready.
    destruct (negb (component_wise (self w)) || (width series =? 1)) eqn:Eb.
    - destruct Hready as (m & Hm).
      apply windowed_score_core_joint_length with (m := m);
        rewrite ?Hself, ?Hwd, ?Hl, ?Htd; auto.
    - destruct Hready as (ms & Hm & Hlen).
      apply windowed_score_core_component_wise_length with (ms := ms);
        rewrite ?Hself, ?Hwd, ?Hl, ?Htd; auto. }
  destruct Hcore as (r & Er & Hr1 & Hr2).
  exists r, wd. rewrite Hself, Hl in Hr1. rewrite Hself, Htd in Hr2.
  split; [|split; [exact Hself | split; [lia | exact Hr2]]].
  unfold score.
  unfold bind at 1.
  unfold _check_single_series_support, bind at 1, get_self, raise_if_not.
  rewrite Hsss. cbn [ret].
  rewrite (bind_inr _ (check_if_fit_called_passes _ Hfit)).
  cbv zeta. cbn [series2seq].
  assert (E1 : for_each (fun x => bind (_assert_timeseries x) (fun s =>
                           bind (_check_window_size s) (fun _ => ret s)))
                 [PySeries series] w = (inr [series], w)).
  { cbn [for_each _assert_timeseries].
    unfold _check_window_size, bind, get_self, raise_if_not, ret.
    destruct (Nat.leb_spec (window (self w)) (len series)) as [_|Hbad];
      [reflexivity | lia]. }
  rewrite (bind_inr _ E1).
  assert (E2 : for_each (fun s => _extract_deterministic s "series")
                 [series] w = (inr [d], wd)).
  { cbn [for_each]. unfold bind at 1. rewrite Ed. reflexivity. }
  rewrite (bind_inr _ E2).
  assert (E3 : for_each (_score_core (windowed_methods model_fit model_score))
                 [d] wd = (inr [r], wd)).
  { cbn [for_each _score_core windowed_methods]. unfold bind at 1.
    rewrite Er. reflexivity. }
  rewrite (bind_inr _ E3). reflexivity.
Qed.

Lemma examples_model_one_score_per_row :
  forall (m : Examples.Model) rows,
    exists sc, Examples.model_score m rows = inr sc /\ length sc = length rows.
Proof.
  intros m rows. eexists. split; [reflexivity | apply length_map].
Qed.

Lemma windowed_score_length_witness :
  exists r w',
    score Examples.methods (PySeries Examples.series5) Examples.fitted3
      = (inr (OneScore r), w') /\
    self w' = self Examples.fitted3 /\
    len r = len Examples.series5 - window (self Examples.fitted3) + 1 /\
    time_index r
    = skipn (window (self Examples.fitted3) - 1)
            (time_index Examples.series5).
Proof.
  apply (@windowed_score_length Examples.Model Examples.model_fit
           Examples.model_score Examples.series5 Examples.fitted3).
  - exact examples_model_one_score_per_row.
  - reflexivity.
  - cbn. lia.
  - reflexivity.
  - reflexivity.
  - reflexivity.
  - unfold model_ready. cbn. eexists. reflexivity.
  - cbn. lia.
Defined.

(** C1, as stated, fails: with window 3 and window aggregation set, the
    score of a series of length 5 has length 3, not 5. *)
Lemma score_length_with_window_agg :
  window (self Examples.fitted3) = 3 /\
  window_agg (self Examples.fitted3) = true /\
  truthy (_fit_called (self Examples.fitted3)) = true /\
  len Examples.series5 = 5 /\
  exists r,
    fst (score Examples.methods (PySeries Examples.series5) Examples.fitted3)
      = inr (OneScore r) /\
    len r = 3 /\
    len r <> len Examples.series5.
Proof.
  repeat (split; [reflexivity|]).
  eexists. split; [vm_compute; reflexivity|].
  split; [reflexivity | cbn; lia].
Qed.

(** The same on the component-wise path: two components, window 2, window
    aggregation set, length 4 in, length 3 out. *)
Example component_wise_score_length :
  model_ready (self Examples.fitted_component_wise) 2 /\
  exists r,
    fst (score Examples.methods (PySeries Examples.bivariate4)
           Examples.fitted_component_wise) = inr (OneScore r) /\
    width r = 2 /\ len r = 3 /\ time_index r = [1; 2; 3]%Z.
Proof.
  split.
  - unfold model_ready. cbn. eexists. split; reflexivity.
  - eexists. split; [vm_compute; reflexivity|]. repeat split.
Qed.

(** ** What [fit] leaves for [score] *)

Lemma result_all_length {A} (l : list (result A)) :
  forall r, result_all l = inr r -> length r = length l.
Proof.
  induction l as [|x tl IH]; intros r; cbn [result_all].
  - intros H. inversion H. reflexivity.
  - destruct x as [e|a]; cbn [result_bind]; [discriminate|].
    destruct (result_all tl) as [e|r'] eqn:E; cbn [result_map];
      [discriminate|].
    intros H. inversion H. cbn [length]. f_equal. apply IH. reflexivity.
Qed.

(** A validation of [fit] that returns on a non-empty input has recorded the
    width of the first series and changed nothing else. *)
Lemma fit_validation_returns_state (Model : Type) (series : pyarg)
    (w w1 : World Model) (l : list TimeSeries) :
  fit_validation series w = (inr l, w1) ->
  (l = [] /\ self w1 = self w) \/
  (exists s0 rest, l = s0 :: rest /\
                   self w1 = set_width_trained_on (width s0) (self w)).
Proof.
  unfold fit_validation. unfold bind at 1.
  pose proof (check_single_series_support_self w) as Hs.
  destruct (_check_single_series_support w) as [[e0|[]] w0]; cbn in Hs;
    subst w0; [discriminate|].
  destruct (series2seq series) as [|x tl]; cbn [fit_loop].
  - unfold ret. intros H. inversion H. left. auto.
  - unfold bind at 1.
    destruct x as [s| |]; cbn [_assert_timeseries]; unfold raise;
      try discriminate.
    cbn [ret Nat.eqb]. unfold bind at 1. unfold modify_self at 1.
    set (w0 := mkWorld (set_width_trained_on (width s) (self w)) (log w)).
    intros H. right.
    assert (Hst : stable eq
              (bind (_check_window_size s) (fun _ =>
               bind (_extract_deterministic s "series") (fun _ =>
               bind (@fit_loop Model 1 tl) (fun rest => ret (s :: rest)))))).
    { assert (Hr : forall a : Scorer Model, a = a) by reflexivity.
      assert (Ht : forall a b c : Scorer Model, a = b -> b = c -> a = c)
        by (intros; congruence).
      stable_tac; auto using stable_check_window_size,
        stable_extract_deterministic.
      apply fit_loop_later_keeps_self. }
    specialize (Hst w0). rewrite H in Hst. cbn in Hst.
    apply bind_inr_inv in H. destruct H as (u1 & w2 & _ & H).
    apply bind_inr_inv in H. destruct H as (u2 & w3 & _ & H).
    apply bind_inr_inv in H. destruct H as (rest & w4 & _ & H).
    unfold ret in H. inversion H; subst.
    exists s, rest. split; [reflexivity | symmetry; exact Hst].
Qed.

(** A [fit] of the windowed scorer that returns leaves the scorer as [score]
    needs it: flag set, width of the first series recorded, and the model
    attribute in the form the scoring branch reads. *)
Lemma windowed_fit_makes_ready (Model : Type)
    (model_fit : Model -> list (list Q) -> result Model)
    (model_score : Model -> list (list Q) -> result (list Q))
    (series : pyarg) (w w' : World Model) (m : Model) :
  model (self w) = Some (SingleModel m) ->
  fit (windowed_methods model_fit model_score) series w = (inr tt, w') ->
  exists s0 rest,
    series2seq series = PySeries s0 :: rest /\
    _fit_called (self w') = Some true /\
    width_trained_on (self w') = Some (width s0) /\
    model_ready (self w') (width s0) /\
    window (self w') = window (self w) /\
    window_agg (self w') = window_agg (self w) /\
    single_series_support (self w') = single_series_support (self w).
Proof.
  intros Hm Hfit. rewrite fit_unfold in Hfit.
  destruct (fit_validation series w) as [[e|l] w1] eqn:Ev; [discriminate|].
  destruct (fit_delegates_input_series
              (windowed_methods model_fit model_score) _ _ Ev) as [Hl _].
  apply bind_inr_inv in Hfit. destruct Hfit as ([] & w2 & Hcore & Hflag).
  unfold modify_self in Hflag. inversion Hflag; subst w'. clear Hflag.
  cbn [self _fit_core windowed_methods] in *.
  destruct (fit_validation_returns_state _ _ Ev)
    as [[El _] | (s0 & rest & El & Hw1)].
  { subst l. unfold windowed_fit_core, bind, get_self, raise in Hcore.
    discriminate. }
  subst l. cbn [map] in Hl.
  exists s0, (map PySeries rest). split; [symmetry; exact Hl|].
  split; [reflexivity|].
  unfold windowed_fit_core in Hcore. unfold bind at 1 in Hcore.
  cbn [get_self] in Hcore.
  assert (Hm1 : model (self w1) = Some (SingleModel m))
    by (rewrite Hw1; exact Hm).
  assert (Hc1 : component_wise (self w1) = component_wise (self w))
    by (rewrite Hw1; reflexivity).
  rewrite Hm1 in Hcore.
  unfold model_ready. cbn [component_wise set_fit_called].
  destruct (negb (component_wise (self w1)) || (width s0 =? 1)) eqn:Eb.
  - apply bind_inr_inv in Hcore. destruct Hcore as (t1 & w3 & H1 & Hcore).
    apply bind_inr_inv in Hcore. destruct Hcore as (t2 & w4 & H2 & Hcore).
    apply bind_inr_inv in Hcore. destruct Hcore as (m' & w5 & H3 & Hcore).
    unfold lift in H1, H2, H3. inversion H1; inversion H2; inversion H3.
    subst w3 w4 w5. unfold modify_self in Hcore. inversion Hcore; subst w2.
    cbn. rewrite Hw1. cbn. rewrite Hw1 in Eb. cbn in Eb. rewrite Eb.
    repeat split. exists m'. reflexivity.
  - apply bind_inr_inv in Hcore. destruct Hcore as (t1 & w3 & H1 & Hcore).
    apply bind_inr_inv in Hcore. destruct Hcore as (t2 & w4 & H2 & Hcore).
    apply bind_inr_inv in Hcore. destruct Hcore as (ms & w5 & H3 & Hcore).
    unfold lift in H1, H2, H3. inversion H1; inversion H2; inversion H3.
    subst w3 w4 w5. unfold modify_self in Hcore. inversion Hcore; subst w2.
    cbn. rewrite Hw1. cbn. rewrite Hw1 in Eb. cbn in Eb. rewrite Eb.
    repeat split. exists ms. split; [reflexivity|].
    clear H1 H2 H3 Hcore.
    match goal with
    | H : _parallel_apply_bound_fit _ _ _ = inr ms |- _ =>
        unfold _parallel_apply_bound_fit in H;
        destruct (fit_in_place _ _ _) as [e|copy]; [discriminate H|];
        cbn [result_map] in H; inversion H; rewrite length_map
    end.
    match goal with
    | H : (if ?b then _ else _) = inr t2 |- _ =>
        destruct b; [|discriminate H]; inversion H
    end.
    rewrite length_map, length_seq. reflexivity.
Qed.

(** * Further properties of the scorer module *)

(** ** Loops *)

Lemma for_each_length (Model : Type) {A B} (f : A -> M Model B) (l : list A) :
  forall w bs w', for_each f l w = (inr bs, w') -> length bs = length l.
Proof.
  induction l as [|a tl IH]; intros w bs w' H; cbn [for_each] in H.
  - inversion H. reflexivity.
  - apply bind_inr_inv in H. destruct H as (b & w1 & _ & H).
    apply bind_inr_inv in H. destruct H as (bs' & w2 & Htl & H).
    inversion H; subst. cbn [length]. f_equal. eapply IH. exact Htl.
Qed.

Lemma logged_nil (Model : Type) (w : World Model) : logged w [] = w.
Proof. unfold logged. rewrite app_nil_r. apply world_eta. Qed.

Lemma logged_logged (Model : Type) (w : World Model) l1 l2 :
  logged (logged w l1) l2 = logged w (l1 ++ l2).
Proof. unfold logged. cbn. rewrite app_assoc. reflexivity. Qed.

Lemma extract_deterministic_value (Model : Type) s name (w : World Model) :
  _extract_deterministic s name w
  = (inr (deterministic_of s), logged w (extract_warnings name [s])).
Proof.
  unfold _extract_deterministic, deterministic_of, extract_warnings.
  cbn [flat_map]. rewrite app_nil_r.
  destruct (is_deterministic s); cbn [negb].
  - rewrite logged_nil. reflexivity.
  - reflexivity.
Qed.

Lemma extract_warnings_cons name s l :
  extract_warnings name (s :: l)
  = extract_warnings name [s] ++ extract_warnings name l.
Proof. unfold extract_warnings. cbn [flat_map]. rewrite app_nil_r. reflexivity. Qed.

(** The comprehension [[self._extract_deterministic(s, name) for s in l]]. *)
Lemma for_each_extract_deterministic (Model : Type) name (l : list TimeSeries) :
  forall w : World Model,
    for_each (fun s => _extract_deterministic s name) l w
    = (inr (map deterministic_of l), logged w (extract_warnings name l)).
Proof.
  induction l as [|s tl IH]; intros w; cbn [for_each map].
  - rewrite logged_nil. reflexivity.
  - rewrite (bind_inr _ (extract_deterministic_value s name w)).
    rewrite (bind_inr _ (IH _)). rewrite logged_logged, <- extract_warnings_cons.
    reflexivity.
Qed.

Lemma for_each_as_series_extract (Model : Type) name (l : list TimeSeries) :
  forall w : World Model,
    for_each (fun x => bind (as_series x)
                         (fun s => _extract_deterministic s name))
             (map PySeries l) w
    = (inr (map deterministic_of l), logged w (extract_warnings name l)).
Proof.
  induction l as [|s tl IH]; intros w; cbn [for_each map].
  - rewrite logged_nil. reflexivity.
  - unfold bind at 1. unfold bind at 1. cbn [as_series ret].
    rewrite extract_deterministic_value.
    rewrite (bind_inr _ (IH _)). rewrite logged_logged, <- extract_warnings_cons.
    reflexivity.
Qed.

Lemma deterministic_of_facts s :
  is_deterministic (deterministic_of s) = true /\
  len (deterministic_of s) = len s /\
  width (deterministic_of s) = width s /\
  time_index (deterministic_of s) = time_index s.
Proof.
  unfold deterministic_of.
  destruct (is_deterministic s) eqn:E; [auto|].
  destruct (quantile_is_deterministic s) as (H1 & H2 & H3 & H4). auto.
Qed.

Lemma deterministic_of_idem s : deterministic_of (deterministic_of s) = deterministic_of s.
Proof.
  unfold deterministic_of at 1.
  destruct (is_deterministic (deterministic_of s)) eqn:E; [reflexivity|].
  unfold deterministic_of in E. destruct (is_deterministic s) eqn:E'.
  - congruence.
  - cbn in E. discriminate.
Qed.

(** ** Cardinality of the result *)

(** X1: when [score] returns, its result mirrors the input: one series for
    an input that is not a sequence, and for a sequence a list with one score
    per element, also when the sequence has a single element. *)
Theorem score_mirrors_input (Model : Type) (methods : Methods Model)
    (series : pyarg) (w w' : World Model) (r : scores) :
  score methods series w = (inr r, w') ->
  (is_Sequence series = false -> exists one, r = OneScore one) /\
  (is_Sequence series = true ->
   exists l, r = ManyScores l /\ length l = length (series2seq series)).
Proof.
  unfold score. intros H.
  apply bind_inr_inv in H. destruct H as (u1 & w1 & _ & H).
  apply bind_inr_inv in H. destruct H as (u2 & w2 & _ & H).
  cbv zeta in H.
  apply bind_inr_inv in H. destruct H as (l1 & w3 & H1 & H).
  apply bind_inr_inv in H. destruct H as (l2 & w4 & H2 & H).
  apply bind_inr_inv in H. destruct H as (l3 & w5 & H3 & H).
  apply for_each_length in H1, H2, H3.
  assert (Hlen : length l3 = length (series2seq series)) by congruence.
  split; intros Hseq; rewrite Hseq in H; cbn [negb] in H.
  - destruct series as [s| |]; try discriminate Hseq. cbn in Hlen.
    destruct l3 as [|one [|]]; try discriminate Hlen.
    inversion H. eauto.
  - destruct l3 as [|one [|]]; inversion H; eauto.
Qed.

Lemma score_mirrors_input_witness :
  (exists one, OneScore MoreExamples.score5 = OneScore one) /\
  (exists l, ManyScores [MoreExamples.score5] = ManyScores l /\ length l = 1).
Proof.
  split.
  - apply (proj1 (@score_mirrors_input _ Examples.methods
                    (PySeries Examples.series5) Examples.fitted3
                    Examples.fitted3 (OneScore MoreExamples.score5)
                    ltac:(vm_compute; reflexivity))).
    reflexivity.
  - apply (proj2 (@score_mirrors_input _ Examples.methods
                    (PyList [PySeries Examples.series5]) Examples.fitted3
                    Examples.fitted3 (ManyScores [MoreExamples.score5])
                    ltac:(vm_compute; reflexivity))).
    reflexivity.
Defined.

Lemma raise_if_not_inr_inv (Model : Type) b e (w w' : World Model) u :
  raise_if_not b e w = (inr u, w') -> b = true.
Proof. destruct b; [reflexivity | discriminate]. Qed.

(** X2: when [score_from_prediction] returns, it returns one series only if
    neither argument is a sequence; otherwise it returns a list with one
    score per pair, and the two inputs hold the same number of series. *)
Theorem score_from_prediction_mirrors_input (Model : Type)
    (methods : Methods Model) (actual_series pred_series : pyarg)
    (w w' : World Model) (r : scores) :
  score_from_prediction methods actual_series pred_series w = (inr r, w') ->
  length (series2seq actual_series) = length (series2seq pred_series) /\
  (is_Sequence actual_series = false -> is_Sequence pred_series = false ->
   exists one, r = OneScore one) /\
  (is_Sequence actual_series || is_Sequence pred_series = true ->
   exists l, r = ManyScores l /\
             length l = length (series2seq actual_series)).
Proof.
  unfold score_from_prediction. intros H.
  apply bind_inr_inv in H. destruct H as (sc & w0 & _ & H).
  apply bind_inr_inv in H. destruct H as (u1 & w1 & _ & H).
  apply bind_inr_inv in H. destruct H as (u2 & w2 & _ & H).
  apply bind_inr_inv in H. destruct H as (u3 & w3 & _ & H).
  cbv zeta in H.
  apply bind_inr_inv in H. destruct H as (la & w4 & Ha & H).
  apply bind_inr_inv in H. destruct H as (lp & w5 & Hp & H).
  apply bind_inr_inv in H. destruct H as (u4 & w6 & Hsame & H).
  apply bind_inr_inv in H. destruct H as (l & w7 & Hl & H).
  apply for_each_length in Ha, Hl.
  unfold _check_probabilistic_series in Hp. apply for_each_length in Hp.
  unfold _assert_same_length in Hsame.
  apply raise_if_not_inr_inv, Nat.eqb_eq in Hsame.
  rewrite length_combine, <- Hsame, Nat.min_id in Hl.
  split; [congruence|].
  split.
  - intros Sa Sp. rewrite Sa, Sp in H. cbn [negb andb] in H.
    destruct actual_series as [s| |]; try discriminate Sa.
    cbn in Ha. destruct l as [|one [|]]; try (cbn in Hl; lia).
    inversion H. eauto.
  - intros S.
    assert (E : negb (is_Sequence pred_series)
                && negb (is_Sequence actual_series) = false).
    { destruct (is_Sequence actual_series), (is_Sequence pred_series);
        try reflexivity; discriminate S. }
    rewrite E in H.
    destruct l as [|one [|]]; inversion H; subst; eexists;
      (split; [reflexivity | congruence]).
Qed.

Lemma score_from_prediction_mirrors_input_witness :
  (exists one, OneScore Examples.nll_raw5 = OneScore one) /\
  (exists l, ManyScores [Examples.nll_raw5] = ManyScores l /\
             length l = length [PySeries Examples.series5]).
Proof.
  split.
  - apply (proj1 (proj2 (@score_from_prediction_mirrors_input unit
             (nll_methods Examples.nll) (PySeries Examples.series5)
             (PySeries Examples.pred5)
             (mkWorld (Examples.nll_scorer 1 false) [])
             (mkWorld (Examples.nll_scorer 1 false) [])
             (OneScore Examples.nll_raw5) ltac:(vm_compute; reflexivity))));
      reflexivity.
  - apply (proj2 (proj2 (@score_from_prediction_mirrors_input unit
             (nll_methods Examples.nll) (PyList [PySeries Examples.series5])
             (PyList [PySeries Examples.pred5])
             (mkWorld (Examples.nll_scorer 1 false) [])
             (mkWorld (Examples.nll_scorer 1 false) [])
             (ManyScores [Examples.nll_raw5]) ltac:(vm_compute; reflexivity)))).
    reflexivity.
Defined.

(** ** Validation comes first *)

Lemma score_past_gates (Model : Type) (methods : Methods Model) x
    (w : World Model) :
  single_series_support (self w) = true ->
  truthy (_fit_called (self w)) = true ->
  score methods x w =
    bind (for_each (fun x => bind (_assert_timeseries x) (fun s =>
                      bind (_check_window_size s) (fun _ => ret s)))
                   (series2seq x))
      (fun list_series =>
         bind (for_each (fun s => _extract_deterministic s "series") list_series)
           (fun list_series =>
              bind (for_each (_score_core methods) list_series)
                (fun anomaly_scores =>
                   match anomaly_scores with
                   | [one] => if negb (is_Sequence x) then ret (OneScore one)
                              else ret (ManyScores anomaly_scores)
                   | _ => ret (ManyScores anomaly_scores)
                   end))) w.
Proof.
  intros Hs Hf. unfold score. unfold bind at 1.
  unfold _check_single_series_support, bind at 1, get_self, raise_if_not.
  rewrite Hs. cbn [ret].
  rewrite (bind_inr _ (check_if_fit_called_passes _ Hf)). reflexivity.
Qed.

(** The first loop of [score] over series that all have at least [window]
    points. *)
Lemma score_validation_passes (Model : Type) (l : list TimeSeries)
    (w : World Model) :
  Forall (fun s => window (self w) <= len s) l ->
  for_each (fun x => bind (_assert_timeseries x) (fun s =>
              bind (_check_window_size s) (fun _ => ret s)))
           (map PySeries l) w = (inr l, w).
Proof.
  induction 1 as [|s tl Hs Htl IH]; cbn [map for_each]; [reflexivity|].
  unfold bind at 1. unfold bind at 1. cbn [_assert_timeseries ret].
  unfold bind at 1. unfold _check_window_size, bind at 1, get_self, raise_if_not.
  destruct (Nat.leb_spec (window (self w)) (len s)) as [_|Hbad]; [|lia].
  cbn [ret]. rewrite (bind_inr _ IH). reflexivity.
Qed.

(** The same loop over series one of which is shorter than the window. *)
Lemma score_validation_fails (Model : Type) (l : list TimeSeries)
    (w : World Model) :
  Exists (fun s => len s < window (self w)) l ->
  for_each (fun x => bind (_assert_timeseries x) (fun s =>
              bind (_check_window_size s) (fun _ => ret s)))
           (map PySeries l) w = (inl WindowTooLargeError, w).
Proof.
  induction l as [|s tl IH]; intros H; [inversion H|].
  cbn [map for_each].
  unfold bind at 1. unfold bind at 1. cbn [_assert_timeseries ret].
  unfold bind at 1. unfold _check_window_size, bind at 1, get_self, raise_if_not.
  destruct (Nat.leb_spec (window (self w)) (len s)) as [Hok|Hbad];
    [|reflexivity].
  cbn [ret]. inversion H as [? ? Hs|? ? Hs]; subst; [lia|].
  rewrite (bind_inl _ (IH Hs)). reflexivity.
Qed.

(** X3: on a scorer that supports single series and has been fitted,
    [score] of a sequence of series one of which has fewer points than the
    window raises the window error and leaves the world as it was: no series
    is scored and no warning is logged, also when an earlier series of the
    sequence is stochastic. *)
Theorem score_window_too_large (Model : Type) (methods : Methods Model)
    (series : pyarg) (l : list TimeSeries) (w : World Model) :
  single_series_support (self w) = true ->
  truthy (_fit_called (self w)) = true ->
  series2seq series = map PySeries l ->
  Exists (fun s => len s < window (self w)) l ->
  score methods series w = (inl WindowTooLargeError, w).
Proof.
  intros Hs Hf Hl Hbad.
  rewrite score_past_gates by assumption. rewrite Hl.
  rewrite (bind_inl _ (score_validation_fails _ Hbad)). reflexivity.
Qed.

Lemma score_window_too_large_witness :
  score Examples.methods
    (PyList [PySeries Examples.stochastic3; PySeries Examples.short2])
    Examples.fitted3
  = (inl WindowTooLargeError, Examples.fitted3).
Proof.
  apply (@score_window_too_large _ Examples.methods
           (PyList [PySeries Examples.stochastic3; PySeries Examples.short2])
           [Examples.stochastic3; Examples.short2] Examples.fitted3).
  - reflexivity.
  - reflexivity.
  - reflexivity.
  - apply Exists_cons_tl. apply Exists_cons_hd. cbn. lia.
Defined.

(** ** Stochastic input of [score] *)

Lemma extract_warnings_deterministic name l :
  extract_warnings name (map deterministic_of l) = [].
Proof.
  induction l as [|s tl IH]; [reflexivity|].
  cbn [map]. rewrite extract_warnings_cons, IH, app_nil_r.
  unfold extract_warnings. cbn [flat_map].
  destruct (deterministic_of_facts s) as (E & _). rewrite E. reflexivity.
Qed.

Lemma map_deterministic_of_idem l :
  map deterministic_of (map deterministic_of l) = map deterministic_of l.
Proof.
  rewrite map_map. apply map_ext. intros s. apply deterministic_of_idem.
Qed.

Lemma Forall_window_deterministic (W : nat) l :
  Forall (fun s => W <= len s) l ->
  Forall (fun s => W <= len s) (map deterministic_of l).
Proof.
  intros H. apply Forall_map. eapply Forall_impl; [|exact H].
  intros s Hs. cbn. destruct (deterministic_of_facts s) as (_ & E & _).
  rewrite E. exact Hs.
Qed.

(** [score] past its gates and its validation: the subclass method runs on
    the deterministic representatives, after the warnings. *)
Lemma score_runs_core_on_deterministic (Model : Type)
    (methods : Methods Model) (x : pyarg) (l : list TimeSeries)
    (w : World Model) :
  single_series_support (self w) = true ->
  truthy (_fit_called (self w)) = true ->
  series2seq x = map PySeries l ->
  Forall (fun s => window (self w) <= len s) l ->
  score methods x w =
    bind (for_each (_score_core methods) (map deterministic_of l))
      (fun anomaly_scores =>
         match anomaly_scores with
         | [one] => if negb (is_Sequence x) then ret (OneScore one)
                    else ret (ManyScores anomaly_scores)
         | _ => ret (ManyScores anomaly_scores)
         end)
      (logged w (extract_warnings "series" l)).
Proof.
  intros Hs Hf Hl Hok.
  rewrite score_past_gates by assumption. rewrite Hl.
  rewrite (bind_inr _ (score_validation_passes _ Hok)).
  rewrite (bind_inr _ (for_each_extract_deterministic "series" l w)).
  reflexivity.
Qed.

(** X4: on a fitted scorer, [score] of series that pass the window check is
    [score] of their deterministic representatives (the series itself, or
    its median series when it is stochastic) in the world where the warnings
    for the stochastic ones are logged; this holds for a single series and
    for a list. *)
Theorem score_of_stochastic_is_score_of_median (Model : Type)
    (methods : Methods Model) (l : list TimeSeries) (s : TimeSeries)
    (w : World Model) :
  single_series_support (self w) = true ->
  truthy (_fit_called (self w)) = true ->
  Forall (fun s => window (self w) <= len s) (s :: l) ->
  score methods (PySeries s) w
  = score methods (PySeries (deterministic_of s))
      (logged w (extract_warnings "series" [s])) /\
  score methods (PyList (map PySeries l)) w
  = score methods (PyList (map PySeries (map deterministic_of l)))
      (logged w (extract_warnings "series" l)).
Proof.
  intros Hs Hf Hok.
  assert (Hs1 : Forall (fun s => window (self w) <= len s) [s])
    by (constructor; [exact (Forall_inv Hok) | constructor]).
  assert (Hl : Forall (fun s => window (self w) <= len s) l)
    by exact (Forall_inv_tail Hok).
  split.
  - rewrite (@score_runs_core_on_deterministic _ methods (PySeries s) [s] w)
      by auto.
    rewrite (@score_runs_core_on_deterministic _ methods
               (PySeries (deterministic_of s)) (map deterministic_of [s])
               (logged w (extract_warnings "series" [s])));
      [ | assumption | assumption | reflexivity
        | apply Forall_window_deterministic; exact Hs1 ].
    rewrite extract_warnings_deterministic, logged_nil.
    rewrite map_deterministic_of_idem. reflexivity.
  - rewrite (@score_runs_core_on_deterministic _ methods
               (PyList (map PySeries l)) l w) by auto.
    rewrite (@score_runs_core_on_deterministic _ methods
               (PyList (map PySeries (map deterministic_of l)))
               (map deterministic_of l)
               (logged w (extract_warnings "series" l)));
      [ | assumption | assumption | reflexivity
        | apply Forall_window_deterministic; exact Hl ].
    rewrite extract_warnings_deterministic, logged_nil.
    rewrite map_deterministic_of_idem. reflexivity.
Qed.

Lemma score_of_stochastic_is_score_of_median_witness :
  score Examples.methods (PySeries Examples.stochastic3) Examples.fitted3
  = score Examples.methods
      (PySeries (quantile_timeseries_05 Examples.stochastic3))
      (logged Examples.fitted3 [WarnNotDeterministic "series" 3]).
Proof.
  apply (@score_of_stochastic_is_score_of_median _ Examples.methods []
           Examples.stochastic3 Examples.fitted3).
  - reflexivity.
  - reflexivity.
  - constructor; [cbn; lia | constructor].
Defined.

(** ** The probabilistic check *)

Lemma check_probabilistic_deterministic_scorer (Model : Type)
    (l : list TimeSeries) :
  forall w : World Model,
    _is_probabilistic (self w) = false ->
    _check_probabilistic_series (map PySeries l) w
    = (inr (map deterministic_of l),
       logged w (extract_warnings "pred_series" l)).
Proof.
  unfold _check_probabilistic_series.
  induction l as [|s tl IH]; intros w Hp; cbn [for_each map].
  - rewrite logged_nil. reflexivity.
  - unfold bind at 1. unfold bind at 1. cbn [get_self].
    unfold bind at 1. cbn [as_series ret]. rewrite Hp.
    rewrite extract_deterministic_value.
    rewrite (bind_inr _ (IH (logged w (extract_warnings "pred_series" [s])) Hp)).
    rewrite logged_logged, <- extract_warnings_cons. reflexivity.
Qed.

Lemma check_probabilistic_all_stochastic (Model : Type)
    (l : list TimeSeries) (w : World Model) :
  _is_probabilistic (self w) = true ->
  forallb is_stochastic l = true ->
  _check_probabilistic_series (map PySeries l) w = (inr l, w).
Proof.
  unfold _check_probabilistic_series. intros Hp.
  induction l as [|s tl IH]; intros Hall; cbn [for_each map]; [reflexivity|].
  cbn [forallb] in Hall. apply andb_true_iff in Hall. destruct Hall as [Hs Htl].
  unfold bind at 1. unfold bind at 1. cbn [get_self].
  unfold bind at 1. cbn [as_series ret]. rewrite Hp.
  unfold bind at 1. unfold _assert_stochastic. rewrite Hs. cbn [raise_if_not ret].
  rewrite (bind_inr _ (IH Htl)). reflexivity.
Qed.

Lemma check_probabilistic_some_deterministic (Model : Type)
    (l : list TimeSeries) (w : World Model) :
  _is_probabilistic (self w) = true ->
  forallb is_stochastic l = false ->
  _check_probabilistic_series (map PySeries l) w
  = (inl DistributionInputError, w).
Proof.
  unfold _check_probabilistic_series. intros Hp.
  induction l as [|s tl IH]; intros Hall; cbn [for_each map];
    [discriminate|].
  cbn [forallb] in Hall.
  unfold bind at 1. unfold bind at 1. cbn [get_self].
  unfold bind at 1. cbn [as_series ret]. rewrite Hp.
  unfold bind at 1. unfold _assert_stochastic.
  destruct (is_stochastic s); cbn [raise_if_not ret raise andb] in *.
  - rewrite (bind_inl _ (IH Hall)). reflexivity.
  - reflexivity.
Qed.

(** X5: [_check_probabilistic_series] on a list of series.  A scorer that
    expects deterministic predictions gets the deterministic representative
    of each series, with one warning per stochastic series.  A scorer that
    expects probabilistic predictions gets the list itself, without any
    warning, when every series is stochastic, and an error otherwise; it
    never replaces a series. *)
Theorem check_probabilistic_series_cases (Model : Type)
    (l : list TimeSeries) (w : World Model) :
  (_is_probabilistic (self w) = false ->
   _check_probabilistic_series (map PySeries l) w
   = (inr (map deterministic_of l),
      logged w (extract_warnings "pred_series" l)) /\
   Forall (fun s => n_samples s = 1) (map deterministic_of l)) /\
  (_is_probabilistic (self w) = true ->
   _check_probabilistic_series (map PySeries l) w
   = if forallb is_stochastic l then (inr l, w)
     else (inl DistributionInputError, w)).
Proof.
  split; intros Hp.
  - split; [apply check_probabilistic_deterministic_scorer, Hp|].
    apply Forall_map, Forall_forall. intros s _.
    destruct (deterministic_of_facts s) as (E & _).
    apply Nat.eqb_eq. exact E.
  - destruct (forallb is_stochastic l) eqn:E.
    + apply check_probabilistic_all_stochastic; assumption.
    + apply check_probabilistic_some_deterministic; assumption.
Qed.

Lemma check_probabilistic_series_cases_witness :
  _check_probabilistic_series
    (map PySeries [Examples.series5; Examples.stochastic3])
    (Examples.world0 (Examples.new_scorer 1 false false))
  = (inr [Examples.series5; quantile_timeseries_05 Examples.stochastic3],
     mkWorld (Examples.new_scorer 1 false false)
       [WarnNotDeterministic "pred_series" 3]) /\
  _check_probabilistic_series
    (map PySeries [Examples.pred5; Examples.series5])
    (mkWorld (Examples.nll_scorer 1 false) [])
  = (inl DistributionInputError, mkWorld (Examples.nll_scorer 1 false) []).
Proof.
  split.
  - apply (proj1 (@check_probabilistic_series_cases Examples.Model
                    [Examples.series5; Examples.stochastic3]
                    (Examples.world0 (Examples.new_scorer 1 false false)))).
    reflexivity.
  - apply (proj2 (@check_probabilistic_series_cases unit
                    [Examples.pred5; Examples.series5]
                    (mkWorld (Examples.nll_scorer 1 false) []))).
    reflexivity.
Defined.

(** ** Sequences of different lengths *)

Lemma check_ts_or_list_ts_lists (Model : Type) actuals (l : list TimeSeries)
    (w : World Model) :
  _check_ts_or_list_ts (PyList actuals) (PyList (map PySeries l)) w
  = (inr tt, w).
Proof.
  unfold _check_ts_or_list_ts. cbn [is_list negb py_iter].
  unfold bind. rewrite for_each_assert_timeseries_all. reflexivity.
Qed.

Lemma fit_gate_of_score_from_prediction (Model : Type) (w : World Model) :
  (fittable (self w) = true -> truthy (_fit_called (self w)) = true) ->
  (if fittable (self w) then check_if_fit_called else ret tt) w = (inr tt, w).
Proof.
  intros H. destruct (fittable (self w)); [|reflexivity].
  apply check_if_fit_called_passes. auto.
Qed.

(** X6: [score_from_prediction] on two lists of series of different lengths
    raises the shape error once both lists have passed the type and the
    probabilistic checks.  By then the warnings for stochastic series are
    logged: one per stochastic series of [actual_series], in order, and
    then, on a scorer that expects deterministic predictions, one per
    stochastic series of [pred_series]; nothing else has happened: no pair
    has been intersected or scored and the scorer is untouched. *)
Theorem score_from_prediction_length_mismatch (Model : Type)
    (methods : Methods Model) (la lp : list TimeSeries) (w : World Model) :
  (fittable (self w) = true -> truthy (_fit_called (self w)) = true) ->
  _is_probabilistic (self w) = false \/ forallb is_stochastic lp = true ->
  length la <> length lp ->
  score_from_prediction methods (PyList (map PySeries la))
    (PyList (map PySeries lp)) w
  = (inl ShapeMismatchError,
     logged w (extract_warnings "actual_series" la ++
               (if _is_probabilistic (self w) then []
                else extract_warnings "pred_series" lp))).
Proof.
  intros Hgate Hprob Hlen.
  unfold score_from_prediction. unfold bind at 1. cbn [get_self].
  rewrite (bind_inr _ (fit_gate_of_score_from_prediction _ Hgate)).
  rewrite (bind_inr _ (check_ts_or_list_ts_lists _ la w)).
  rewrite (bind_inr _ (check_ts_or_list_ts_lists _ lp w)).
  cbv zeta. cbn [series2seq].
  rewrite (bind_inr _ (for_each_as_series_extract "actual_series" la w)).
  set (w1 := logged w (extract_warnings "actual_series" la)).
  assert (Hp : exists lp',
             _check_probabilistic_series (map PySeries lp) w1
             = (inr lp',
                logged w1 (if _is_probabilistic (self w) then []
                           else extract_warnings "pred_series" lp)) /\
             length lp' = length lp).
  { destruct (_is_probabilistic (self w)) eqn:E.
    - destruct Hprob as [Hprob|Hprob]; [discriminate|].
      exists lp. rewrite logged_nil. split; [|reflexivity].
      apply check_probabilistic_all_stochastic; assumption.
    - eexists. split.
      + apply check_probabilistic_deterministic_scorer. exact E.
      + apply length_map. }
  destruct Hp as (lp' & Hp & Hlp).
  rewrite (bind_inr _ Hp).
  unfold bind at 1. unfold _assert_same_length, raise_if_not.
  rewrite length_map, Hlp.
  destruct (Nat.eqb_spec (length la) (length lp)) as [E|_]; [contradiction|].
  unfold w1. rewrite logged_logged. reflexivity.
Qed.

(** Two actual series, the second stochastic, against one stochastic
    prediction: the warnings for both stochastic series are in the log. *)
Lemma score_from_prediction_length_mismatch_witness :
  score_from_prediction Examples.methods
    (PyList (map PySeries [Examples.series5; Examples.stochastic3]))
    (PyList (map PySeries [Examples.stochastic3])) Examples.fitted3
  = (inl ShapeMismatchError,
     logged Examples.fitted3
       [WarnNotDeterministic "actual_series" 3;
        WarnNotDeterministic "pred_series" 3]).
Proof.
  apply (@score_from_prediction_length_mismatch _ Examples.methods
           [Examples.series5; Examples.stochastic3] [Examples.stochastic3]
           Examples.fitted3).
  - reflexivity.
  - left. reflexivity.
  - cbn. lia.
Defined.

(** X7: [fit_from_prediction] runs the probabilistic check on
    [actual_series] as well as on [pred_series]: on a scorer that expects
    probabilistic predictions, an [actual_series] holding a deterministic
    series makes it raise before anything else is looked at, whatever
    [pred_series] is, and the world is left as it was. *)
Theorem fit_from_prediction_checks_actual (Model : Type)
    (methods : Methods Model) (actual_series pred_series : pyarg)
    (la : list TimeSeries) (w : World Model) :
  _is_probabilistic (self w) = true ->
  series2seq actual_series = map PySeries la ->
  forallb is_stochastic la = false ->
  fit_from_prediction methods actual_series pred_series w
  = (inl DistributionInputError, w).
Proof.
  intros Hp Ha Hdet. unfold fit_from_prediction. cbv zeta. rewrite Ha.
  rewrite (bind_inl _ (check_probabilistic_some_deterministic _ _ Hp Hdet)).
  reflexivity.
Qed.

Lemma fit_from_prediction_checks_actual_witness :
  fit_from_prediction (nll_methods Examples.nll) (PySeries Examples.series5)
    (PySeries Examples.pred5) (mkWorld (Examples.nll_scorer 1 false) [])
  = (inl DistributionInputError, mkWorld (Examples.nll_scorer 1 false) []).
Proof.
  apply (@fit_from_prediction_checks_actual unit (nll_methods Examples.nll)
           (PySeries Examples.series5) (PySeries Examples.pred5)
           [Examples.series5] (mkWorld (Examples.nll_scorer 1 false) [])).
  - reflexivity.
  - reflexivity.
  - reflexivity.
Defined.

(** ** The validation loop of [fit] *)

(** One later step of the loop, on a series of the recorded width with
    enough points. *)
Lemma fit_loop_later_step (Model : Type) idx s tl (w : World Model) :
  width_trained_on (self w) = Some (width s) ->
  window (self w) <= len s ->
  fit_loop (S idx) (PySeries s :: tl) w
  = bind (fit_loop (S (S idx)) tl) (fun rest => ret (s :: rest))
      (logged w (extract_warnings "series" [s])).
Proof.
  intros Hw Hlen. cbn [fit_loop Nat.eqb _assert_timeseries].
  unfold bind at 1. cbn [ret].
  unfold bind at 1. unfold bind at 1. cbn [get_self]. rewrite Hw.
  rewrite Nat.eqb_refl. cbn [raise_if_not ret].
  unfold bind at 1. unfold _check_window_size, bind at 1, get_self, raise_if_not.
  destruct (Nat.leb_spec (window (self w)) (len s)) as [_|Hbad]; [|lia].
  cbn [ret]. unfold bind at 1. rewrite extract_deterministic_value.
  reflexivity.
Qed.

Lemma fit_loop_later_passes (Model : Type) (c : nat) (l : list TimeSeries) :
  forall idx (w : World Model),
    width_trained_on (self w) = Some c ->
    Forall (fun s => width s = c /\ window (self w) <= len s) l ->
    fit_loop (S idx) (map PySeries l) w
    = (inr l, logged w (extract_warnings "series" l)).
Proof.
  induction l as [|s tl IH]; intros idx w Hw Hok.
  - cbn. rewrite logged_nil. reflexivity.
  - destruct (Forall_inv Hok) as [Hs Hlen]. apply Forall_inv_tail in Hok.
    cbn [map]. rewrite fit_loop_later_step by (rewrite ?Hs; assumption).
    rewrite (bind_inr _ (IH (S idx) (logged w (extract_warnings "series" [s]))
                           Hw Hok)).
    rewrite logged_logged, <- extract_warnings_cons. reflexivity.
Qed.

Lemma fit_loop_later_width_mismatch (Model : Type) (c : nat)
    (pre : list TimeSeries) s post :
  forall idx (w : World Model),
    width_trained_on (self w) = Some c ->
    Forall (fun t => width t = c /\ window (self w) <= len t) pre ->
    width s <> c ->
    fit_loop (S idx) (map PySeries (pre ++ s :: post)) w
    = (inl ShapeMismatchError, logged w (extract_warnings "series" pre)).
Proof.
  induction pre as [|t tl IH]; intros idx w Hw Hok Hs.
  - cbn [app map fit_loop Nat.eqb _assert_timeseries].
    unfold bind at 1. cbn [ret].
    unfold bind at 1. unfold bind at 1. cbn [get_self]. rewrite Hw.
    destruct (Nat.eqb_spec (width s) c) as [E|_]; [contradiction|].
    cbn. rewrite logged_nil. reflexivity.
  - destruct (Forall_inv Hok) as [Ht Hlen]. apply Forall_inv_tail in Hok.
    cbn [app map]. rewrite fit_loop_later_step by (rewrite ?Ht; assumption).
    rewrite (bind_inl _ (IH (S idx) (logged w (extract_warnings "series" [t]))
                           Hw Hok Hs)).
    rewrite logged_logged, <- extract_warnings_cons. reflexivity.
Qed.

(** The first step of the loop: the width of the first series is recorded,
    then its length is checked. *)
Lemma fit_loop_first_step (Model : Type) s tl (w : World Model) :
  window (self w) <= len s ->
  fit_loop 0 (PySeries s :: tl) w
  = bind (fit_loop 1 tl) (fun rest => ret (s :: rest))
      (logged (mkWorld (set_width_trained_on (width s) (self w)) (log w))
              (extract_warnings "series" [s])).
Proof.
  intros Hlen. cbn [fit_loop Nat.eqb _assert_timeseries].
  unfold bind at 1. cbn [ret].
  unfold bind at 1. unfold modify_self at 1.
  unfold bind at 1. unfold _check_window_size, bind at 1, get_self, raise_if_not.
  cbn [self window set_width_trained_on].
  destruct (Nat.leb_spec (window (self w)) (len s)) as [_|Hbad]; [|lia].
  cbn [ret]. unfold bind at 1. rewrite extract_deterministic_value.
  reflexivity.
Qed.

Lemma fit_past_decorator (Model : Type) (methods : Methods Model) x
    (w : World Model) :
  single_series_support (self w) = true ->
  fit methods x w
  = bind (fit_loop 0 (series2seq x))
      (fun list_series =>
         bind (_fit_core methods list_series)
              (fun _ => modify_self (set_fit_called true))) w.
Proof.
  intros Hs. unfold fit. unfold bind at 1.
  unfold _check_single_series_support, bind at 1, get_self, raise_if_not.
  rewrite Hs. reflexivity.
Qed.

(** X8: [fit] on a sequence whose first series fits the window and whose
    later series agree with it in width and fit the window too, up to one
    series of another width, raises the shape error at that series.  The
    subclass [_fit_core] is not reached and the flag is not set; the width of
    the first series is recorded, and the warnings for the stochastic series
    seen so far are logged. *)
Theorem fit_width_mismatch (Model : Type) (methods : Methods Model)
    (series : pyarg) (first s : TimeSeries) (pre post : list TimeSeries)
    (w : World Model) :
  single_series_support (self w) = true ->
  series2seq series = map PySeries (first :: pre ++ s :: post) ->
  Forall (fun t => width t = width first /\ window (self w) <= len t)
         (first :: pre) ->
  width s <> width first ->
  fit methods series w
  = (inl ShapeMismatchError,
     logged (mkWorld (set_width_trained_on (width first) (self w)) (log w))
            (extract_warnings "series" (first :: pre))).
Proof.
  intros Hs Hl Hok Hbad.
  destruct (Forall_inv Hok) as [_ Hlen]. apply Forall_inv_tail in Hok.
  rewrite fit_past_decorator by exact Hs. rewrite Hl. cbn [map].
  unfold bind at 1. rewrite fit_loop_first_step by exact Hlen.
  rewrite (bind_inl _
             (@fit_loop_later_width_mismatch Model (width first) pre s post 0
                (logged (mkWorld (set_width_trained_on (width first) (self w))
                                 (log w))
                        (extract_warnings "series" [first]))
                eq_refl Hok Hbad)).
  rewrite logged_logged, <- extract_warnings_cons. reflexivity.
Qed.

Lemma fit_width_mismatch_witness :
  fit Examples.methods
    (PyList [PySeries Examples.series5; PySeries Examples.bivariate4])
    (Examples.world0 (Examples.new_scorer 3 true false))
  = (inl ShapeMismatchError,
     mkWorld (set_width_trained_on 1 (Examples.new_scorer 3 true false)) []).
Proof.
  apply (@fit_width_mismatch _ Examples.methods
           (PyList [PySeries Examples.series5; PySeries Examples.bivariate4])
           Examples.series5 Examples.bivariate4 [] []
           (Examples.world0 (Examples.new_scorer 3 true false))).
  - reflexivity.
  - reflexivity.
  - constructor; [split; [reflexivity | cbn; lia] | constructor].
  - cbn. lia.
Defined.

(** ** [fit] of the windowed scorer *)

(** X9: [fit] of a windowed scorer on an empty sequence passes the
    validation, which has nothing to check, and fails in [_fit_core] on
    [list_series[0]]; the scorer and the log are left as they were. *)
Theorem windowed_fit_empty (Model : Type)
    (model_fit : Model -> list (list Q) -> result Model)
    (model_score : Model -> list (list Q) -> result (list Q))
    (series : pyarg) (w : World Model) :
  single_series_support (self w) = true ->
  series2seq series = [] ->
  fit (windowed_methods model_fit model_score) series w = (inl IndexError, w).
Proof.
  intros Hs Hl. rewrite fit_past_decorator by exact Hs. rewrite Hl.
  reflexivity.
Qed.

Lemma windowed_fit_empty_witness :
  fit Examples.methods (PyList [])
    (Examples.world0 (Examples.new_scorer 3 true false))
  = (inl IndexError, Examples.world0 (Examples.new_scorer 3 true false)).
Proof.
  apply (@windowed_fit_empty _ Examples.model_fit Examples.model_score
           (PyList []) (Examples.world0 (Examples.new_scorer 3 true false)));
    reflexivity.
Defined.

Lemma reshape_rows_shape n flat k :
  n <> 0 -> length flat = k * n ->
  exists rows,
    reshape_rows n flat = inr rows /\ length rows = k /\
    Forall (fun r => length r = n) rows.
Proof.
  intros Hn Hl. unfold reshape_rows.
  destruct (Nat.eqb_spec n 0) as [E|_]; [contradiction|].
  rewrite Hl, Nat.Div0.mod_mul, Nat.eqb_refl. cbn [orb negb].
  rewrite Nat.div_mul by exact Hn.
  eexists. split; [reflexivity|]. split.
  - rewrite length_map, length_seq. reflexivity.
  - apply Forall_map_seq_in. intros i Hi. rewrite length_slice, Hl. nia.
Qed.

(** Joint tabularization of a list of series: per series, one row of
    [window * width] values per window and sample. *)
Lemma tabularize_series_joint_list W (l : list TimeSeries) :
  1 <= W ->
  Forall (fun s => W <= len s /\ 1 <= width s) l ->
  exists tabs,
    _tabularize_series_joint W l = inr tabs /\
    Forall2 (fun s rows =>
               length rows = (len s + 1 - W) * n_samples s /\
               Forall (fun r => length r = W * width s) rows) l tabs.
Proof.
  intros HW. unfold _tabularize_series_joint.
  induction 1 as [|s tl [Hlen HC] Htl IH]; cbn [map result_all].
  - exists []. split; [reflexivity | constructor].
  - destruct (@sliding_window_view_shape (all_values s) (width s)
                (n_samples s) W Hlen) as (v & Ev & _ & Hflat).
    rewrite Ev. cbn [result_bind].
    destruct (@reshape_rows_shape (W * width s) (flatten4 v)
                ((len s + 1 - W) * n_samples s))
      as (rows & Er & Hr1 & Hr2).
    + nia.
    + rewrite Hflat. unfold len. nia.
    + destruct IH as (tabs & Et & Ht).
      rewrite Er, Et. cbn. exists (rows :: tabs).
      split; [reflexivity|]. constructor; [split; assumption | exact Ht].
Qed.

Lemma length_concat_Forall2 {A} (f : TimeSeries -> nat)
    (l : list TimeSeries) (tabs : list (list A)) :
  Forall2 (fun s rows => length rows = f s) l tabs ->
  length (concat tabs) = list_sum (map f l).
Proof.
  induction 1 as [|s rows tl tabs' H Htl IH]; [reflexivity|].
  cbn [concat map list_sum]. rewrite length_app, H, IH. reflexivity.
Qed.

Lemma concatenate_axis0_uniform (c : nat) (cols : list nat)
    (tabs : list (list (list Q))) :
  cols <> [] -> Forall (fun x => x = c) cols ->
  concatenate_axis0 cols tabs = inr (concat tabs).
Proof.
  intros Hne H. unfold concatenate_axis0. destruct cols as [|c0 tl];
    [contradiction|].
  replace (forallb (Nat.eqb c0) (c0 :: tl)) with true; [reflexivity|].
  symmetry. apply forallb_forall. intros x Hx. rewrite Forall_forall in H.
  rewrite (H x Hx), (H c0 (or_introl eq_refl)). apply Nat.eqb_refl.
Qed.

(** X10: [fit] of a windowed scorer on the joint path (not component-wise,
    or univariate input) trains the model once, on one table that holds the
    rows of all the series: per series one row of [window * width] values
    for each window and each sample, so that stochastic series, which reach
    [_fit_core] unconverted, contribute [n_samples] rows per window.  If the
    training returns, the new model is stored and the flag set; if it
    raises, [fit] raises the same error and only the recorded width has
    changed. *)
Theorem windowed_fit_trains_on_all_rows (Model : Type)
    (model_fit : Model -> list (list Q) -> result Model)
    (model_score : Model -> list (list Q) -> result (list Q))
    (first : TimeSeries) (rest : list TimeSeries) (w : World Model)
    (m : Model) :
  single_series_support (self w) = true ->
  model (self w) = Some (SingleModel m) ->
  negb (component_wise (self w)) || (width first =? 1) = true ->
  1 <= window (self w) ->
  1 <= width first ->
  Forall (fun s => width s = width first /\ window (self w) <= len s)
         (first :: rest) ->
  exists table,
    length table
    = list_sum (map (fun s => (len s + 1 - window (self w)) * n_samples s)
                    (first :: rest)) /\
    Forall (fun row => length row = window (self w) * width first) table /\
    fit (windowed_methods model_fit model_score)
        (PyList (map PySeries (first :: rest))) w
    = match model_fit m table with
      | inr m' =>
          (inr tt,
           logged (mkWorld (set_fit_called true
                              (set_model (SingleModel m')
                                 (set_width_trained_on (width first) (self w))))
                           (log w))
                  (extract_warnings "series" (first :: rest)))
      | inl e =>
          (inl e,
           logged (mkWorld (set_width_trained_on (width first) (self w))
                           (log w))
                  (extract_warnings "series" (first :: rest)))
      end.
Proof.
  intros Hs Hm Hb HW HC Hok.
  destruct (@tabularize_series_joint_list (window (self w)) (first :: rest) HW)
    as (tabs & Et & Ht).
  { eapply Forall_impl; [|exact Hok]. intros s [E H]. cbn. rewrite E. auto. }
  exists (concat tabs). split; [|split].
  - apply (@length_concat_Forall2 _
             (fun s => (len s + 1 - window (self w)) * n_samples s)).
    eapply Forall2_impl; [|exact Ht]. intros s rows [H _]. exact H.
  - apply Forall_concat.
    assert (Hall : Forall2 (fun s rows =>
                      Forall (fun r => length r = window (self w) * width first)
                             rows) (first :: rest) tabs).
    { clear Et. revert Hok. induction Ht as [|s rows tl tabs' [_ H] Htl IH];
        intros Hok; constructor.
      - destruct (Forall_inv Hok) as [E _]. rewrite <- E. exact H.
      - apply IH. exact (Forall_inv_tail Hok). }
    clear -Hall. induction Hall; constructor; assumption.
  - destruct (Forall_inv Hok) as [_ Hlen]. pose proof (Forall_inv_tail Hok) as Hr.
    rewrite fit_past_decorator by exact Hs. cbn [series2seq map].
    unfold bind at 1. rewrite fit_loop_first_step by exact Hlen.
    rewrite (bind_inr _
               (@fit_loop_later_passes Model (width first) rest 0
                  (logged (mkWorld (set_width_trained_on (width first) (self w))
                                   (log w))
                          (extract_warnings "series" [first]))
                  eq_refl Hr)).
    cbn [ret]. rewrite logged_logged, <- extract_warnings_cons.
    set (w2 := logged _ (extract_warnings "series" (first :: rest))).
    cbn [_fit_core windowed_methods].
    unfold bind at 1. unfold windowed_fit_core. unfold bind at 1.
    cbn [get_self].
    change (component_wise (self w2)) with (component_wise (self w)).
    change (model (self w2)) with (model (self w)).
    change (window (self w2)) with (window (self w)).
    rewrite Hb, Hm.
    unfold bind at 1. unfold lift at 1. rewrite Et.
    unfold bind at 1. unfold lift at 1.
    rewrite (@concatenate_axis0_uniform (window (self w) * width first)).
    + unfold bind at 1. unfold lift at 1.
      destruct (model_fit m (concat tabs)) as [e|m']; reflexivity.
    + discriminate.
    + apply Forall_map. eapply Forall_impl; [|exact Hok].
      intros s [E _]. cbn. rewrite E. reflexivity.
Qed.

(** Two series of length 10, window 3: one model trained on 8 + 8 rows of
    three values. *)
Lemma windowed_fit_trains_on_all_rows_witness :
  exists table,
    length table = 16 /\
    Forall (fun row => length row = 3) table /\
    fit Examples.methods
      (PyList (map PySeries [Examples.train10; Examples.train10]))
      (Examples.world0 (Examples.new_scorer 3 true false))
    = (inr tt,
       mkWorld (set_fit_called true
                  (set_model (SingleModel table)
                     (set_width_trained_on 1
                        (Examples.new_scorer 3 true false)))) []).
Proof.
  destruct (@windowed_fit_trains_on_all_rows _ Examples.model_fit
              Examples.model_score Examples.train10 [Examples.train10]
              (Examples.world0 (Examples.new_scorer 3 true false)) []
              eq_refl eq_refl eq_refl)
    as (table & Hl & Hr & Hfit).
  - cbn. lia.
  - cbn. lia.
  - repeat constructor; cbn; lia.
  - exists table. split; [exact Hl|]. split; [exact Hr|]. exact Hfit.
Defined.

(** ** Layout of the tabular data *)

Lemma nth_seq_rebuild {A} (d : A) (l : list A) :
  map (fun i => nth i l d) (seq 0 (length l)) = l.
Proof.
  rewrite <- (firstn_all l) at 2. rewrite (firstn_as_map d).
  rewrite Nat.min_id. reflexivity.
Qed.

Lemma slice_concat_uniform {A} (n : nat) (l : list (list A)) :
  Forall (fun x => length x = n) l ->
  forall i, i < length l ->
    slice (concat l) (i * n) (i * n + n) = nth i l [].
Proof.
  unfold slice. induction 1 as [|x tl Hx Htl IH]; intros i Hi;
    [cbn in Hi; lia|].
  replace (i * n + n - i * n) with n by lia.
  destruct i as [|i]; cbn [concat nth Nat.mul Nat.add].
  - cbn [skipn]. rewrite firstn_app, Hx, Nat.sub_diag, firstn_O, app_nil_r.
    rewrite <- Hx. apply firstn_all.
  - rewrite skipn_app, Hx.
    rewrite (skipn_all2 x) by lia. cbn [app].
    replace (n + i * n - n) with (i * n) by lia.
    specialize (IH i ltac:(cbn in Hi; lia)).
    replace (i * n + n - i * n) with n in IH by lia. exact IH.
Qed.

Lemma reshape_rows_concat (n : nat) (blocks : list (list Q)) :
  n <> 0 -> Forall (fun x => length x = n) blocks ->
  reshape_rows n (concat blocks) = inr blocks.
Proof.
  intros Hn H.
  assert (Hl : length (concat blocks) = length blocks * n).
  { rewrite <- (map_id blocks) at 1. apply length_concat_map_const.
    intros x Hx. rewrite Forall_forall in H. apply H, Hx. }
  unfold reshape_rows.
  destruct (Nat.eqb_spec n 0) as [E|_]; [contradiction|].
  rewrite Hl, Nat.Div0.mod_mul, Nat.eqb_refl. cbn [orb negb].
  rewrite Nat.div_mul by exact Hn. f_equal.
  rewrite <- (nth_seq_rebuild [] blocks) at 2.
  apply map_ext_in. intros i Hi. apply in_seq in Hi.
  apply slice_concat_uniform; [exact H | lia].
Qed.

Lemma length_window_row vals C W t : length (window_row vals C W t) = C * W.
Proof.
  unfold window_row. rewrite flat_map_concat_map.
  rewrite (@length_concat_map_const _ _ _ W).
  - rewrite length_seq. reflexivity.
  - intros c _. unfold window_of. rewrite length_map, length_seq. reflexivity.
Qed.

(** The flattened windows of a deterministic array, window by window. *)
Lemma flatten4_windows (vals : list (list (list Q))) (C W n : nat) :
  flatten4
    (map (fun t =>
            map (fun c =>
                   map (fun s => map (fun w => value_at vals (t + w) c s)
                                     (seq 0 W))
                       (seq 0 1))
                (seq 0 C))
         (seq 0 n))
  = concat (map (window_row vals C W) (seq 0 n)).
Proof.
  unfold flatten4. rewrite map_map. f_equal. apply map_ext. intros t.
  unfold window_row. rewrite flat_map_concat_map, map_map. f_equal.
  apply map_ext. intros c. cbn. rewrite app_nil_r. reflexivity.
Qed.

Lemma result_all_map_inr (A B : Type) (f : A -> result B) (g : A -> B)
    (l : list A) :
  (forall a, In a l -> f a = inr (g a)) ->
  result_all (map f l) = inr (map g l).
Proof.
  induction l as [|a tl IH]; intros H; cbn [map result_all]; [reflexivity|].
  rewrite (H a (or_introl eq_refl)), IH
    by (intros a' Ha'; apply H; right; exact Ha').
  reflexivity.
Qed.

(** The joint table of one deterministic series. *)
Lemma joint_rows_of_series (W : nat) (s : TimeSeries) :
  1 <= W -> n_samples s = 1 -> W <= len s -> 1 <= width s ->
  result_bind
    (sliding_window_view (all_values s) (width s) (n_samples s) W)
    (fun v => reshape_rows (W * width s) (flatten4 v))
  = inr (map (window_row (all_values s) (width s) W) (seq 0 (len s + 1 - W))).
Proof.
  intros HW Hn Hlen HC. unfold sliding_window_view.
  destruct (Nat.ltb_spec (length (all_values s)) W) as [Hlt|_];
    [unfold len in Hlen; lia|].
  cbn [result_bind]. rewrite Hn, flatten4_windows.
  rewrite reshape_rows_concat.
  - reflexivity.
  - nia.
  - apply Forall_map_seq. intros t. rewrite length_window_row. lia.
Qed.

(** X11: on deterministic series with at least [window] points, the joint
    tabularization gives, per series, one row per window position, in
    order, and the row of position [t] holds for each component in turn its
    [window] values from timestamp [t] on. *)
Theorem tabularize_series_joint_content (W : nat) (l : list TimeSeries) :
  1 <= W ->
  Forall (fun s => n_samples s = 1 /\ W <= len s /\ 1 <= width s) l ->
  _tabularize_series_joint W l
  = inr (map (fun s => map (window_row (all_values s) (width s) W)
                           (seq 0 (len s + 1 - W))) l).
Proof.
  intros HW H. unfold _tabularize_series_joint.
  apply result_all_map_inr. intros s Hs.
  rewrite Forall_forall in H. destruct (H s Hs) as (Hn & Hlen & HC).
  apply joint_rows_of_series; assumption.
Qed.

(** Windows of length 2 of a two-component series of length 4. *)
Lemma tabularize_series_joint_content_witness :
  _tabularize_series_joint 2 [Examples.bivariate4]
  = inr [[[1; 2; 10; 20]; [2; 3; 20; 30]; [3; 4; 30; 40]]%Q].
Proof.
  apply (@tabularize_series_joint_content 2 [Examples.bivariate4]).
  - lia.
  - repeat constructor; cbn; lia.
Defined.

Lemma nth_concat_uniform {A} (d : A) (k : nat) (ll : list (list A)) :
  Forall (fun x => length x = k) ll ->
  forall i r, i < length ll -> r < k ->
    nth (i * k + r) (concat ll) d = nth r (nth i ll []) d.
Proof.
  induction 1 as [|x tl Hx Htl IH]; intros i r Hi Hr; [cbn in Hi; lia|].
  destruct i as [|i]; cbn [concat nth Nat.mul Nat.add].
  - apply app_nth1. lia.
  - rewrite app_nth2 by lia. rewrite Hx.
    replace (k + i * k + r - k) with (i * k + r) by lia.
    apply IH; [cbn in Hi; lia | exact Hr].
Qed.

Lemma concat_concat_map {A} (ll : list (list (list A))) :
  concat (concat ll) = concat (map (@concat A) ll).
Proof.
  induction ll as [|x tl IH]; [reflexivity|].
  cbn [concat map]. rewrite concat_app, IH. reflexivity.
Qed.

(** The flattened component-major stack of the windows of a deterministic
    array: all windows of component 0, then all of component 1, ... *)
Lemma flatten4_stacked_windows (vals : list (list (list Q))) (C W n : nat) :
  flatten4
    (stack_axis1 C
       (map (fun t =>
               map (fun c =>
                      map (fun s => map (fun w => value_at vals (t + w) c s)
                                        (seq 0 W))
                          (seq 0 1))
                   (seq 0 C))
            (seq 0 n)))
  = concat (concat (map (fun c => map (fun t => window_of vals W t c) (seq 0 n))
                        (seq 0 C))).
Proof.
  rewrite concat_concat_map.
  unfold flatten4, stack_axis1. rewrite !map_map. f_equal.
  apply map_ext_in. intros c Hc. apply in_seq in Hc.
  rewrite !map_map. f_equal. apply map_ext. intros t.
  rewrite nth_map_seq by lia. cbn. rewrite app_nil_r. reflexivity.
Qed.

Lemma reshape_blocks_concat (C W k : nat) (blocks : list (list (list Q))) :
  C * W <> 0 ->
  length blocks = C ->
  Forall (fun rows => length rows = k /\ Forall (fun r => length r = W) rows)
         blocks ->
  reshape_blocks C W (concat (concat blocks)) = inr blocks.
Proof.
  intros Hn HC H.
  assert (Hk : Forall (fun rows => length rows = k) blocks)
    by (eapply Forall_impl; [|exact H]; intros rows [E _]; exact E).
  assert (Hw : Forall (fun r => length r = W) (concat blocks)).
  { apply Forall_concat. eapply Forall_impl; [|exact H].
    intros rows [_ E]. exact E. }
  assert (Hrows : length (concat blocks) = C * k).
  { rewrite <- (map_id blocks) at 1.
    rewrite (@length_concat_map_const _ _ _ k), HC; [reflexivity|].
    intros x Hx. rewrite Forall_forall in Hk. apply Hk, Hx. }
  assert (Hl : length (concat (concat blocks)) = k * (C * W)).
  { rewrite <- (map_id (concat blocks)) at 1.
    rewrite (@length_concat_map_const _ _ _ W), Hrows; [nia|].
    intros x Hx. rewrite Forall_forall in Hw. apply Hw, Hx. }
  unfold reshape_blocks.
  destruct (Nat.eqb_spec (C * W) 0) as [E|_]; [contradiction|].
  rewrite Hl, Nat.Div0.mod_mul, Nat.eqb_refl. cbn [orb negb].
  rewrite Nat.div_mul by exact Hn. f_equal.
  etransitivity; [|exact (nth_seq_rebuild [] blocks)]. rewrite HC.
  apply map_ext_in. intros c Hc. apply in_seq in Hc.
  assert (Hc' : length (nth c blocks []) = k).
  { rewrite Forall_forall in Hk. apply Hk, nth_In. lia. }
  etransitivity; [|exact (nth_seq_rebuild [] (nth c blocks []))]. rewrite Hc'.
  apply map_ext_in. intros r Hr. apply in_seq in Hr.
  rewrite (@slice_concat_uniform _ W (concat blocks) Hw (c * k + r))
    by (rewrite Hrows; nia).
  apply nth_concat_uniform; [exact Hk | lia | lia].
Qed.

(** The component-wise blocks of one deterministic series. *)
Lemma component_blocks_of_series (W : nat) (s : TimeSeries) :
  1 <= W -> n_samples s = 1 -> W <= len s -> 1 <= width s ->
  result_bind
    (sliding_window_view (all_values s) (width s) (n_samples s) W)
    (fun v => reshape_blocks (width s) W (flatten4 (stack_axis1 (width s) v)))
  = inr (map (fun c => map (fun t => window_of (all_values s) W t c)
                           (seq 0 (len s + 1 - W)))
             (seq 0 (width s))).
Proof.
  intros HW Hn Hlen HC. unfold sliding_window_view.
  destruct (Nat.ltb_spec (length (all_values s)) W) as [Hlt|_];
    [unfold len in Hlen; lia|].
  cbn [result_bind]. rewrite Hn, flatten4_stacked_windows.
  rewrite (@reshape_blocks_concat (width s) W (len s + 1 - W)).
  - reflexivity.
  - nia.
  - rewrite length_map, length_seq. reflexivity.
  - apply Forall_map_seq. intros c. split.
    + rewrite length_map, length_seq. reflexivity.
    + apply Forall_map_seq. intros t. unfold window_of.
      rewrite length_map, length_seq. reflexivity.
Qed.

(** X12: on deterministic series with at least [window] points, the
    component-wise tabularization gives, per series, one block per
    component, and the block of component [c] holds, in order, the windows
    of that component alone: row [t] is its [window] values from timestamp
    [t] on. *)
Theorem tabularize_series_component_wise_content (W : nat)
    (l : list TimeSeries) :
  1 <= W ->
  Forall (fun s => n_samples s = 1 /\ W <= len s /\ 1 <= width s) l ->
  _tabularize_series_component_wise W l
  = inr (map (fun s =>
                map (fun c => map (fun t => window_of (all_values s) W t c)
                                  (seq 0 (len s + 1 - W)))
                    (seq 0 (width s))) l).
Proof.
  intros HW H. unfold _tabularize_series_component_wise.
  apply result_all_map_inr. intros s Hs.
  rewrite Forall_forall in H. destruct (H s Hs) as (Hn & Hlen & HC).
  apply component_blocks_of_series; assumption.
Qed.

Lemma tabularize_series_component_wise_content_witness :
  _tabularize_series_component_wise 2 [Examples.bivariate4]
  = inr [[[[1; 2]; [2; 3]; [3; 4]]; [[10; 20]; [20; 30]; [30; 40]]]%Q].
Proof.
  apply (@tabularize_series_component_wise_content 2 [Examples.bivariate4]).
  - lia.
  - repeat constructor; cbn; lia.
Defined.

(** ** Splitting the scores back into series *)

Lemma map_seq_from {A} (f : nat -> A) (n : nat) :
  forall a, map f (seq a n) = map (fun i => f (a + i)) (seq 0 n).
Proof.
  induction n as [|n IH]; intros a; [reflexivity|].
  cbn [seq map]. rewrite Nat.add_0_r. f_equal.
  rewrite IH, <- seq_shift, map_map. apply map_ext. intros i.
  f_equal. lia.
Qed.

Lemma nth_slice {A} (d : A) (l : list A) a b t :
  t < Nat.min b (length l) - a -> nth t (slice l a b) d = nth (a + t) l d.
Proof.
  intros H. rewrite (slice_as_map d). apply nth_map_seq. exact H.
Qed.

(** Unpacking rows of one length [k]: tuple [t] holds entry [t] of every
    row. *)
Lemma zip_star_uniform (k : nat) (rows : list (list Q)) :
  rows <> [] -> Forall (fun r => length r = k) rows ->
  zip_star rows = map (fun t => map (fun r => nth t r 0%Q) rows) (seq 0 k).
Proof.
  intros Hne H. unfold zip_star. destruct rows as [|r0 tl]; [contradiction|].
  pose proof (Forall_inv H) as H0. rewrite H0.
  rewrite fold_min_uniform; [reflexivity|].
  apply Forall_forall. intros n Hn.
  apply in_map_iff in Hn. destruct Hn as (r & <- & Hr).
  rewrite Forall_forall in H. apply H, Hr.
Qed.

Lemma convert_tabular_to_series_from_splits (W : nat)
    (scores : list (list Q)) (l : list TimeSeries) :
  1 <= W -> scores <> [] ->
  Forall (fun s => W <= len s /\ length (time_index s) = len s) l ->
  forall indice,
    Forall (fun row =>
              indice + list_sum (map (fun s => len s + 1 - W) l) <= length row)
           scores ->
    exists rs,
      _convert_tabular_to_series_from W indice l scores = inr rs /\
      Forall2 (fun s r =>
                 time_index r = skipn (W - 1) (time_index s) /\
                 len r = len s + 1 - W /\
                 width r = length scores /\ n_samples r = 1) l rs /\
      concat (map all_values rs)
      = map (fun t => map (fun row => [nth t row 0%Q]) scores)
            (seq indice (list_sum (map (fun s => len s + 1 - W) l))).
Proof.
  intros HW Hne. induction 1 as [|s tl [Hlen Ht] Htl IH]; intros indice Hrows.
  - exists []. split; [reflexivity|]. split; [constructor | reflexivity].
  - unfold list_sum in *.
    cbn [_convert_tabular_to_series_from map fold_right] in *.
    remember (len s + 1 - W) as n eqn:En.
    replace (indice + len s + 1 - W) with (indice + n) by lia.
    assert (Hsl : Forall (fun r => length r = n)
                    (map (fun row : list Q => slice row indice (indice + n))
                         scores)).
    { apply Forall_map. eapply Forall_impl; [|exact Hrows].
      intros row Hrow. cbn beta in Hrow |- *. rewrite length_slice. lia. }
    assert (Hne' : map (fun row : list Q => slice row indice (indice + n))
                       scores <> [])
      by (destruct scores; [contradiction | discriminate]).
    rewrite (zip_star_uniform Hne' Hsl).
    unfold from_times_and_values_2d, from_times_and_values_3d.
    rewrite !length_map, length_seq, length_skipn, Ht.
    replace (len s - (W - 1)) with n by lia.
    rewrite Nat.eqb_refl. cbn [result_bind].
    destruct (IH (indice + n)) as (rs & Ers & Hrs & Hvals).
    { eapply Forall_impl; [|exact Hrows]. intros row Hrow.
      cbn beta in Hrow |- *. lia. }
    rewrite Ers. cbn [result_map]. eexists. split; [reflexivity|].
    split.
    + constructor; [|exact Hrs].
      unfold len. cbn. rewrite !length_map, length_seq. auto.
    + cbn [map concat all_values]. rewrite Hvals.
      rewrite seq_app, map_app. f_equal.
      rewrite (map_seq_from _ n indice), !map_map.
      apply map_ext_in. intros t Htn. apply in_seq in Htn.
      rewrite !map_map.
      apply map_ext_in. intros row Hrow.
      rewrite Forall_forall in Hrows. specialize (Hrows row Hrow).
      cbn beta in Hrows. rewrite nth_slice by lia. reflexivity.
Qed.

(** X13: [_convert_tabular_to_series] cuts the component-by-column score
    array into one series per input series, in order: each has the time
    index of its input without the first [window - 1] timestamps, as many
    rows as its input has windows, and one component per row of the array;
    and the rows of the outputs, put end to end, are the columns of the
    array from the first to the last, so that no column is lost, repeated
    or attributed to a neighbouring series. *)
Theorem convert_tabular_to_series_splits (W : nat)
    (scores : list (list Q)) (l : list TimeSeries) :
  1 <= W -> scores <> [] ->
  Forall (fun s => W <= len s /\ length (time_index s) = len s) l ->
  Forall (fun row => length row = list_sum (map (fun s => len s + 1 - W) l))
         scores ->
  exists rs,
    _convert_tabular_to_series W l scores = inr rs /\
    Forall2 (fun s r =>
               time_index r = skipn (W - 1) (time_index s) /\
               len r = len s + 1 - W /\
               width r = length scores /\ n_samples r = 1) l rs /\
    concat (map all_values rs)
    = map (fun t => map (fun row => [nth t row 0%Q]) scores)
          (seq 0 (list_sum (map (fun s => len s + 1 - W) l))).
Proof.
  intros HW Hne Hl Hrows. unfold _convert_tabular_to_series.
  apply convert_tabular_to_series_from_splits; try assumption.
  eapply Forall_impl; [|exact Hrows]. intros row Hrow.
  cbn beta in Hrow |- *. lia.
Qed.

(** Two series of lengths 5 and 2, window 2, two components: five columns,
    four for the first series and one for the second. *)
Lemma convert_tabular_to_series_splits_witness :
  exists rs,
    _convert_tabular_to_series 2 [Examples.series5; Examples.short2]
      [[1; 2; 3; 4; 5]; [10; 20; 30; 40; 50]]%Q = inr rs /\
    concat (map all_values rs)
    = [[[1]; [10]]; [[2]; [20]]; [[3]; [30]]; [[4]; [40]]; [[5]; [50]]]%Q.
Proof.
  destruct (@convert_tabular_to_series_splits 2
              [[1; 2; 3; 4; 5]; [10; 20; 30; 40; 50]]%Q
              [Examples.series5; Examples.short2])
    as (rs & Ers & _ & Hvals).
  - lia.
  - discriminate.
  - repeat constructor; cbn; lia.
  - repeat constructor.
  - exists rs. split; [exact Ers | exact Hvals].
Defined.

(** ** Window aggregation with a window of one point *)

Lemma Qmean_single (x : Q) : Qmean [x] = x.
Proof.
  destruct x as [n d]. unfold Qmean, Qsum, Qdiv, Qmult, Qplus, Qinv. cbn.
  f_equal; [ring | rewrite !Pos.mul_1_r; reflexivity].
Qed.

Lemma mean_axis0_single (C S : nat) (row : list (list Q)) :
  length row = C -> Forall (fun cell => length cell = S) row ->
  mean_axis0 C S [row] = row.
Proof.
  intros HC HS. unfold mean_axis0. subst C.
  etransitivity; [|exact (nth_seq_rebuild [] row)].
  apply map_ext_in. intros c Hc. apply in_seq in Hc.
  assert (Hcell : length (nth c row []) = S).
  { rewrite Forall_forall in HS. apply HS, nth_In. lia. }
  etransitivity; [|exact (nth_seq_rebuild 0%Q (nth c row []))].
  rewrite Hcell. apply map_ext. intros k. cbn [map]. apply Qmean_single.
Qed.

Lemma rectangular_inv C S vals :
  rectangular C S vals = true ->
  Forall (fun row => length row = C /\
                     Forall (fun cell => length cell = S) row) vals.
Proof.
  unfold rectangular. intros H. apply Forall_forall. intros row Hrow.
  rewrite forallb_forall in H. specialize (H row Hrow).
  apply andb_true_iff in H. destruct H as [H1 H2].
  apply Nat.eqb_eq in H1. split; [exact H1|].
  apply Forall_forall. intros cell Hcell.
  rewrite forallb_forall in H2. apply Nat.eqb_eq, H2, Hcell.
Qed.

Lemma window_agg_one_values C S vals :
  rectangular C S vals = true ->
  map (fun idx_point => mean_axis0 C S (slice vals idx_point (idx_point + 1)))
      (seq 0 (length vals)) = vals.
Proof.
  intros H. apply rectangular_inv in H.
  etransitivity; [|exact (nth_seq_rebuild [] vals)].
  apply map_ext_in. intros i Hi. apply in_seq in Hi.
  rewrite (slice_as_map []).
  replace (Nat.min (i + 1) (length vals) - i) with 1 by lia.
  cbn [seq map].
  rewrite Forall_forall in H.
  destruct (H (nth i vals [])) as [HC HS]; [apply nth_In; lia|].
  apply mean_axis0_single; assumption.
Qed.

(** X14: with a window of one point, [_fun_window_agg] gives back the score
    series it is given, value for value, for any list of well-formed
    series. *)
Theorem fun_window_agg_window_one (Model : Type)
    (list_scores : list TimeSeries) (w : World Model) :
  Forall (fun score => wf_series score = true) list_scores ->
  _fun_window_agg list_scores 1 w = (inr list_scores, w).
Proof.
  unfold _fun_window_agg, len.
  induction 1 as [|score tl Hs Htl IH]; cbn [for_each]; [reflexivity|].
  unfold wf_series in Hs.
  apply andb_true_iff in Hs. destruct Hs as [Hs Hrect].
  apply andb_true_iff in Hs. destruct Hs as [Hlen _].
  unfold bind at 1. unfold lift at 1.
  rewrite (window_agg_one_values _ _ _ Hrect).
  unfold from_times_and_values_3d at 1. rewrite Hlen.
  unfold bind at 1. rewrite IH. destruct score; reflexivity.
Qed.

Lemma fun_window_agg_window_one_witness :
  _fun_window_agg [Examples.bivariate4; Examples.stochastic3] 1
    (Examples.world0 (Examples.new_scorer 1 true false))
  = (inr [Examples.bivariate4; Examples.stochastic3],
     Examples.world0 (Examples.new_scorer 1 true false)).
Proof.
  apply (@fun_window_agg_window_one Examples.Model
           [Examples.bivariate4; Examples.stochastic3]
           (Examples.world0 (Examples.new_scorer 1 true false))).
  repeat constructor.
Defined.

(** ** Ground truth of a univariate scorer *)

Lemma for_each_widths (Model : Type) (l : list TimeSeries) (w : World Model) :
  for_each (fun a => bind (as_series a) (fun s => ret (width s =? 1)))
           (map PySeries l) w
  = (inr (map (fun s => width s =? 1) l), w).
Proof.
  induction l as [|s tl IH]; cbn [map for_each]; [reflexivity|].
  unfold bind at 1. unfold bind at 1. cbn [as_series ret].
  rewrite (bind_inr _ IH). reflexivity.
Qed.

Lemma forallb_id_map {A} (f : A -> bool) (l : list A) :
  forallb (fun b => b) (map f l) = forallb f l.
Proof.
  induction l as [|a tl IH]; [reflexivity|]. cbn. rewrite IH. reflexivity.
Qed.

Lemma forallb_is_TimeSeries (l : list TimeSeries) :
  forallb is_TimeSeries (map PySeries l) = true.
Proof. induction l as [|s tl IH]; [reflexivity | exact IH]. Qed.

Lemma check_univariate_scorer_value (Model : Type) (l : list TimeSeries)
    (w : World Model) :
  univariate_scorer (self w) = true ->
  _check_univariate_scorer (map PySeries l) w
  = (if forallb (fun s => width s =? 1) l then inr tt
     else inl ShapeMismatchError, w).
Proof.
  intros Hu. unfold _check_univariate_scorer. unfold bind at 1.
  cbn [get_self]. rewrite Hu.
  unfold bind at 1. rewrite forallb_is_TimeSeries. cbn [raise_if_not ret].
  rewrite (bind_inr _ (for_each_widths l w)).
  rewrite forallb_id_map.
  destruct (forallb (fun s => width s =? 1) l); reflexivity.
Qed.

(** X15: on a scorer with univariate output, [eval_metric] and
    [eval_metric_from_prediction] given ground-truth series one of which has
    more (or fewer) than one component raise the shape error before the
    series are scored: the world is left as it was, whether or not the
    scorer has been fitted and whatever the series to score are. *)
Theorem eval_metric_rejects_multivariate_anomalies (Model : Type)
    (methods : Methods Model) (MetricValue : Type)
    (eval_metric_from_scores :
       list pyarg -> scores -> nat -> string -> result MetricValue)
    (actual_anomalies series actual_series pred_series : pyarg)
    (l : list TimeSeries) (metric : string) (w : World Model) :
  univariate_scorer (self w) = true ->
  series2seq actual_anomalies = map PySeries l ->
  forallb (fun s => width s =? 1) l = false ->
  (single_series_support (self w) = true ->
   eval_metric methods eval_metric_from_scores actual_anomalies series
     metric w = (inl ShapeMismatchError, w)) /\
  eval_metric_from_prediction methods eval_metric_from_scores
    actual_anomalies actual_series pred_series metric w
  = (inl ShapeMismatchError, w).
Proof.
  intros Hu Hl Hbad.
  assert (Hc : _check_univariate_scorer (series2seq actual_anomalies) w
               = (inl ShapeMismatchError, w)).
  { rewrite Hl, check_univariate_scorer_value by exact Hu.
    rewrite Hbad. reflexivity. }
  split.
  - intros Hs. unfold eval_metric. unfold bind at 1.
    unfold _check_single_series_support, bind at 1, get_self, raise_if_not.
    rewrite Hs. cbn [ret]. cbv zeta. rewrite (bind_inl _ Hc). reflexivity.
  - unfold eval_metric_from_prediction. cbv zeta.
    rewrite (bind_inl _ Hc). reflexivity.
Qed.

Lemma eval_metric_rejects_multivariate_anomalies_witness :
  eval_metric Examples.methods Examples.window_received
    (PySeries Examples.bivariate4) (PySeries Examples.series5) "AUC_ROC"
    (Examples.world0 (Examples.new_scorer 3 true false))
  = (inl ShapeMismatchError,
     Examples.world0 (Examples.new_scorer 3 true false)).
Proof.
  apply (proj1 (@eval_metric_rejects_multivariate_anomalies _
                  Examples.methods nat Examples.window_received
                  (PySeries Examples.bivariate4) (PySeries Examples.series5)
                  (PySeries Examples.series5) (PySeries Examples.series5)
                  [Examples.bivariate4] "AUC_ROC"
                  (Examples.world0 (Examples.new_scorer 3 true false))
                  eq_refl eq_refl eq_refl)).
  reflexivity.
Defined.

(** ** The constructor *)

Lemma intersect_avoids e a b :
  e <> EmptyIntersectionError -> _intersect a b <> inl e.
Proof.
  intros He. unfold _intersect. destruct (_ =? _); [congruence | discriminate].
Qed.

Lemma ts_sub_avoids e a b : e <> ShapeMismatchError -> ts_sub a b <> inl e.
Proof.
  intros He. unfold ts_sub. destruct (same_shape a b); [discriminate | congruence].
Qed.

Lemma diff_series_value_valid_fn dfn a b :
  dfn = "abs_diff"%string \/ dfn = "diff"%string ->
  diff_series_value dfn a b <> inl ConfigurationError.
Proof.
  intros Hfn. unfold diff_series_value.
  destruct (_intersect a b) as [e|p] eqn:Ei; cbn [result_bind].
  - intros H; injection H as ->. revert Ei. apply intersect_avoids.
    discriminate.
  - destruct Hfn as [-> | ->]; cbn.
    + destruct (ts_sub (fst p) (snd p)) as [e|d] eqn:Es; cbn; [|discriminate].
      intros H; injection H as ->. revert Es. apply ts_sub_avoids. discriminate.
    + apply ts_sub_avoids. discriminate.
Qed.

(** X16: the constructor returns a scorer exactly when [window] is positive,
    [diff_fn] is ["abs_diff"] or ["diff"] and [window_agg] is a Boolean, and
    raises otherwise.  The scorer it returns has a window of at least one
    point, no recorded width, and the flag [False] if it is fittable and
    [None] if not; and on it [_diff_series] never reaches its error for an
    unknown [diff_fn]. *)
Theorem AnomalyScorer_init_valid (Model : Type)
    (univariate fittable_arg single_series probabilistic : bool)
    (window_agg_arg : option bool) (window_arg : Z) (diff_fn_arg : string)
    (n_jobs : Z) :
  let r := AnomalyScorer_init Model univariate fittable_arg single_series
             probabilistic window_agg_arg window_arg diff_fn_arg n_jobs in
  ((0 < window_arg)%Z /\
   (diff_fn_arg = "abs_diff"%string \/ diff_fn_arg = "diff"%string) /\
   window_agg_arg <> None ->
   exists sc, r = inr sc) /\
  (~ ((0 < window_arg)%Z /\
      (diff_fn_arg = "abs_diff"%string \/ diff_fn_arg = "diff"%string) /\
      window_agg_arg <> None) ->
   r = inl ConfigurationError) /\
  (forall sc,
     r = inr sc ->
     1 <= window sc /\ Z.of_nat (window sc) = window_arg /\
     window_agg_arg = Some (window_agg sc) /\
     width_trained_on sc = None /\
     _fit_called sc = (if fittable_arg then Some false else None) /\
     fittable sc = fittable_arg /\
     forall a b lg,
       fst (_diff_series a b (mkWorld sc lg)) <> inl ConfigurationError).
Proof.
  cbv zeta. unfold AnomalyScorer_init.
  destruct (Z.ltb_spec 0 window_arg) as [Hw|Hw]; cbn [negb].
  2: { split; [intros (H & _); lia|].
       split; [reflexivity | discriminate]. }
  assert (Hfn : (String.eqb diff_fn_arg "abs_diff"
                 || String.eqb diff_fn_arg "diff") = true <->
                (diff_fn_arg = "abs_diff"%string \/
                 diff_fn_arg = "diff"%string)).
  { rewrite orb_true_iff, !String.eqb_eq. reflexivity. }
  destruct (String.eqb diff_fn_arg "abs_diff" || String.eqb diff_fn_arg "diff");
    cbn [negb].
  2: { split; [intros (_ & H & _); apply Hfn in H; discriminate|].
       split; [reflexivity | discriminate]. }
  assert (Hd : diff_fn_arg = "abs_diff"%string \/ diff_fn_arg = "diff"%string)
    by (apply Hfn; reflexivity).
  destruct window_agg_arg as [agg|].
  2: { split; [intros (_ & _ & H); contradiction|].
       split; [reflexivity | discriminate]. }
  split; [intros _; eexists; reflexivity|].
  split.
  { intros H. exfalso. apply H. split; [assumption|].
    split; [assumption | discriminate]. }
  intros sc Hsc. injection Hsc as <-.
  split; [cbn; lia|]. split; [cbn; lia|]. do 4 (split; [reflexivity|]).
  intros a b lg. rewrite diff_series_is_value.
  apply diff_series_value_valid_fn. exact Hd.
Qed.

Lemma AnomalyScorer_init_valid_witness :
  (exists sc : Scorer unit,
     AnomalyScorer_init unit false true true false (Some true) 3 "diff" 1
     = inr sc) /\
  AnomalyScorer_init unit false true true false None 3 "diff" 1
  = inl ConfigurationError.
Proof.
  split.
  - apply (proj1 (@AnomalyScorer_init_valid unit false true true false
                    (Some true) 3 "diff" 1)).
    split; [reflexivity|]. split; [right; reflexivity | discriminate].
  - apply (proj1 (proj2 (@AnomalyScorer_init_valid unit false true true false
                           None 3 "diff" 1))).
    intros (_ & _ & H). apply H. reflexivity.
Defined.

(** ** Scorers that are not fittable *)

Lemma diff_series_avoids (Model : Type) e a b :
  e <> EmptyIntersectionError -> e <> ShapeMismatchError ->
  e <> ConfigurationError ->
  avoids e (@_diff_series Model a b).
Proof.
  intros H1 H2 H3. unfold _diff_series. avoids_tac;
    try (apply intersect_avoids; assumption);
    try (apply ts_sub_avoids; assumption).
  intros w. cbn. congruence.
Qed.

(** X17: on a scorer built as not fittable (its flag is [None]), [score]
    always raises a precondition error and leaves the scorer as it was,
    because its fit gate is not guarded by [fittable]; while
    [score_from_prediction], whose gate is guarded, never raises the error of
    the fit gate (as long as the subclass methods do not). *)
Theorem non_fittable_scorer_cannot_score (Model : Type)
    (methods : Methods Model) (series actual pred : pyarg) (w : World Model) :
  fittable (self w) = false ->
  _fit_called (self w) = None ->
  (forall s, avoids (PreconditionError FitNotCalled) (_score_core methods s)) ->
  (forall s1 s2,
     avoids (PreconditionError FitNotCalled)
       (_score_core_from_prediction methods s1 s2)) ->
  (exists p, score methods series w = (inl (PreconditionError p), w)) /\
  fst (score_from_prediction methods actual pred w)
  <> inl (PreconditionError FitNotCalled).
Proof.
  intros Hfit Hflag Hone Hcore. split.
  - apply (@score_unfit_fails Model methods series w).
    rewrite Hflag. reflexivity.
  - unfold score_from_prediction. unfold bind at 1, get_self at 1.
    rewrite Hfit. unfold bind at 1, ret at 1. cbv zeta.
    match goal with
    | |- fst (?c w) <> _ =>
        cut (avoids (PreconditionError FitNotCalled) c);
          [intros Ha; apply Ha|]
    end.
    unfold _check_ts_or_list_ts, _check_probabilistic_series,
      _assert_same_length.
    avoids_tac; try apply Hcore; try apply Hone;
      try (apply diff_series_avoids; discriminate);
      unfold _assert_timeseries, as_series, _assert_timeseries,
        _extract_deterministic, _assert_stochastic, _sanity_check_two_series,
        _check_window_size;
      avoids_tac;
      try (apply intersect_avoids; discriminate).
Qed.

Lemma non_fittable_scorer_cannot_score_witness :
  let w := mkWorld (mkScorer 1 false false None false "abs_diff" false true
                      1%Z None false (@None (model_obj (list TimeSeries)))) []
  in
  (exists p,
     score Examples.recording_methods (PySeries Examples.series5) w
     = (inl (PreconditionError p), w)) /\
  fst (score_from_prediction Examples.recording_methods
         (PySeries Examples.series5) (PySeries Examples.series5) w)
  <> inl (PreconditionError FitNotCalled).
Proof.
  apply (@non_fittable_scorer_cannot_score _ Examples.recording_methods
           (PySeries Examples.series5) (PySeries Examples.series5)
           (PySeries Examples.series5)).
  - reflexivity.
  - reflexivity.
  - intros s w. discriminate.
  - intros s1 s2. apply diff_series_avoids; discriminate.
Defined.

(** ** Per-timestamp scores of the likelihood scorer *)

Lemma for_each_result (Model A B : Type) (f : A -> M Model B)
    (g : A -> result B) (l : list A) (w : World Model) :
  (forall a, In a l -> f a w = (g a, w)) ->
  for_each f l w = (result_all (map g l), w).
Proof.
  induction l as [|a tl IH]; intros H; cbn [for_each map result_all].
  - reflexivity.
  - unfold bind at 1. rewrite (H a (or_introl eq_refl)).
    destruct (g a) as [e|b]; cbn [result_bind]; [reflexivity|].
    unfold bind. rewrite IH by (intros a' Ha'; apply H; right; exact Ha').
    destruct (result_all (map g tl)); reflexivity.
Qed.

Lemma result_all_Forall2 (A B : Type) (g : A -> result B)
    (P : A -> B -> Prop) (l : list A) :
  (forall a, In a l -> exists b, g a = inr b /\ P a b) ->
  exists bs, result_all (map g l) = inr bs /\ Forall2 P l bs.
Proof.
  induction l as [|a tl IH]; intros H; cbn [map result_all].
  - exists []. split; [reflexivity | constructor].
  - destruct (H a (or_introl eq_refl)) as (b & Eb & Pb).
    destruct IH as (bs & Ebs & Pbs);
      [intros a' Ha'; apply H; right; exact Ha'|].
    exists (b :: bs). rewrite Eb, Ebs. split; [reflexivity|].
    constructor; assumption.
Qed.

Lemma Forall2_seq_nth (B : Type) (P : nat -> B -> Prop) (d : B) :
  forall n a (bs : list B),
    Forall2 P (seq a n) bs ->
    length bs = n /\ forall c, c < n -> P (a + c) (nth c bs d).
Proof.
  induction n as [|n IH]; intros a bs H; cbn [seq] in H.
  - inversion H; subst. split; [reflexivity | intros c Hc; lia].
  - inversion H as [|x b xs bs' Hb Htl]; subst.
    destruct (IH _ _ Htl) as (Hlen & Hnth).
    split; [cbn; lia|]. intros [|c] Hc; cbn [nth].
    + rewrite Nat.add_0_r. exact Hb.
    + replace (a + S c) with (S a + c) by lia. apply Hnth. lia.
Qed.

(** X18: when the prediction is stochastic, has at least one component and
    no more than the actual series, both have one length, and the likelihood
    function answers one score per timestamp, the likelihood scorer computes
    a deterministic series on the time index of the prediction, with the
    components of the prediction: component [c] holds the scores of
    component [c] of the (median of the) actual series against the samples of
    component [c] of the prediction. *)
Theorem nll_anomaly_scores_per_component (Model : Type)
    (nll : list Q -> list (list Q) -> result (list Q))
    (actual_series pred_series : TimeSeries) (w : World Model) :
  is_stochastic pred_series = true ->
  1 <= width pred_series -> width pred_series <= width actual_series ->
  len actual_series = len pred_series ->
  length (time_index pred_series) = len pred_series ->
  (forall a p, length a = length p ->
               exists sc, nll a p = inr sc /\ length sc = length a) ->
  exists raw,
    nll_anomaly_scores nll actual_series pred_series w
    = (inr raw, logged w (extract_warnings "actual_series" [actual_series])) /\
    time_index raw = time_index pred_series /\
    len raw = len pred_series /\
    width raw = width pred_series /\
    n_samples raw = 1 /\
    forall c,
      c < width pred_series ->
      exists sc,
        nll (observed_component (deterministic_of actual_series) c)
            (sampled_component pred_series c) = inr sc /\
        forall t, t < len pred_series ->
                  value_at (all_values raw) t c 0 = nth t sc 0%Q.
Proof.
  intros Hst Hc1 Hc2 Hlen Htimes Hnll.
  destruct (deterministic_of_facts actual_series) as (Hdet & Hw & Hl & _).
  set (a' := deterministic_of actual_series) in *.
  set (w' := logged w (extract_warnings "actual_series" [actual_series])).
  set (g := fun c => nll (observed_component a' c)
                         (sampled_component pred_series c)).
  destruct (@result_all_Forall2 nat (list Q) g
              (fun c sc => g c = inr sc /\ length sc = len pred_series)
              (seq 0 (width pred_series))) as (bs & Ebs & Pbs).
  { intros c _. unfold g.
    destruct (Hnll (observed_component a' c) (sampled_component pred_series c))
      as (sc & Esc & Lsc).
    - unfold observed_component, sampled_component. rewrite !length_map.
      fold (len a'). fold (len pred_series). lia.
    - exists sc. split; [exact Esc|]. split; [exact Esc|].
      rewrite Lsc. unfold observed_component. rewrite length_map.
      fold (len a'). lia. }
  destruct (@Forall2_seq_nth (list Q) _ [] _ _ _ Pbs) as (Lbs & Nbs).
  assert (Hne : bs <> []) by (intros ->; cbn in Lbs; lia).
  assert (Hrows : Forall (fun r => length r = len pred_series) bs).
  { apply Forall_forall. intros r Hr.
    destruct (In_nth _ _ [] Hr) as (c & Hc & <-).
    apply (Nbs c). lia. }
  pose proof (@zip_star_uniform _ _ Hne Hrows) as Hzip.
  exists (mkTimeSeries (time_index pred_series) (width pred_series) 1
            (map (map (fun x => [x])) (zip_star bs))).
  split; [|split; [reflexivity|split; [|split; [reflexivity|split;
    [reflexivity|]]]]].
  - unfold nll_anomaly_scores.
    rewrite (bind_inr _ (extract_deterministic_value actual_series
                           "actual_series" w)).
    fold a'. fold w'.
    unfold _assert_stochastic, raise_if_not. rewrite Hst.
    unfold bind at 1, ret at 1. cbv zeta.
    unfold bind at 1.
    rewrite (@for_each_result Model nat (list Q) _ g).
    + rewrite Ebs. unfold lift, from_times_and_values_2d,
        from_times_and_values_3d.
      rewrite length_map, (@length_zip_star _ _ Hne Hrows), Htimes.
      rewrite Nat.eqb_refl, Lbs. reflexivity.
    + intros c Hc. apply in_seq in Hc.
      unfold bind, lift, column, squeeze_last.
      destruct (Nat.ltb_spec c (width a')) as [_|Hbad]; [|lia].
      unfold is_deterministic in Hdet. rewrite Hdet.
      destruct (Nat.ltb_spec c (width pred_series)) as [_|Hbad]; [|lia].
      unfold g, observed_component, sampled_component. rewrite map_map.
      reflexivity.
  - unfold len. cbn [all_values]. rewrite length_map.
    apply (@length_zip_star _ _ Hne Hrows).
  - intros c Hc. destruct (Nbs c Hc) as (Eg & Lg). cbn [Nat.add] in Eg.
    exists (nth c bs []). split; [exact Eg|].
    intros t Ht. unfold value_at. cbn [all_values]. rewrite Hzip.
    rewrite map_map. rewrite nth_map_seq by exact Ht. cbn [Nat.add].
    rewrite map_map.
    rewrite nth_indep with (d' := [nth t (@nil Q) 0%Q])
      by (rewrite length_map; lia).
    rewrite (map_nth (fun r => [nth t r 0%Q]) bs [] c). reflexivity.
Qed.

Lemma nll_anomaly_scores_per_component_witness :
  exists raw,
    nll_anomaly_scores Examples.nll Examples.series5 Examples.pred5
      (mkWorld (Examples.nll_scorer 3 false) [])
    = (inr raw,
       logged (mkWorld (Examples.nll_scorer 3 false) [])
         (extract_warnings "actual_series" [Examples.series5])) /\
    time_index raw = time_index Examples.pred5 /\
    len raw = len Examples.pred5 /\
    width raw = width Examples.pred5 /\
    n_samples raw = 1 /\
    forall c,
      c < width Examples.pred5 ->
      exists sc,
        Examples.nll
          (observed_component (deterministic_of Examples.series5) c)
          (sampled_component Examples.pred5 c) = inr sc /\
        forall t, t < len Examples.pred5 ->
                  value_at (all_values raw) t c 0 = nth t sc 0%Q.
Proof.
  apply (@nll_anomaly_scores_per_component unit Examples.nll
           Examples.series5 Examples.pred5
           (mkWorld (Examples.nll_scorer 3 false) [])).
  - reflexivity.
  - vm_compute. lia.
  - vm_compute. lia.
  - reflexivity.
  - reflexivity.
  - intros a p H. eexists. split; [reflexivity|].
    unfold zip_with. rewrite length_map, length_combine, H. apply Nat.min_id.
Defined.

(** ** The plotting methods *)

Lemma expect_one_series_one (Model : Type) x s (w : World Model) :
  series2seq x = [PySeries s] -> expect_one_series x w = (inr s, w).
Proof.
  intros H. unfold expect_one_series.
  destruct x as [s'|l|l]; cbn in H |- *.
  - injection H as ->. reflexivity.
  - subst l. reflexivity.
  - subst l. reflexivity.
Qed.

Lemma expect_one_series_many (Model : Type) x (w : World Model) :
  is_Sequence x = true -> length (series2seq x) <> 1 ->
  expect_one_series x w = (inl InputTypeError, w).
Proof.
  intros Hseq Hlen. unfold expect_one_series. rewrite Hseq.
  destruct (series2seq x) as [|a [|b tl]]; cbn in Hlen |- *;
    [reflexivity | contradiction | reflexivity].
Qed.

Lemma check_single_series_support_passes (Model : Type) (w : World Model) :
  single_series_support (self w) = true ->
  _check_single_series_support w = (inr tt, w).
Proof.
  intros Hs. unfold _check_single_series_support, bind, get_self, raise_if_not.
  rewrite Hs. reflexivity.
Qed.

(** X19: both plotting methods accept one series, bare or as the only
    element of a sequence, and reject a sequence of any other length before
    anything is scored.  They score that series and hand the plot the scores
    with a window: [show_anomalies] hands 1 when [window_agg] is set and
    [window] otherwise, [show_anomalies_from_prediction] hands [window]
    whatever [window_agg] is. *)
Theorem show_anomalies_one_series_and_window (Model : Type)
    (methods : Methods Model)
    (show_anomalies_from_scores :
       TimeSeries -> option TimeSeries -> scores -> nat -> result unit)
    (series actual_series pred_series : pyarg) (s a p : TimeSeries)
    (w : World Model) :
  (single_series_support (self w) = true ->
   series2seq series = [PySeries s] ->
   show_anomalies methods show_anomalies_from_scores series w
   = let r := score methods (PySeries s) w in
     match fst r with
     | inl e => (inl e, snd r)
     | inr anomaly_score =>
         (show_anomalies_from_scores s None anomaly_score
            (if window_agg (self (snd r)) then 1 else window (self (snd r))),
          snd r)
     end) /\
  (series2seq actual_series = [PySeries a] ->
   series2seq pred_series = [PySeries p] ->
   show_anomalies_from_prediction methods show_anomalies_from_scores
     actual_series pred_series w
   = let r := score_from_prediction methods (PySeries a) (PySeries p) w in
     match fst r with
     | inl e => (inl e, snd r)
     | inr anomaly_score =>
         (show_anomalies_from_scores a (Some p) anomaly_score
            (window (self (snd r))), snd r)
     end) /\
  (is_Sequence series = true -> length (series2seq series) <> 1 ->
   (single_series_support (self w) = true ->
    show_anomalies methods show_anomalies_from_scores series w
    = (inl InputTypeError, w)) /\
   show_anomalies_from_prediction methods show_anomalies_from_scores
     series pred_series w
   = (inl InputTypeError, w) /\
   (series2seq actual_series = [PySeries a] ->
    show_anomalies_from_prediction methods show_anomalies_from_scores
      actual_series series w
    = (inl InputTypeError, w))).
Proof.
  split; [|split].
  - intros Hs Hx. unfold show_anomalies.
    rewrite (bind_inr _ (check_single_series_support_passes w Hs)).
    rewrite (bind_inr _ (@expect_one_series_one Model series s w Hx)).
    cbv zeta. unfold bind at 1.
    destruct (score methods (PySeries s) w) as [[e|sc] w1]; reflexivity.
  - intros Ha Hp. unfold show_anomalies_from_prediction.
    rewrite (bind_inr _ (@expect_one_series_one Model actual_series a w Ha)).
    rewrite (bind_inr _ (@expect_one_series_one Model pred_series p w Hp)).
    cbv zeta. unfold bind at 1.
    destruct (score_from_prediction methods (PySeries a) (PySeries p) w)
      as [[e|sc] w1]; reflexivity.
  - intros Hseq Hlen. split; [|split].
    + intros Hs. unfold show_anomalies.
      rewrite (bind_inr _ (check_single_series_support_passes w Hs)).
      rewrite (bind_inl _ (@expect_one_series_many Model series w Hseq Hlen)). reflexivity.
    + unfold show_anomalies_from_prediction.
      rewrite (bind_inl _ (@expect_one_series_many Model series w Hseq Hlen)). reflexivity.
    + intros Ha. unfold show_anomalies_from_prediction.
      rewrite (bind_inr _ (@expect_one_series_one Model actual_series a w Ha)).
      rewrite (bind_inl _ (@expect_one_series_many Model series w Hseq Hlen)). reflexivity.
Qed.

Lemma show_anomalies_one_series_and_window_witness :
  show_anomalies Examples.methods Examples.no_plot
    (PyList [PySeries Examples.series5]) Examples.fitted3
  = let r := score Examples.methods (PySeries Examples.series5)
               Examples.fitted3 in
    match fst r with
    | inl e => (inl e, snd r)
    | inr anomaly_score =>
        (Examples.no_plot Examples.series5 None anomaly_score
           (if window_agg (self (snd r)) then 1 else window (self (snd r))),
         snd r)
    end.
Proof.
  apply (proj1 (@show_anomalies_one_series_and_window _ Examples.methods
                  Examples.no_plot (PyList [PySeries Examples.series5])
                  (PySeries Examples.series5) (PySeries Examples.series5)
                  Examples.series5 Examples.series5 Examples.series5
                  Examples.fitted3)).
  - reflexivity.
  - reflexivity.
Defined.

(** ** Component-wise training *)

Lemma extract_warnings_none name (l : list TimeSeries) :
  Forall (fun s => n_samples s = 1) l -> extract_warnings name l = [].
Proof.
  induction 1 as [|s tl Hs Htl IH]; [reflexivity|].
  rewrite extract_warnings_cons, IH, app_nil_r.
  unfold extract_warnings, is_deterministic. cbn [flat_map].
  rewrite Hs. reflexivity.
Qed.

Lemma concatenate_axis1_blocks (W : nat) (first : TimeSeries)
    (rest : list TimeSeries) :
  Forall (fun s => width s = width first) (first :: rest) ->
  concatenate_axis1 (map width (first :: rest))
    (map (fun s =>
            map (fun c => map (fun t => window_of (all_values s) W t c)
                              (seq 0 (len s + 1 - W)))
                (seq 0 (width s)))
         (first :: rest))
  = inr (map (component_rows W (first :: rest)) (seq 0 (width first))).
Proof.
  intros H. unfold concatenate_axis1. cbn [map].
  replace (forallb (Nat.eqb (width first)) (width first :: map width rest))
    with true.
  - f_equal. apply map_ext_in. intros c Hc. apply in_seq in Hc.
    unfold component_rows. rewrite !flat_map_concat_map. f_equal.
    rewrite <- (map_cons (fun s => map (fun c0 => map (fun t => window_of (all_values s) W t c0)
                               (seq 0 (len s + 1 - W))) (seq 0 (width s)))).
    rewrite map_map. apply map_ext_in. intros s Hs.
    rewrite Forall_forall in H. rewrite (H s Hs).
    apply nth_map_seq. lia.
  - symmetry. apply forallb_forall. intros x Hx.
    change (width first :: map width rest) with (map width (first :: rest))
      in Hx.
    apply in_map_iff in Hx. destruct Hx as (s & <- & Hs).
    rewrite Forall_forall in H. rewrite (H s Hs). apply Nat.eqb_refl.
Qed.

Lemma fit_in_place_memoryless (Model : Type)
    (model_fit : Model -> list (list Q) -> result Model)
    (items : list (list (list Q))) :
  (forall m1 m2 rows, model_fit m1 rows = model_fit m2 rows) ->
  forall m copy,
    items <> [] ->
    fit_in_place model_fit m items = inr copy ->
    model_fit m (last items []) = inr copy.
Proof.
  intros Hmem. induction items as [|data tl IH]; intros m copy Hne H;
    [contradiction|].
  cbn [fit_in_place] in H.
  destruct (model_fit m data) as [e|m1] eqn:E1; cbn [result_bind] in H;
    [discriminate|].
  destruct tl as [|data' tl'].
  - cbn in H |- *. rewrite E1. exact H.
  - change (last (data :: data' :: tl') []) with (last (data' :: tl') []).
    rewrite (Hmem m m1). apply IH; [discriminate | exact H].
Qed.

Lemma last_map_seq (A : Type) (f : nat -> A) (d : A) (n : nat) :
  forall a, last (map f (seq a (S n))) d = f (a + n).
Proof.
  induction n as [|n IH]; intros a.
  - cbn. rewrite Nat.add_0_r. reflexivity.
  - specialize (IH (S a)). replace (a + S n) with (S a + n) by lia.
    rewrite <- IH. reflexivity.
Qed.

Lemma map_const_repeat (A B : Type) (b : B) (l : list A) :
  map (fun _ => b) l = repeat b (length l).
Proof. induction l as [|a tl IH]; cbn; [reflexivity | f_equal; exact IH]. Qed.

(** X20: [fit] of a component-wise windowed scorer, run with one job, on
    deterministic multivariate series does not train one model per
    component: it makes one copy of the prototype model and trains that
    copy on the windows of each component in turn, component 0 first, each
    training starting from what the one before left.  If every training
    returns, the model attribute becomes a list that holds this one copy
    once per component, and the flag is set; if one raises, [fit] raises
    its error and only the recorded width has changed.  So when the model's
    [fit] forgets what it was trained on before, every sub-model is the
    model trained on the windows of the last component. *)
Theorem windowed_fit_component_wise (Model : Type)
    (model_fit : Model -> list (list Q) -> result Model)
    (model_score : Model -> list (list Q) -> result (list Q))
    (first : TimeSeries) (rest : list TimeSeries) (w : World Model)
    (m : Model) :
  single_series_support (self w) = true ->
  _n_jobs (self w) = 1%Z ->
  model (self w) = Some (SingleModel m) ->
  component_wise (self w) = true ->
  2 <= width first ->
  1 <= window (self w) ->
  Forall (fun s => width s = width first /\ window (self w) <= len s /\
                   n_samples s = 1)
         (first :: rest) ->
  let r := fit (windowed_methods model_fit model_score)
               (PyList (map PySeries (first :: rest))) w in
  r = match fit_in_place model_fit m
              (map (component_rows (window (self w)) (first :: rest))
                   (seq 0 (width first))) with
      | inr copy =>
          (inr tt,
           mkWorld (set_fit_called true
                      (set_model (SubModels (repeat copy (width first)))
                         (set_width_trained_on (width first) (self w))))
                   (log w))
      | inl e =>
          (inl e,
           mkWorld (set_width_trained_on (width first) (self w)) (log w))
      end /\
  ((forall m1 m2 rows, model_fit m1 rows = model_fit m2 rows) ->
   fst r = inr tt ->
   exists trained,
     model_fit m (component_rows (window (self w)) (first :: rest)
                    (width first - 1)) = inr trained /\
     model (self (snd r)) = Some (SubModels (repeat trained (width first)))).
Proof.
  intros Hs _ Hm Hcw HC HW Hok.
  assert (Hok1 : Forall (fun s => width s = width first /\
                                  window (self w) <= len s) (first :: rest)).
  { eapply Forall_impl; [|exact Hok]. intros s (E & H & _). auto. }
  assert (Hdet : Forall (fun s => n_samples s = 1) (first :: rest)).
  { eapply Forall_impl; [|exact Hok]. intros s (_ & _ & H). exact H. }
  destruct (Forall_inv Hok1) as [_ Hlen].
  pose proof (Forall_inv_tail Hok1) as Hr.
  assert (Hfit :
    fit (windowed_methods model_fit model_score)
        (PyList (map PySeries (first :: rest))) w
    = match fit_in_place model_fit m
              (map (component_rows (window (self w)) (first :: rest))
                   (seq 0 (width first))) with
      | inr copy =>
          (inr tt,
           mkWorld (set_fit_called true
                      (set_model (SubModels (repeat copy (width first)))
                         (set_width_trained_on (width first) (self w))))
                   (log w))
      | inl e =>
          (inl e,
           mkWorld (set_width_trained_on (width first) (self w)) (log w))
      end).
  { rewrite fit_past_decorator by exact Hs. cbn [series2seq map].
    unfold bind at 1. rewrite fit_loop_first_step by exact Hlen.
    rewrite (bind_inr _
               (@fit_loop_later_passes Model (width first) rest 0
                  (logged (mkWorld (set_width_trained_on (width first)
                                      (self w)) (log w))
                          (extract_warnings "series" [first]))
                  eq_refl Hr)).
    cbn [ret]. rewrite logged_logged, <- extract_warnings_cons.
    rewrite (extract_warnings_none "series" Hdet), logged_nil.
    set (w2 := mkWorld (set_width_trained_on (width first) (self w)) (log w)).
    cbn [_fit_core windowed_methods].
    unfold bind at 1. unfold windowed_fit_core. unfold bind at 1.
    cbn [get_self].
    change (component_wise (self w2)) with (component_wise (self w)).
    change (model (self w2)) with (model (self w)).
    change (window (self w2)) with (window (self w)).
    rewrite Hcw, Hm. cbn [negb orb].
    destruct (Nat.eqb_spec (width first) 1) as [E|_]; [lia|].
    unfold bind at 1. unfold lift at 1.
    assert (Et : _tabularize_series_component_wise (window (self w))
                   (first :: rest)
                 = inr (map (fun s =>
                          map (fun c =>
                                 map (fun t => window_of (all_values s)
                                                 (window (self w)) t c)
                                     (seq 0 (len s + 1 - window (self w))))
                              (seq 0 (width s))) (first :: rest))).
    { unfold _tabularize_series_component_wise.
      apply result_all_map_inr. intros s Hin.
      rewrite Forall_forall in Hok. destruct (Hok s Hin) as (E & Hl & Hn).
      apply component_blocks_of_series; try assumption. lia. }
    rewrite Et.
    unfold bind at 1. unfold lift at 1.
    rewrite concatenate_axis1_blocks
      by (eapply Forall_impl; [|exact Hok]; intros s (E & _); exact E).
    unfold bind at 1. unfold lift at 1. unfold _parallel_apply_bound_fit.
    destruct (fit_in_place model_fit m _) as [e|copy]; cbn [result_map];
      [reflexivity|].
    rewrite map_const_repeat, length_map, length_seq. reflexivity. }
  cbv zeta. split; [exact Hfit|].
  intros Hmem Hret. rewrite Hfit in Hret |- *.
  destruct (fit_in_place model_fit m _) as [e|copy] eqn:Ef;
    cbn [fst snd] in Hret |- *; [discriminate|].
  exists copy. split; [|reflexivity].
  apply (fit_in_place_memoryless _ Hmem) in Ef.
  - rewrite <- Ef. f_equal.
    destruct (width first) as [|n]; [lia|].
    rewrite last_map_seq. f_equal. lia.
  - destruct (width first); [lia | discriminate].
Qed.

(** Two components, a model whose training keeps the rows of the last call:
    both sub-models hold the windows of component 1. *)
Lemma windowed_fit_component_wise_witness :
  let r := fit Examples.methods (PyList (map PySeries [Examples.bivariate4]))
             (Examples.world0 (Examples.new_scorer 2 true true)) in
  r = (inr tt,
       mkWorld (set_fit_called true
                  (set_model
                     (SubModels [[[10; 20]; [20; 30]; [30; 40]];
                                 [[10; 20]; [20; 30]; [30; 40]]]%Q)
                     (set_width_trained_on 2
                        (Examples.new_scorer 2 true true)))) []) /\
  exists trained,
    Examples.model_fit []
      (component_rows 2 [Examples.bivariate4] 1) = inr trained /\
    model (self (snd r)) = Some (SubModels (repeat trained 2)).
Proof.
  cbv zeta.
  destruct (@windowed_fit_component_wise _ Examples.model_fit
              Examples.model_score Examples.bivariate4 []
              (Examples.world0 (Examples.new_scorer 2 true true)) []
              eq_refl eq_refl eq_refl eq_refl)
    as (Hfit & Hlast).
  - cbn. lia.
  - cbn. lia.
  - repeat constructor; cbn; lia.
  - split; [exact Hfit|].
    apply Hlast; [reflexivity | reflexivity].
Defined.

(** X21: once the model of a windowed scorer is a list of sub-models, as a
    component-wise [fit] on multivariate series leaves it, no later [fit]
    returns: whatever the input, it raises, and the sub-models stay. *)
Theorem component_wise_refit_fails (Model : Type)
    (model_fit : Model -> list (list Q) -> result Model)
    (model_score : Model -> list (list Q) -> result (list Q))
    (series : pyarg) (w : World Model) (ms : list Model) :
  model (self w) = Some (SubModels ms) ->
  let r := fit (windowed_methods model_fit model_score) series w in
  (exists e, fst r = inl e) /\
  model (self (snd r)) = Some (SubModels ms) /\
  _fit_called (self (snd r)) = _fit_called (self w).
Proof.
  intros Hm. cbv zeta. rewrite fit_unfold.
  destruct (fit_validation series w) as [[e|l] w1] eqn:Ev.
  - cbn [fst snd]. split; [exists e; reflexivity|].
    destruct (@fit_validation_raises_state Model series w e w1 Ev)
      as [E|(s & tl & _ & E)];
      rewrite E; auto.
  - assert (Hw1 : model (self w1) = Some (SubModels ms) /\
                  _fit_called (self w1) = _fit_called (self w)).
    { destruct (@fit_validation_returns_state Model series w w1 l Ev)
        as [[_ E]|(s & tl & _ & E)]; rewrite E; auto. }
    destruct Hw1 as [Hm1 Hf1].
    assert (Hcore : exists e, windowed_fit_core model_fit l w1 = (inl e, w1)).
    { unfold windowed_fit_core. unfold bind at 1. cbn [get_self].
      rewrite Hm1. destruct l as [|first rest]; [eexists; reflexivity|].
      destruct (negb (component_wise (self w1)) || (width first =? 1));
        [eexists; reflexivity|].
      unfold bind, lift.
      destruct (_tabularize_series_component_wise _ _) as [e|tab];
        [eexists; reflexivity|].
      destruct (concatenate_axis1 _ _) as [e|tab']; eexists; reflexivity. }
    destruct Hcore as (e & Hcore).
    cbn [_fit_core windowed_methods]. rewrite (bind_inl _ Hcore).
    cbn [fst snd]. split; [exists e; reflexivity | auto].
Qed.

Lemma component_wise_refit_fails_witness :
  let r := fit Examples.methods (PySeries Examples.bivariate4)
             Examples.fitted_component_wise in
  (exists e, fst r = inl e) /\
  model (self (snd r))
  = Some (SubModels [[[10; 20]; [20; 30]; [30; 40]];
                     [[10; 20]; [20; 30]; [30; 40]]]%Q) /\
  _fit_called (self (snd r)) = _fit_called (self Examples.fitted_component_wise).
Proof.
  apply (@component_wise_refit_fails _ Examples.model_fit Examples.model_score
           (PySeries Examples.bivariate4) Examples.fitted_component_wise).
  reflexivity.
Defined.

(** ** Values of the window-wise scores *)

Lemma length_result_all (A : Type) (l : list (result A)) :
  forall bs, result_all l = inr bs -> length bs = length l.
Proof.
  induction l as [|r tl IH]; cbn [result_all]; intros bs H.
  - inversion H. reflexivity.
  - destruct r as [e|a]; cbn [result_bind] in H; [discriminate|].
    destruct (result_all tl) as [e|bs']; cbn [result_map] in H;
      [discriminate|].
    inversion H. cbn. f_equal. apply IH. reflexivity.
Qed.

(** X22: without window aggregation, the joint path of the windowed
    [_score_core] on a deterministic series scores the table of its windows
    with the model once, and returns the scores as a univariate series on
    the time index of the input without its first [window - 1] timestamps;
    it raises if the model does not answer one score per window. *)
Theorem windowed_score_joint_values (Model : Type)
    (model_score : Model -> list (list Q) -> result (list Q))
    (d : TimeSeries) (w : World Model) (m : Model) (sc : list Q) :
  n_samples d = 1 ->
  length (time_index d) = len d ->
  1 <= width d ->
  1 <= window (self w) <= len d ->
  width_trained_on (self w) = Some (width d) ->
  negb (component_wise (self w)) || (width d =? 1) = true ->
  model (self w) = Some (SingleModel m) ->
  (1 <? window (self w)) && window_agg (self w) = false ->
  model_score m
    (map (window_row (all_values d) (width d) (window (self w)))
         (seq 0 (len d + 1 - window (self w)))) = inr sc ->
  windowed_score_core model_score d w
  = (if length sc =? len d + 1 - window (self w)
     then inr (mkTimeSeries (skipn (window (self w) - 1) (time_index d)) 1 1
                 (map (fun x => [[x]]) sc))
     else inl ArrayError, w).
Proof.
  intros Hn Ht HC [HW Hlen] Hwt Hbranch Hmodel Hagg Hsc.
  unfold windowed_score_core.
  unfold bind at 1. cbn [get_self]. cbv zeta.
  rewrite Hwt. cbn [forallb]. rewrite Nat.eqb_refl. cbn [andb raise_if_not].
  unfold bind at 1. cbn [ret].
  rewrite Hbranch, Hagg.
  assert (Et : _tabularize_series_joint (window (self w)) [d]
               = inr [map (window_row (all_values d) (width d)
                             (window (self w)))
                          (seq 0 (len d + 1 - window (self w)))]).
  { unfold _tabularize_series_joint.
    apply (@result_all_map_inr _ _ _
             (fun s => map (window_row (all_values s) (width s)
                              (window (self w)))
                           (seq 0 (len s + 1 - window (self w)))) [d]).
    intros s [<-|[]]. apply joint_rows_of_series; assumption. }
  unfold bind at 1. unfold bind at 1. unfold lift at 1. rewrite Et.
  cbn [for_each]. rewrite Hmodel.
  unfold bind at 1. unfold bind at 1. unfold lift at 1. rewrite Hsc.
  unfold bind at 1. cbn [ret combine for_each fst snd].
  unfold bind at 1. unfold bind at 1. unfold lift at 1.
  unfold from_times_and_values_1d, from_times_and_values_2d,
    from_times_and_values_3d.
  rewrite !length_map, length_skipn, Ht, map_map.
  replace (len d - (window (self w) - 1)) with (len d + 1 - window (self w))
    by lia.
  rewrite (Nat.eqb_sym (len d + 1 - window (self w)) (length sc)).
  destruct (length sc =? len d + 1 - window (self w)); reflexivity.
Qed.

Lemma windowed_score_joint_values_witness :
  windowed_score_core Examples.model_score Examples.series5
    MoreExamples.fitted3_plain
  = (inr (mkTimeSeries [2; 3; 4]%Z 1 1
            (map (fun x => [[x]])
                 (map Qsum [[1; 2; 3]; [2; 3; 4]; [3; 4; 5]]%Q))),
     MoreExamples.fitted3_plain).
Proof.
  apply (@windowed_score_joint_values _ Examples.model_score Examples.series5
           MoreExamples.fitted3_plain
           [[1; 1; 1]; [1; 1; 1]; [1; 1; 1]; [1; 1; 1];
            [1; 1; 1]; [1; 1; 1]; [1; 1; 1]; [1; 1; 1]]%Q
           (map Qsum [[1; 2; 3]; [2; 3; 4]; [3; 4; 5]]%Q)).
  - reflexivity.
  - reflexivity.
  - vm_compute. lia.
  - vm_compute. lia.
  - reflexivity.
  - reflexivity.
  - reflexivity.
  - reflexivity.
  - reflexivity.
Defined.

(** X23: without window aggregation, the component-wise path of the
    windowed [_score_core] on a deterministic multivariate series scores
    the windows of component [c] with sub-model [c]; when each sub-model
    answers one score per window, the result has the components of the
    input, its time index without the first [window - 1] timestamps, and at
    position [t] of component [c] score [t] of sub-model [c]. *)
Theorem windowed_score_component_wise_values (Model : Type)
    (model_score : Model -> list (list Q) -> result (list Q))
    (d : TimeSeries) (w : World Model) (ms : list Model)
    (scs : list (list Q)) :
  n_samples d = 1 ->
  length (time_index d) = len d ->
  2 <= width d ->
  1 <= window (self w) <= len d ->
  width_trained_on (self w) = Some (width d) ->
  component_wise (self w) = true ->
  model (self w) = Some (SubModels ms) ->
  length ms = width d ->
  (1 <? window (self w)) && window_agg (self w) = false ->
  _parallel_apply
    (combine ms (map (component_rows (window (self w)) [d])
                     (seq 0 (width d))))
    (fun p => model_score (fst p) (snd p)) = inr scs ->
  Forall (fun sc => length sc = len d + 1 - window (self w)) scs ->
  windowed_score_core model_score d w
  = (inr (mkTimeSeries (skipn (window (self w) - 1) (time_index d))
            (width d) 1
            (map (fun t => map (fun sc => [nth t sc 0%Q]) scs)
                 (seq 0 (len d + 1 - window (self w))))), w).
Proof.
  intros Hn Ht HC [HW Hlen] Hwt Hcw Hmodel Hms Hagg Hpar Hscs.
  assert (Hl : length scs = width d).
  { unfold _parallel_apply in Hpar. apply length_result_all in Hpar.
    rewrite Hpar, length_map, length_combine, length_map, length_seq. lia. }
  assert (Hne : scs <> []) by (intros ->; cbn in Hl; lia).
  unfold windowed_score_core.
  unfold bind at 1. cbn [get_self]. cbv zeta.
  rewrite Hwt. cbn [forallb]. rewrite Nat.eqb_refl. cbn [andb raise_if_not].
  unfold bind at 1. cbn [ret].
  rewrite Hcw, Hagg. cbn [negb orb].
  destruct (Nat.eqb_spec (width d) 1) as [E|_]; [lia|].
  assert (Et : _tabularize_series_component_wise (window (self w)) [d]
               = inr (map (fun s =>
                        map (fun c =>
                               map (fun t => window_of (all_values s)
                                               (window (self w)) t c)
                                   (seq 0 (len s + 1 - window (self w))))
                            (seq 0 (width s))) [d])).
  { unfold _tabularize_series_component_wise.
    apply result_all_map_inr.
    intros s [<-|[]]. apply component_blocks_of_series; try assumption. lia. }
  unfold bind at 1. unfold bind at 1. unfold lift at 1. rewrite Et.
  unfold bind at 1. unfold lift at 1.
  rewrite concatenate_axis1_blocks by (repeat constructor).
  rewrite Hmodel.
  unfold bind at 1. unfold lift at 1. rewrite Hpar.
  unfold bind at 1. unfold lift at 1.
  rewrite (@np_array_2d_uniform _ _ Hscs).
  unfold lift at 1.
  unfold _convert_tabular_to_series. cbn [_convert_tabular_to_series_from].
  replace (map (fun row => slice row 0 (0 + len d + 1 - window (self w))) scs)
    with scs.
  2: { rewrite <- (map_id scs) at 1. apply map_ext_in. intros row Hrow.
       rewrite Forall_forall in Hscs. specialize (Hscs row Hrow).
       unfold slice. cbn [skipn Nat.add]. rewrite Nat.sub_0_r.
       symmetry. apply firstn_all2. lia. }
  rewrite (@zip_star_uniform _ _ Hne Hscs).
  unfold from_times_and_values_2d, from_times_and_values_3d.
  rewrite !length_map, length_seq, length_skipn, Ht.
  replace (len d - (window (self w) - 1)) with (len d + 1 - window (self w))
    by lia.
  rewrite Nat.eqb_refl. cbn [result_bind result_map]. rewrite Hl.
  rewrite map_map. unfold ret. f_equal. f_equal. f_equal.
  apply map_ext. intros t. apply map_map.
Qed.

Lemma windowed_score_component_wise_values_witness :
  windowed_score_core Examples.model_score Examples.bivariate4
    MoreExamples.fitted_component_wise_plain
  = (inr (mkTimeSeries [1; 2; 3]%Z 2 1
            (map (fun t =>
                    map (fun sc => [nth t sc 0%Q])
                        [map Qsum [[1; 2]; [2; 3]; [3; 4]]%Q;
                         map Qsum [[10; 20]; [20; 30]; [30; 40]]%Q])
                 (seq 0 3))),
     MoreExamples.fitted_component_wise_plain).
Proof.
  apply (@windowed_score_component_wise_values _ Examples.model_score
           Examples.bivariate4 MoreExamples.fitted_component_wise_plain
           [[[10; 20]; [20; 30]; [30; 40]]; [[10; 20]; [20; 30]; [30; 40]]]%Q
           [map Qsum [[1; 2]; [2; 3]; [3; 4]]%Q;
            map Qsum [[10; 20]; [20; 30]; [30; 40]]%Q]).
  - reflexivity.
  - reflexivity.
  - vm_compute. lia.
  - vm_compute. lia.
  - reflexivity.
  - reflexivity.
  - reflexivity.
  - reflexivity.
  - reflexivity.
  - reflexivity.
  - repeat constructor.
Defined.
